(** * Cross-chain delivery tracking helpers of [ccip_helpers.go]

    A shallow embedding of the balance ledger ([BalanceSheet]), of the
    watcher stores fed by the subscription callbacks, of the blocking
    phase waits ([AssertEvent...]) and of [ValidateRequestByTxHash],
    together with the properties stated about them; further, of the
    bookkeeping of the transfers ([UpdateBalance]), of the watches that
    nothing arrives, of the resubscription after an outage, and of the
    JSON forms of the package [model]. *)

From Stdlib Require Import ZArith NArith Lia DecimalString DecimalPos DecimalZ.
From stdpp Require Import gmap strings list fin_maps.

Local Open Scope string_scope.
Local Open Scope list_scope.

(** ** math/big integers behind a pointer

    A big integer value is a possibly nil pointer to an unbounded integer:
    [None] is the nil pointer. *)

Module BigInt.

Abbreviation t := (option Z).

(** The [String] method: base ten, a leading minus sign for negative
    numbers, and ["<nil>"] for the nil pointer. *)
Definition String (x : t) : string :=
  match x with
  | None => "<nil>"
  | Some z => NilZero.string_of_int (Z.to_int z)
  end.

(** [big.NewInt(0).SetString(s, 10)]: nil when [s] is not a number.
    An explicit plus sign is accepted as well. *)
Definition SetString (s : string) : t :=
  if String.prefix "+" s then
    let digits := String.substring 1 (String.length s - 1) s in
    if String.prefix "-" digits then None
    else Z.of_int <$> NilZero.int_of_string digits
  else Z.of_int <$> NilZero.int_of_string s.

(** [new(big.Int).Add(x, y)] and [new(big.Int).Sub(x, y)] dereference
    both operands: [None] stands for the panic on a nil operand. *)
Definition Add (x y : t) : option Z :=
  match x, y with
  | Some a, Some b => Some (a + b)%Z
  | _, _ => None
  end.

Definition Sub (x y : t) : option Z :=
  match x, y with
  | Some a, Some b => Some (a - b)%Z
  | _, _ => None
  end.

(** [x.Cmp(y)] on two non-nil operands. *)
Definition Cmp (x y : Z) : Z :=
  match Z.compare x y with
  | Lt => -1
  | Eq => 0
  | Gt => 1
  end%Z.

End BigInt.

(** ** The balance ledger *)

Module Balance.

(** A [common.Address]. *)
Definition EthAddress := N.

(** The [testing.T] of the run: the failures reported so far. *)
Definition T := list string.

(** A test helper either returns, or stops the test at once
    ([t.FailNow], reached through [require]), or panics on a nil
    dereference. *)
Inductive outcome (A : Type) : Type :=
| Return (a : A) (t : T)
| FailNow (t : T)
| Panic.
Arguments Return {A} a t.
Arguments FailNow {A} t.
Arguments Panic {A}.

(** [t.Errorf]: report a failure and go on. *)
Definition Errorf (t : T) (msg : string) : T := t ++ [msg].

Record BalanceItem := {
  Address : EthAddress;
  Getter : EthAddress -> BigInt.t;
  PreviousBalance : BigInt.t;
  AmtToAdd : BigInt.t;
  AmtToSub : BigInt.t
}.

Record BalanceSheet := {
  Items : gmap string BalanceItem;
  PrevBalance : gmap string BigInt.t
}.

(** [testhelpers.BalanceAssertion], as [Verify] and [AssertBalances]
    use it. *)
Record BalanceAssertion := {
  Name : string;
  baAddress : EthAddress;
  baGetter : EthAddress -> BigInt.t;
  Expected : string;
  Within : string
}.

Definition NewBalanceSheet : BalanceSheet :=
  {| Items := ∅; PrevBalance := ∅ |}.

Definition Update (key : string) (item : BalanceItem) (b : BalanceSheet)
  : BalanceSheet :=
  match Items b !! key with
  | None => {| Items := <[key := item]> (Items b); PrevBalance := PrevBalance b |}
  | Some prev =>
      let amtToAdd := 0%Z in
      let amtToSub := 0%Z in
      let amtToAdd := match AmtToAdd prev with Some a => a | None => amtToAdd end in
      let amtToSub := match AmtToSub prev with Some s => s | None => amtToSub end in
      let amtToAdd := match AmtToAdd item with
                      | Some a => (amtToAdd + a)%Z
                      | None => amtToAdd
                      end in
      let amtToSub := match AmtToSub item with
                      | Some s => (amtToSub + s)%Z
                      | None => amtToSub
                      end in
      {| Items := <[key := {| Address := Address item;
                              Getter := Getter item;
                              PreviousBalance := None;
                              AmtToAdd := Some amtToAdd;
                              AmtToSub := Some amtToSub |}]> (Items b);
         PrevBalance := PrevBalance b |}
  end.

(** One round of the loop of [RecordBalance]. *)
Definition recordOne (key : string) (value : BigInt.t)
    (prev : gmap string BigInt.t) : gmap string BigInt.t :=
  match prev !! key with
  | Some _ => prev
  | None => <[key := value]> prev
  end.

Definition RecordBalance (bal : gmap string BigInt.t) (b : BalanceSheet)
  : BalanceSheet :=
  {| Items := Items b;
     PrevBalance := map_fold recordOne (PrevBalance b) bal |}.

(** The body of the loop of [Verify] for one entry of [Items]: the
    expected balance, [None] when the arithmetic panics. *)
Definition expected (prevBalance : BigInt.t) (item : BalanceItem)
  : option BigInt.t :=
  let exp := prevBalance in
  match (match AmtToAdd item with
         | Some a => Some <$> BigInt.Add exp (Some a)
         | None => Some exp
         end) with
  | None => None
  | Some exp =>
      match AmtToSub item with
      | Some s => Some <$> BigInt.Sub exp (Some s)
      | None => Some exp
      end
  end.

(** The loop of [Verify] over the entries of [Items], in the order in
    which the map iteration yields them. *)
Fixpoint verifyLoop (b : BalanceSheet) (items : list (string * BalanceItem))
    (balAssertions : list BalanceAssertion) (t : T)
  : outcome (list BalanceAssertion) :=
  match items with
  | [] => Return balAssertions t
  | (key, item) :: rest =>
      match PrevBalance b !! key with
      | None => FailNow (Errorf t ("previous balance is not captured for " +:+ key))
      | Some prevBalance =>
          match expected prevBalance item with
          | None => Panic
          | Some exp =>
              verifyLoop b rest
                (balAssertions ++ [{| Name := key;
                                      baAddress := Address item;
                                      baGetter := Getter item;
                                      Expected := BigInt.String exp;
                                      Within := "" |}]) t
          end
      end
  end.

Definition wrongBalance (name actual want : string) : string :=
  "wrong balance for " +:+ name +:+ " got " +:+ actual +:+ " want " +:+ want.

Definition outsideRange (name actual low high : string) : string :=
  "wrong balance for " +:+ name +:+ " got " +:+ actual
    +:+ " outside expected range [" +:+ low +:+ ", " +:+ high +:+ "]".

(** The body of the loop of [AssertBalances]; [assert] reports a
    failure and goes on. *)
Definition assertBalance (b : BalanceAssertion) (t : T) : outcome unit :=
  let actual := baGetter b (baAddress b) in
  let t := match actual with
           | None => Errorf t (Name b +:+ " getter return nil")
           | Some _ => t
           end in
  if String.eqb (Within b) "" then
    Return tt (if String.eqb (Expected b) (BigInt.String actual) then t
               else Errorf t (wrongBalance (Name b) (BigInt.String actual) (Expected b)))
  else
    let bi := BigInt.SetString (Expected b) in
    let withinI := BigInt.SetString (Within b) in
    match BigInt.Add bi withinI, BigInt.Sub bi withinI, actual with
    | Some high, Some low, Some a =>
        let msg := outsideRange (Name b) (BigInt.String actual)
                     (BigInt.String (Some low)) (BigInt.String (Some high)) in
        let t := if Z.eqb (-1) (BigInt.Cmp a high) then t else Errorf t msg in
        let t := if Z.eqb 1 (BigInt.Cmp a low) then t else Errorf t msg in
        Return tt t
    | _, _, _ => Panic
    end.

Fixpoint AssertBalances (bas : list BalanceAssertion) (t : T) : outcome unit :=
  match bas with
  | [] => Return tt t
  | b :: rest =>
      match assertBalance b t with
      | Return _ t' => AssertBalances rest t'
      | FailNow t' => FailNow t'
      | Panic => Panic
      end
  end.

(** [Verify], run with the map iteration yielding [order]. *)
Definition VerifyIn (order : list (string * BalanceItem)) (b : BalanceSheet)
    (t : T) : outcome unit :=
  match verifyLoop b order [] t with
  | Return balAssertions t' => AssertBalances balAssertions t'
  | FailNow t' => FailNow t'
  | Panic => Panic
  end.

Definition Verify (b : BalanceSheet) (t : T) : outcome unit :=
  VerifyIn (map_to_list (Items b)) b t.

(** The amount a possibly nil big integer stands for: nil counts as
    zero. *)
Definition amount (x : BigInt.t) : Z := default 0%Z x.

(** What [Items] already holds for a key, nothing counting as zero. *)
Definition pending (f : BalanceItem -> BigInt.t) (b : BalanceSheet)
    (key : string) : Z :=
  match Items b !! key with
  | Some it => amount (f it)
  | None => 0%Z
  end.

(** The expected balance in the words of the specification:
    [prev + totalAdd - totalSub]. *)
Definition expectedBalance (prev : Z) (item : BalanceItem) : Z :=
  (prev + amount (AmtToAdd item) - amount (AmtToSub item))%Z.

(** The failures the specification asks of [Verify] for one entry whose
    baseline [prev] was captured: a mismatch between the balance the
    getter returns and [expectedBalance] fails the test. *)
Definition balanceFailures (b : BalanceSheet) (entry : string * BalanceItem)
  : list string :=
  let '(key, item) := entry in
  match PrevBalance b !! key with
  | Some (Some prev) =>
      let actual := Getter item (Address item) in
      let noBalance := match actual with
                       | None => [key +:+ " getter return nil"]
                       | Some _ => []
                       end in
      let mismatch :=
        if decide (actual = Some (expectedBalance prev item)) then []
        else [wrongBalance key (BigInt.String actual)
                (BigInt.String (Some (expectedBalance prev item)))] in
      (noBalance ++ mismatch)
  | _ => []
  end.

(** The assertion the specification asks [Verify] to make for an entry:
    the entry's getter against [expectedBalance]. *)
Definition assertionFor (b : BalanceSheet)
    (entry : string * BalanceItem) : BalanceAssertion :=
  {| Name := entry.1;
     baAddress := Address entry.2;
     baGetter := Getter entry.2;
     Expected := BigInt.String
       (Some (expectedBalance (amount (default None (PrevBalance b !! entry.1)))
                entry.2));
     Within := "" |}.

End Balance.

(** ** Time, machine integers and chain events *)

Module Time.

(** An instant, in nanoseconds since the epoch, and a [time.Duration],
    a signed 64-bit count of nanoseconds. *)
Abbreviation t := Z.
Abbreviation Duration := Z.

Definition minDuration : Duration := (- 2 ^ 63)%Z.
Definition maxDuration : Duration := (2 ^ 63 - 1)%Z.
Definition Second : Duration := 1000000000%Z.

(** [t.Sub(u)]: the difference, or the smallest or largest duration
    when the difference does not fit. *)
Definition Sub (t u : t) : Duration :=
  let d := (t - u)%Z in
  if (d <? minDuration)%Z then minDuration
  else if (maxDuration <? d)%Z then maxDuration
  else d.

(** The zero value [time.Time{}]: the first instant of year 1. *)
Definition zero : t := (-62135596800000000000)%Z.

(** [time.Since(t)], read at the instant [now]. *)
Definition Since (now t : t) : Duration := Sub now t.

End Time.

(** A [uint64] is a natural number below [2^64]; arithmetic wraps. *)
Definition MaxUint64 : N := (2 ^ 64 - 1)%N.
Definition uint64 (n : N) : N := (n mod 2 ^ 64)%N.

(** [int64(n)] of a [uint64]. *)
Definition int64 (n : N) : Z :=
  let z := Z.of_N (uint64 n) in
  if (z <? 2 ^ 63)%Z then z else (z - 2 ^ 64)%Z.

(** [%d] of an unsigned integer. *)
Definition fmtN (n : N) : string := NilZero.string_of_uint (N.to_uint n).

(** [for i := min; i <= max; i++ { body }] with a [uint64] counter: the
    increment wraps, so the loop is run with fuel and [None] stands for
    a loop that has not ended when the fuel is spent. *)
Fixpoint forRange {S : Type} (fuel : nat) (body : N -> S -> S)
    (i max : N) (s : S) : option S :=
  match fuel with
  | O => None
  | Datatypes.S fuel =>
      if (i <=? max)%N then forRange fuel body (uint64 (i + 1)) max (body i s)
      else Some s
  end.

(** Fuel for every loop from [min] to [max] that ends at all (see
    [forRange_ends] and [forRange_never_ends]). *)
Definition rangeFuel (min max : N) : nat := N.to_nat (max - min) + 2.

(** The fields of [types.Log] in use; a hash is held as its hex
    string. *)
Record Log := {
  BlockNumber : N;
  TxHash : string
}.

Record Interval := {
  Min : N;
  Max : N
}.

Record CommitReport := {
  ReportInterval : Interval;
  MerkleRoot : N
}.

Record CCIPSendRequested := {
  SequenceNumber : N;
  sendRaw : Log
}.

Record ReportAccepted := {
  Report : CommitReport;
  acceptedRaw : Log
}.

Record TaggedRootBlessed := {
  TaggedRootCommitStore : N;
  TaggedRootRoot : N;
  blessedRaw : Log
}.

Record ExecutionStateChanged := {
  execSequenceNumber : N;
  State : N;
  ReturnData : string;
  execRaw : Log
}.

(** The chain client, as far as the waits call it.  An error of a call
    is [None]; [WaitForFinalizedTx] answers with the finalized block
    number and timestamp, or fails at some instant. *)
Record EVMClient := {
  GetChainID : N;
  HeaderByNumber : Z -> option Time.t;
  GetTxReceipt : string -> option N;
  WaitForFinalizedTx : string -> (N * Time.t) + Time.t
}.

(** ** Request statistics *)

Module testreporters.

(** Modelled from the spec: the package [testreporters] ([RequestStat],
    its method [UpdateState], the phase and status names) is not among
    the sources.  Following the data model, a request carries its
    sequence number and a per-phase status log; [UpdateState] sets the
    sequence number and records the phase with its status, elapsed
    duration and transaction metadata. *)
Inductive Phase :=
| TX | CCIPSendRe | SourceLogFinalized | Commit | ReportBlessed | ExecStateChanged.

Inductive Status := Success | Failure.

Record TransactionStats := {
  statTxHash : string;
  GasUsed : N;
  CommitRoot : option N;
  FinalizedByBlock : option N;
  FinalizedAt : option Time.t
}.

Record PhaseStat := {
  phaseSeqNum : N;
  phase : Phase;
  Duration : Time.Duration;
  status : Status;
  SendTransactionStats : option TransactionStats
}.

Record RequestStat := {
  ReqNo : Z;
  SeqNum : N;
  StatusByPhase : list PhaseStat
}.

(** Modelled from the spec: the body of [UpdateState] is not among the
    sources; it keeps the sequence number it is called with (the
    validation looks requests up by it) and adds the phase record to
    the log of the request. *)
Definition UpdateState (seqNum : N) (step : Phase) (duration : Time.Duration)
    (state : Status) (txStats : option TransactionStats) (stat : RequestStat)
  : RequestStat :=
  {| ReqNo := ReqNo stat;
     SeqNum := seqNum;
     StatusByPhase := StatusByPhase stat ++
       [{| phaseSeqNum := seqNum; phase := step; Duration := duration;
           status := state; SendTransactionStats := txStats |}] |}.

End testreporters.
Import testreporters.

(** ** The lane and its shared state *)

Record CCIPCommon := {
  ChainClient : EVMClient;
  (** the address of the ARM contract; nil for a mock ARM *)
  ARM : option N;
  (** nil until the first connection event *)
  IsConnectionRestoredRecently : option bool
}.

Module SourceCCIPModule.
Record t := {
  Common : CCIPCommon;
  (** [sync.Map] from the hex of a transaction hash to the events seen
      for it *)
  CCIPSendRequestedWatcher : gmap string (list CCIPSendRequested)
}.
End SourceCCIPModule.

Module DestCCIPModule.
Record t := {
  Common : CCIPCommon;
  SourceChainId : N;
  (** the address of the commit store, and what its
      [GetExpectedNextSequenceNumber] answers at present ([None] when
      the call fails) *)
  CommitStore : N;
  ExpectedNextSequenceNumber : option N;
  ReportAcceptedWatcher : gmap N ReportAccepted;
  ExecStateChangedWatcher : gmap N ExecutionStateChanged;
  ReportBlessedWatcher : gmap N Log;
  ReportBlessedBySeqNum : gmap N Log;
  NextSeqNumToCommit : N
}.
End DestCCIPModule.

(** A pointer to a [RequestStat] is its position in [Heap]. *)
Record CCIPRequest := {
  txConfirmationTimestamp : Time.t;
  RequestStat_ : nat
}.

Record CCIPLane := {
  Source : SourceCCIPModule.t;
  Dest : DestCCIPModule.t;
  SentReqs : gmap string (list CCIPRequest);
  ValidationTimeout : Time.Duration;
  Heap : list RequestStat
}.

Definition withSource (f : SourceCCIPModule.t -> SourceCCIPModule.t)
    (lane : CCIPLane) : CCIPLane :=
  {| Source := f (Source lane); Dest := Dest lane; SentReqs := SentReqs lane;
     ValidationTimeout := ValidationTimeout lane; Heap := Heap lane |}.

Definition withDest (f : DestCCIPModule.t -> DestCCIPModule.t)
    (lane : CCIPLane) : CCIPLane :=
  {| Source := Source lane; Dest := f (Dest lane); SentReqs := SentReqs lane;
     ValidationTimeout := ValidationTimeout lane; Heap := Heap lane |}.

(** A method call on the [RequestStat] behind the pointer [reqStat]. *)
Definition onStat (reqStat : nat) (f : RequestStat -> RequestStat)
    (lane : CCIPLane) : CCIPLane :=
  {| Source := Source lane; Dest := Dest lane; SentReqs := SentReqs lane;
     ValidationTimeout := ValidationTimeout lane;
     Heap := alter f reqStat (Heap lane) |}.

Definition setConnection (flag : option bool) (c : CCIPCommon) : CCIPCommon :=
  {| ChainClient := ChainClient c; ARM := ARM c;
     IsConnectionRestoredRecently := flag |}.

Definition setSendRequestedWatcher (m : gmap string (list CCIPSendRequested))
    (src : SourceCCIPModule.t) : SourceCCIPModule.t :=
  {| SourceCCIPModule.Common := SourceCCIPModule.Common src;
     SourceCCIPModule.CCIPSendRequestedWatcher := m |}.

Definition setSourceCommon (c : CCIPCommon) (src : SourceCCIPModule.t)
  : SourceCCIPModule.t :=
  {| SourceCCIPModule.Common := c;
     SourceCCIPModule.CCIPSendRequestedWatcher :=
       SourceCCIPModule.CCIPSendRequestedWatcher src |}.

Section DestSetters.
Import DestCCIPModule.

Definition setDestCommon (c : CCIPCommon) (d : t) : t :=
  {| Common := c; SourceChainId := SourceChainId d;
     CommitStore := CommitStore d;
     ExpectedNextSequenceNumber := ExpectedNextSequenceNumber d;
     ReportAcceptedWatcher := ReportAcceptedWatcher d;
     ExecStateChangedWatcher := ExecStateChangedWatcher d;
     ReportBlessedWatcher := ReportBlessedWatcher d;
     ReportBlessedBySeqNum := ReportBlessedBySeqNum d;
     NextSeqNumToCommit := NextSeqNumToCommit d |}.

Definition setExpectedNext (next : option N) (d : t) : t :=
  {| Common := Common d; SourceChainId := SourceChainId d;
     CommitStore := CommitStore d;
     ExpectedNextSequenceNumber := next;
     ReportAcceptedWatcher := ReportAcceptedWatcher d;
     ExecStateChangedWatcher := ExecStateChangedWatcher d;
     ReportBlessedWatcher := ReportBlessedWatcher d;
     ReportBlessedBySeqNum := ReportBlessedBySeqNum d;
     NextSeqNumToCommit := NextSeqNumToCommit d |}.

Definition setReportAcceptedWatcher (m : gmap N ReportAccepted) (d : t) : t :=
  {| Common := Common d; SourceChainId := SourceChainId d;
     CommitStore := CommitStore d;
     ExpectedNextSequenceNumber := ExpectedNextSequenceNumber d;
     ReportAcceptedWatcher := m;
     ExecStateChangedWatcher := ExecStateChangedWatcher d;
     ReportBlessedWatcher := ReportBlessedWatcher d;
     ReportBlessedBySeqNum := ReportBlessedBySeqNum d;
     NextSeqNumToCommit := NextSeqNumToCommit d |}.

Definition setExecStateChangedWatcher (m : gmap N ExecutionStateChanged)
    (d : t) : t :=
  {| Common := Common d; SourceChainId := SourceChainId d;
     CommitStore := CommitStore d;
     ExpectedNextSequenceNumber := ExpectedNextSequenceNumber d;
     ReportAcceptedWatcher := ReportAcceptedWatcher d;
     ExecStateChangedWatcher := m;
     ReportBlessedWatcher := ReportBlessedWatcher d;
     ReportBlessedBySeqNum := ReportBlessedBySeqNum d;
     NextSeqNumToCommit := NextSeqNumToCommit d |}.

Definition setReportBlessedWatcher (m : gmap N Log) (d : t) : t :=
  {| Common := Common d; SourceChainId := SourceChainId d;
     CommitStore := CommitStore d;
     ExpectedNextSequenceNumber := ExpectedNextSequenceNumber d;
     ReportAcceptedWatcher := ReportAcceptedWatcher d;
     ExecStateChangedWatcher := ExecStateChangedWatcher d;
     ReportBlessedWatcher := m;
     ReportBlessedBySeqNum := ReportBlessedBySeqNum d;
     NextSeqNumToCommit := NextSeqNumToCommit d |}.

Definition setReportBlessedBySeqNum (m : gmap N Log) (d : t) : t :=
  {| Common := Common d; SourceChainId := SourceChainId d;
     CommitStore := CommitStore d;
     ExpectedNextSequenceNumber := ExpectedNextSequenceNumber d;
     ReportAcceptedWatcher := ReportAcceptedWatcher d;
     ExecStateChangedWatcher := ExecStateChangedWatcher d;
     ReportBlessedWatcher := ReportBlessedWatcher d;
     ReportBlessedBySeqNum := m;
     NextSeqNumToCommit := NextSeqNumToCommit d |}.

Definition setNextSeqNumToCommit (n : N) (d : t) : t :=
  {| Common := Common d; SourceChainId := SourceChainId d;
     CommitStore := CommitStore d;
     ExpectedNextSequenceNumber := ExpectedNextSequenceNumber d;
     ReportAcceptedWatcher := ReportAcceptedWatcher d;
     ExecStateChangedWatcher := ExecStateChangedWatcher d;
     ReportBlessedWatcher := ReportBlessedWatcher d;
     ReportBlessedBySeqNum := ReportBlessedBySeqNum d;
     NextSeqNumToCommit := n |}.

End DestSetters.

(** ** The goroutines around a wait

    A wait runs beside the connectivity listener and the subscription
    goroutines of [StartEventWatchers].  One run is described by the
    schedule of what happens, in order: the wait's ticker or timer
    fires, a subscription delivers an event, the chain client reports a
    connection event, or the commit store moves on. *)

Inductive Side := source | dest.

Inductive chainEvent :=
| sendReqEvent (e : CCIPSendRequested)
| reportAcceptedEvent (e : ReportAccepted)
| reportBlessedEvent (e : TaggedRootBlessed)
| execStateChangedEvent (e : ExecutionStateChanged).

Inductive envEvent :=
| TickerC (now : Time.t)
| TimerC (now : Time.t)
| Delivered (e : chainEvent)
| ConnectionRestored (side : Side)
| ConnectionIssue (side : Side)
| CommitStoreMoved (next : option N).

(** [PollRPCConnection]: the two receive branches. *)
Definition PollRPCConnection (restored : bool) (ccipModule : CCIPCommon)
  : CCIPCommon :=
  match IsConnectionRestoredRecently ccipModule with
  | None => setConnection (Some restored) ccipModule
  | Some _ => setConnection (Some restored) ccipModule
  end.

(** [StartEventWatchers]: what each subscription goroutine does with an
    event it receives.  A resubscription from the start block of the
    lane shows in a schedule as further deliveries, of events delivered
    before among them.  The stores hold typed, non-nil values, so that
    [DeleteNilEntriesFromMap] has nothing to remove.  [None]: the loop
    over the interval never ends. *)
Definition StartEventWatchers_receive (ev : chainEvent) (lane : CCIPLane)
  : option CCIPLane :=
  match ev with
  | sendReqEvent e =>
      let watcher := SourceCCIPModule.CCIPSendRequestedWatcher (Source lane) in
      let key := TxHash (sendRaw e) in
      Some (withSource (setSendRequestedWatcher
        match watcher !! key with
        | Some eventsForTx => <[key := eventsForTx ++ [e]]> watcher
        | None => <[key := [e]]> watcher
        end) lane)
  | reportAcceptedEvent e =>
      let interval := ReportInterval (Report e) in
      watcher ← forRange (rangeFuel (Min interval) (Max interval))
                  (fun i m => <[i := e]> m) (Min interval) (Max interval)
                  (DestCCIPModule.ReportAcceptedWatcher (Dest lane));
      Some (withDest (setReportAcceptedWatcher watcher) lane)
  | reportBlessedEvent e =>
      match ARM (DestCCIPModule.Common (Dest lane)) with
      | None => Some lane
      | Some _ =>
          if decide (TaggedRootCommitStore e = DestCCIPModule.CommitStore (Dest lane))
          then Some (withDest (setReportBlessedWatcher
                 (<[TaggedRootRoot e := blessedRaw e]>
                    (DestCCIPModule.ReportBlessedWatcher (Dest lane)))) lane)
          else Some lane
      end
  | execStateChangedEvent e =>
      Some (withDest (setExecStateChangedWatcher
        (<[execSequenceNumber e := e]>
           (DestCCIPModule.ExecStateChangedWatcher (Dest lane)))) lane)
  end.

(** What the goroutines beside the wait do at an event of the schedule
    that is not the wait's own. *)
Definition background (ev : envEvent) (lane : CCIPLane) : option CCIPLane :=
  match ev with
  | TickerC _ | TimerC _ => Some lane
  | Delivered e => StartEventWatchers_receive e lane
  | ConnectionRestored source =>
      Some (withSource (fun s => setSourceCommon
        (PollRPCConnection true (SourceCCIPModule.Common s)) s) lane)
  | ConnectionIssue source =>
      Some (withSource (fun s => setSourceCommon
        (PollRPCConnection false (SourceCCIPModule.Common s)) s) lane)
  | ConnectionRestored dest =>
      Some (withDest (fun d => setDestCommon
        (PollRPCConnection true (DestCCIPModule.Common d)) d) lane)
  | ConnectionIssue dest =>
      Some (withDest (fun d => setDestCommon
        (PollRPCConnection false (DestCCIPModule.Common d)) d) lane)
  | CommitStoreMoved next => Some (withDest (setExpectedNext next) lane)
  end.

(** One branch of a [select] either returns from the function, or goes
    round the loop again, or never ends. *)
Inductive branch (A : Type) : Type :=
| Return_ (a : A)
| Continue
| Diverge.
Arguments Return_ {A} a.
Arguments Continue {A}.
Arguments Diverge {A}.

(** How a wait stands at the end of a schedule: it has returned, it is
    still blocked in its [select], or it hangs in a loop that never
    ends. *)
Inductive waited (A : Type) : Type :=
| Returned (a : A)
| Blocked
| Hung.
Arguments Returned {A} a.
Arguments Blocked {A}.
Arguments Hung {A}.

(** [for { select { case <-ticker.C: ...; case <-timer.C: ... } }] with
    the loop's local variables [loc], along a schedule.  The run gives
    how the wait stands, the local variables, the lane and the rest of
    the schedule. *)
Fixpoint selectLoop {L A : Type}
    (onTicker onTimer : Time.t -> L -> CCIPLane -> branch A * L * CCIPLane)
    (env : list envEvent) (loc : L) (lane : CCIPLane)
  : waited A * L * CCIPLane * list envEvent :=
  match env with
  | [] => (Blocked, loc, lane, [])
  | ev :: env' =>
      match ev with
      | TickerC now =>
          match onTicker now loc lane with
          | (Return_ a, loc', lane') => (Returned a, loc', lane', env')
          | (Continue, loc', lane') => selectLoop onTicker onTimer env' loc' lane'
          | (Diverge, loc', lane') => (Hung, loc', lane', env')
          end
      | TimerC now =>
          match onTimer now loc lane with
          | (Return_ a, loc', lane') => (Returned a, loc', lane', env')
          | (Continue, loc', lane') => selectLoop onTicker onTimer env' loc' lane'
          | (Diverge, loc', lane') => (Hung, loc', lane', env')
          end
      | _ =>
          match background ev lane with
          | Some lane' => selectLoop onTicker onTimer env' loc lane'
          | None => (Hung, loc, lane, env')
          end
      end
  end.

(** ** The phase waits

    In each wait the ticker and the timer branch of the [select] are
    given apart; the instant read by [time.Now] in a branch is the one at
    which the branch was taken.  [timer.Reset] lets the timer fire again
    later in the schedule; the local counter of resets is part of what
    a run gives. *)

Definition error := option string.

Section SourceWaits.
Import SourceCCIPModule.

Definition AssertSendRequestedLogFinalized (txHash : string)
    (prevEventAt : Time.t) (reqStats : list nat) (lane : CCIPLane)
  : (Time.t * N * error) * CCIPLane :=
  match WaitForFinalizedTx (ChainClient (Common (Source lane))) txHash with
  | inr now =>
      ((Time.zero, 0%N,
        Some "error waiting for CCIPSendRequested event log to be finalized - "),
       foldl (fun lane stat =>
                onStat stat (fun st => UpdateState (SeqNum st) SourceLogFinalized
                               (Time.Since now prevEventAt) Failure None st) lane)
         lane reqStats)
  | inl (finalizedBlockNum, finalizedAt) =>
      ((finalizedAt, uint64 finalizedBlockNum, None),
       foldl (fun lane stat =>
                onStat stat (fun st => UpdateState (SeqNum st) SourceLogFinalized
                               (Time.Sub finalizedAt prevEventAt) Success
                               (Some {| statTxHash := txHash; GasUsed := 0%N;
                                        CommitRoot := None;
                                        FinalizedByBlock := Some finalizedBlockNum;
                                        FinalizedAt := Some finalizedAt |}) st) lane)
         lane reqStats)
  end.

Definition CCIPSendRequested_ticker (txHash : string) (prevEventAt : Time.t)
    (reqStat : list nat) (now : Time.t) (resetTimer : nat) (lane : CCIPLane)
  : branch (option (list CCIPSendRequested) * Time.t * error) * nat * CCIPLane :=
  match CCIPSendRequestedWatcher (Source lane) !! txHash with
  | Some sendRequestedEvents =>
      if decide (length sendRequestedEvents = length reqStat) then
        let lane := withSource (fun s => setSendRequestedWatcher
                      (delete txHash (CCIPSendRequestedWatcher s)) s) lane in
        let lane := foldl (fun lane '(sendRequestedEvent, stat) =>
                      onStat stat (UpdateState (SequenceNumber sendRequestedEvent)
                                     CCIPSendRe 0%Z Success None) lane)
                      lane (zip sendRequestedEvents reqStat) in
        (Return_ (Some sendRequestedEvents, prevEventAt, None), resetTimer, lane)
      else (Continue, resetTimer, lane)
  | None => (Continue, resetTimer, lane)
  end.

Definition CCIPSendRequested_timer (txHash : string) (prevEventAt : Time.t)
    (reqStat : list nat) (now : Time.t) (resetTimer : nat) (lane : CCIPLane)
  : branch (option (list CCIPSendRequested) * Time.t * error) * nat * CCIPLane :=
  let failed := foldl (fun lane stat =>
                  onStat stat (UpdateState 0%N CCIPSendRe
                                 (Time.Since now prevEventAt) Failure None) lane)
                  lane reqStat in
  match IsConnectionRestoredRecently (Common (Source lane)) with
  | Some false =>
      if (2 <? resetTimer)%nat then
        (Return_ (None, now,
           Some ("possible RPC issue - CCIPSendRequested event is not found for tx "
                 +:+ txHash)), resetTimer, failed)
      else (Continue, S resetTimer, lane)
  | _ =>
      (Return_ (None, now,
         Some ("CCIPSendRequested event is not found for tx " +:+ txHash)),
       resetTimer, failed)
  end.

Definition AssertEventCCIPSendRequested (txHash : string) (timeout : Time.Duration)
    (prevEventAt : Time.t) (reqStat : list nat)
    (env : list envEvent) (lane : CCIPLane) :=
  selectLoop (CCIPSendRequested_ticker txHash prevEventAt reqStat)
             (CCIPSendRequested_timer txHash prevEventAt reqStat) env 0 lane.

End SourceWaits.

Section DestWaits.
Import DestCCIPModule.

(** [lane %d-->%d] of the error messages. *)
Definition laneText (destCCIP : t) : string :=
  "lane " +:+ fmtN (SourceChainId destCCIP) +:+ "-->"
    +:+ fmtN (GetChainID (ChainClient (Common destCCIP))).

(** The timestamp of the block of a log when the header can be fetched,
    the instant [receivedAt] otherwise. *)
Definition headerTime (destCCIP : t) (vLogs : Log) (receivedAt : Time.t)
  : Time.t :=
  match HeaderByNumber (ChainClient (Common destCCIP)) (int64 (BlockNumber vLogs)) with
  | Some timestamp => timestamp
  | None => receivedAt
  end.

(** The gas used by the transaction of a log; zero without a receipt. *)
Definition receiptGas (destCCIP : t) (vLogs : Log) : N :=
  match GetTxReceipt (ChainClient (Common destCCIP)) (TxHash vLogs) with
  | Some gasUsed => gasUsed
  | None => 0%N
  end.

Definition ExecutionStateChanged_ticker (seqNum : N) (timeNow : Time.t)
    (reqStat : nat) (execState : N)
    (now : Time.t) (resetTimer : nat) (lane : CCIPLane)
  : branch (N * error) * nat * CCIPLane :=
  let destCCIP := Dest lane in
  match ExecStateChangedWatcher destCCIP !! seqNum with
  | Some e =>
      let lane := withDest (setExecStateChangedWatcher
                    (delete seqNum (ExecStateChangedWatcher destCCIP))) lane in
      let vLogs := execRaw e in
      let receivedAt := headerTime destCCIP vLogs now in
      let gasUsed := receiptGas destCCIP vLogs in
      if decide (State e = execState) then
        (Return_ (State e, None), resetTimer,
         onStat reqStat (UpdateState seqNum ExecStateChanged
                           (Time.Sub receivedAt timeNow) Success
                           (Some {| statTxHash := TxHash vLogs; GasUsed := gasUsed;
                                    CommitRoot := None; FinalizedByBlock := None;
                                    FinalizedAt := None |})) lane)
      else
        (Return_ (State e,
           Some ("ExecutionStateChanged event state - expected " +:+ fmtN execState
                 +:+ " actual - " +:+ fmtN (State e) +:+ " with data "
                 +:+ ReturnData e +:+ " for seq num " +:+ fmtN seqNum
                 +:+ " for " +:+ laneText destCCIP)), resetTimer,
         onStat reqStat (UpdateState seqNum ExecStateChanged
                           (Time.Since now timeNow) Failure None) lane)
  | None => (Continue, resetTimer, lane)
  end.

Definition ExecutionStateChanged_timer (seqNum : N) (timeNow : Time.t)
    (reqStat : nat) (now : Time.t) (resetTimer : nat) (lane : CCIPLane)
  : branch (N * error) * nat * CCIPLane :=
  let destCCIP := Dest lane in
  let failed := onStat reqStat (UpdateState seqNum ExecStateChanged
                                  (Time.Since now timeNow) Failure None) lane in
  match IsConnectionRestoredRecently (Common destCCIP) with
  | Some false =>
      if (2 <? resetTimer)%nat then
        (Return_ (0%N,
           Some ("possible RPC issues - ExecutionStateChanged event not found for seq num "
                 +:+ fmtN seqNum +:+ " for " +:+ laneText destCCIP)),
         resetTimer, failed)
      else (Continue, S resetTimer, lane)
  | _ =>
      (Return_ (0%N,
         Some ("ExecutionStateChanged event not found for seq num "
               +:+ fmtN seqNum +:+ " for " +:+ laneText destCCIP)),
       resetTimer, failed)
  end.

Definition AssertEventExecutionStateChanged (seqNum : N) (timeout : Time.Duration)
    (timeNow : Time.t) (reqStat : nat) (execState : N)
    (env : list envEvent) (lane : CCIPLane) :=
  selectLoop (ExecutionStateChanged_ticker seqNum timeNow reqStat execState)
             (ExecutionStateChanged_timer seqNum timeNow reqStat) env 0 lane.

Definition ReportAccepted_ticker (seqNum : N) (prevEventAt : Time.t)
    (reqStat : nat) (now : Time.t) (resetTimerCount : nat) (lane : CCIPLane)
  : branch (option CommitReport * Time.t * error) * nat * CCIPLane :=
  let destCCIP := Dest lane in
  match ReportAcceptedWatcher destCCIP !! seqNum with
  | Some reportAccepted =>
      let lane := withDest (setReportAcceptedWatcher
                    (delete seqNum (ReportAcceptedWatcher destCCIP))) lane in
      let receivedAt := headerTime destCCIP (acceptedRaw reportAccepted) now in
      let totalTime := Time.Sub receivedAt prevEventAt in
      let totalTime := if (totalTime <? 0)%Z then Time.Second else totalTime in
      let gasUsed := receiptGas destCCIP (acceptedRaw reportAccepted) in
      (Return_ (Some (Report reportAccepted), receivedAt, None), resetTimerCount,
       onStat reqStat (UpdateState seqNum Commit totalTime Success
                         (Some {| statTxHash := TxHash (acceptedRaw reportAccepted);
                                  GasUsed := gasUsed;
                                  CommitRoot := Some (MerkleRoot (Report reportAccepted));
                                  FinalizedByBlock := None;
                                  FinalizedAt := None |})) lane)
  | None => (Continue, resetTimerCount, lane)
  end.

Definition ReportAccepted_timer (seqNum : N) (prevEventAt : Time.t)
    (reqStat : nat) (now : Time.t) (resetTimerCount : nat) (lane : CCIPLane)
  : branch (option CommitReport * Time.t * error) * nat * CCIPLane :=
  let destCCIP := Dest lane in
  let failed := onStat reqStat (UpdateState seqNum Commit
                                  (Time.Since now prevEventAt) Failure None) lane in
  match IsConnectionRestoredRecently (Common destCCIP) with
  | Some false =>
      if (2 <? resetTimerCount)%nat then
        (Return_ (None, now,
           Some ("possible RPC issue - ReportAccepted is not found for seq num "
                 +:+ fmtN seqNum +:+ " " +:+ laneText destCCIP)),
         resetTimerCount, failed)
      else (Continue, S resetTimerCount, lane)
  | _ =>
      (Return_ (None, now,
         Some ("ReportAccepted is not found for seq num "
               +:+ fmtN seqNum +:+ " " +:+ laneText destCCIP)),
       resetTimerCount, failed)
  end.

Definition AssertEventReportAccepted (seqNum : N) (timeout : Time.Duration)
    (prevEventAt : Time.t) (reqStat : nat)
    (env : list envEvent) (lane : CCIPLane) :=
  selectLoop (ReportAccepted_ticker seqNum prevEventAt reqStat)
             (ReportAccepted_timer seqNum prevEventAt reqStat) env 0 lane.

(** [%+v] of a commit store interval. *)
Definition intervalText (i : Interval) : string :=
  "{Min:" +:+ fmtN (Min i) +:+ " Max:" +:+ fmtN (Max i) +:+ "}".

Definition ReportBlessed_ticker (seqNum : N) (CommitReport : CommitReport)
    (prevEventAt : Time.t) (reqStat : nat)
    (now : Time.t) (resetTimerCount : nat) (lane : CCIPLane)
  : branch (Time.t * error) * nat * CCIPLane :=
  let destCCIP := Dest lane in
  let '(value, foundAsRoot) :=
    match ReportBlessedWatcher destCCIP !! MerkleRoot CommitReport with
    | Some v => (Some v, true)
    | None => (None, false)
    end in
  let receivedAt := now in
  let value := if foundAsRoot then value
               else ReportBlessedBySeqNum destCCIP !! seqNum in
  match value with
  | Some vLogs =>
      let consumed :=
        if foundAsRoot then
          let interval := ReportInterval CommitReport in
          bySeqNum ← forRange (rangeFuel (Min interval) (Max interval))
                       (fun i m => <[i := vLogs]> m)
                       (Min interval) (Max interval)
                       (ReportBlessedBySeqNum destCCIP);
          Some (setReportBlessedWatcher
                  (delete (MerkleRoot CommitReport) (ReportBlessedWatcher destCCIP))
                  (setReportBlessedBySeqNum bySeqNum destCCIP))
        else
          Some (setReportBlessedBySeqNum
                  (delete seqNum (ReportBlessedBySeqNum destCCIP)) destCCIP) in
      match consumed with
      | None => (Diverge, resetTimerCount, lane)
      | Some destCCIP' =>
          let lane := withDest (fun _ => destCCIP') lane in
          let receivedAt := headerTime destCCIP vLogs receivedAt in
          let gasUsed := receiptGas destCCIP vLogs in
          (Return_ (receivedAt, None), resetTimerCount,
           onStat reqStat (UpdateState seqNum ReportBlessed
                             (Time.Sub receivedAt prevEventAt) Success
                             (Some {| statTxHash := TxHash vLogs; GasUsed := gasUsed;
                                      CommitRoot := Some (MerkleRoot CommitReport);
                                      FinalizedByBlock := None;
                                      FinalizedAt := None |})) lane)
      end
  | None => (Continue, resetTimerCount, lane)
  end.

Definition ReportBlessed_timer (seqNum : N) (CommitReport : CommitReport)
    (prevEventAt : Time.t) (reqStat : nat)
    (now : Time.t) (resetTimerCount : nat) (lane : CCIPLane)
  : branch (Time.t * error) * nat * CCIPLane :=
  let destCCIP := Dest lane in
  let failed := onStat reqStat (UpdateState seqNum ReportBlessed
                                  (Time.Since now prevEventAt) Failure None) lane in
  match IsConnectionRestoredRecently (Common destCCIP) with
  | Some false =>
      if (2 <? resetTimerCount)%nat then
        (Return_ (now,
           Some ("possible RPC issue - ReportBlessed is not found for interval "
                 +:+ intervalText (ReportInterval CommitReport)
                 +:+ " " +:+ laneText destCCIP)),
         resetTimerCount, failed)
      else (Continue, S resetTimerCount, lane)
  | _ =>
      (Return_ (now,
         Some ("ReportBlessed is not found for interval "
               +:+ intervalText (ReportInterval CommitReport)
               +:+ " " +:+ laneText destCCIP)),
       resetTimerCount, failed)
  end.

Definition AssertReportBlessed (seqNum : N) (timeout : Time.Duration)
    (CommitReport : CommitReport) (prevEventAt : Time.t) (reqStat : nat)
    (env : list envEvent) (lane : CCIPLane)
  : waited (Time.t * error) * nat * CCIPLane * list envEvent :=
  match ARM (Common (Dest lane)) with
  | None => (Returned (prevEventAt, None), 0, lane, env)
  | Some _ =>
      selectLoop (ReportBlessed_ticker seqNum CommitReport prevEventAt reqStat)
                 (ReportBlessed_timer seqNum CommitReport prevEventAt reqStat)
                 env 0 lane
  end.

Definition SeqNumberExecuted_ticker (seqNumberBefore : N)
    (now : Time.t) (resetTimerCount : nat) (lane : CCIPLane)
  : branch error * nat * CCIPLane :=
  let destCCIP := Dest lane in
  if (seqNumberBefore <? NextSeqNumToCommit destCCIP)%N then
    (Return_ None, resetTimerCount, lane)
  else
    match ExpectedNextSequenceNumber destCCIP with
    | None => (Continue, resetTimerCount, lane)
    | Some seqNumberAfter =>
        if (seqNumberBefore <? seqNumberAfter)%N then
          (Return_ None, resetTimerCount,
           withDest (setNextSeqNumToCommit seqNumberAfter) lane)
        else (Continue, resetTimerCount, lane)
    end.

Definition SeqNumberExecuted_timer (seqNumberBefore : N) (timeNow : Time.t)
    (reqStat : nat) (now : Time.t) (resetTimerCount : nat) (lane : CCIPLane)
  : branch error * nat * CCIPLane :=
  let destCCIP := Dest lane in
  let failed := onStat reqStat (UpdateState seqNumberBefore Commit
                                  (Time.Since now timeNow) Failure None) lane in
  match IsConnectionRestoredRecently (Common destCCIP) with
  | Some false =>
      if (2 <? resetTimerCount)%nat then
        (Return_ (Some ("possible RPC issue - sequence number is not increased for seq num "
                        +:+ fmtN seqNumberBefore +:+ " " +:+ laneText destCCIP)),
         resetTimerCount, failed)
      else (Continue, S resetTimerCount, lane)
  | _ =>
      (Return_ (Some ("sequence number is not increased for seq num "
                      +:+ fmtN seqNumberBefore +:+ " " +:+ laneText destCCIP)),
       resetTimerCount, failed)
  end.

Definition AssertSeqNumberExecuted (seqNumberBefore : N) (timeout : Time.Duration)
    (timeNow : Time.t) (reqStat : nat)
    (env : list envEvent) (lane : CCIPLane) :=
  selectLoop (SeqNumberExecuted_ticker seqNumberBefore)
             (SeqNumberExecuted_timer seqNumberBefore timeNow reqStat) env 0 lane.

End DestWaits.

(** ** Vocabulary of the properties *)

(** The error taxonomy: a wait that gives up during an outage says
    "possible RPC issue"; any other error of a wait that timed out
    stands for the absence of the event. *)
Inductive errorClass := TransientRPC | ProtocolAbsence.

Fixpoint HasPrefix (s prefix : string) {struct prefix} : bool :=
  match prefix, s with
  | EmptyString, _ => true
  | String.String a prefix', String.String b s' =>
      Ascii.eqb a b && HasPrefix s' prefix'
  | String.String _ _, EmptyString => false
  end.

Definition classify (msg : string) : errorClass :=
  if HasPrefix msg "possible RPC issue" then TransientRPC
  else ProtocolAbsence.

(** Connectivity counts as healthy unless the flag reports an outage:
    the flag is nil or says that the connection was restored. *)
Definition healthy (c : CCIPCommon) : Prop :=
  IsConnectionRestoredRecently c <> Some false.

(** The record [UpdateState] leaves for a failed phase. *)
Definition failure (seqNum : N) (step : Phase) (duration : Time.Duration)
  : PhaseStat :=
  {| phaseSeqNum := seqNum; phase := step; Duration := duration;
     status := Failure; SendTransactionStats := None |}.

(** The latest phase record of the request behind a pointer. *)
Definition recorded (lane : CCIPLane) (reqStat : nat) : option PhaseStat :=
  stat ← Heap lane !! reqStat; last (StatusByPhase stat).

(** How often the timer fires in a schedule, and the schedule left
    after its [n]-th firing. *)
Fixpoint timerFirings (env : list envEvent) : nat :=
  match env with
  | [] => 0
  | TimerC _ :: env' => S (timerFirings env')
  | _ :: env' => timerFirings env'
  end.

Fixpoint afterTimer (n : nat) (env : list envEvent) : list envEvent :=
  match n, env with
  | O, _ => env
  | S _, [] => []
  | S n', TimerC _ :: env' => afterTimer n' env'
  | S _, _ :: env' => afterTimer n env'
  end.

(** A schedule during an outage that never ends: the ticker and the
    timer fire and the chain client reports connection issues, but no
    event is delivered and no connection is restored. *)
Definition outageEvent (ev : envEvent) : bool :=
  match ev with
  | TickerC _ | TimerC _ | ConnectionIssue _ => true
  | _ => false
  end.

Definition outage (env : list envEvent) : bool := forallb outageEvent env.

(** What a wait gives when it gives up during an outage: it has
    returned after [resets] resets of its timer, at the point [rest] of
    the schedule, with an error classified as a possible RPC issue. *)
Definition gaveUp {A : Type} (err : A -> error) (resets : nat)
    (rest : list envEvent) (lane' : CCIPLane)
    (run : waited A * nat * CCIPLane * list envEvent) : Prop :=
  exists a msg,
    run = (Returned a, resets, lane', rest) /\
    err a = Some msg /\ classify msg = TransientRPC.

(** ** The validation of a request group

    [ValidateRequestByTxHash] is a program over the waits: every call
    of a wait (and every read of a request statistic) is a node of the
    program and the program goes on with the answer.  Running the
    program with an implementation of the calls gives the result, the
    final state and the calls made, in order, with their answers. *)

Inductive waitE : Type -> Type :=
| callAssertEventCCIPSendRequested (txHash : string) (timeout : Time.Duration)
    (prevEventAt : Time.t) (reqStat : list nat)
  : waitE (option (list CCIPSendRequested) * Time.t * error)
| callAssertSendRequestedLogFinalized (txHash : string) (prevEventAt : Time.t)
    (reqStats : list nat)
  : waitE (Time.t * N * error)
| callAssertSeqNumberExecuted (seqNumberBefore : N) (timeout : Time.Duration)
    (timeNow : Time.t) (reqStat : nat)
  : waitE error
| callAssertEventReportAccepted (seqNum : N) (timeout : Time.Duration)
    (prevEventAt : Time.t) (reqStat : nat)
  : waitE (option CommitReport * Time.t * error)
| callAssertReportBlessed (seqNum : N) (timeout : Time.Duration)
    (CommitReport : CommitReport) (prevEventAt : Time.t) (reqStat : nat)
  : waitE (Time.t * error)
| callAssertEventExecutionStateChanged (seqNum : N) (timeout : Time.Duration)
    (timeNow : Time.t) (reqStat : nat) (execState : N)
  : waitE (N * error)
| readSeqNum (stat : nat) : waitE N
| callUpdatePhaseStatsForReq (stat : nat) : waitE unit.

Inductive prog (R : Type) : Type :=
| Ret (r : R)
| Vis {X : Type} (e : waitE X) (k : X -> prog R).
Arguments Ret {R} r.
Arguments Vis {R X} e k.

Fixpoint bind {R S : Type} (p : prog R) (f : R -> prog S) : prog S :=
  match p with
  | Ret r => f r
  | Vis e k => Vis e (fun x => bind (k x) f)
  end.

Definition call {X : Type} (e : waitE X) : prog X := Vis e Ret.

Notation "x <- p ;; q" := (bind p (fun x => q))
  (at level 62, p at next level, right associativity, only parsing).


(** A call with its answer, if it has returned. *)
Record called := {
  answerType : Type;
  event : waitE answerType;
  answer : option answerType
}.

(** An implementation of the calls over a state [W]; a call may never
    return. *)
Definition handler (W : Type) : Type :=
  forall X, waitE X -> W -> option X * W.

(** The run of a program: its result unless a call never returned, the
    final state, and the calls made. *)
Fixpoint run {W R : Type} (h : handler W) (p : prog R) (w : W)
  : option R * W * list called :=
  match p with
  | Ret r => (Some r, w, [])
  | Vis e k =>
      match h _ e w with
      | (Some x, w') =>
          let '(r, w'', calls) := run h (k x) w' in
          (r, w'', {| event := e; answer := Some x |} :: calls)
      | (None, w') => (None, w', [{| event := e; answer := None |}])
      end
  end.

(** What a validation gives: the error it returns (nil when every phase
    of every request succeeded), unless [require] stopped the test. *)
Inductive validated :=
| Validated (err : error)
| Stopped.

(** [%w] of an error. *)
Definition fmtErr (err : error) : string :=
  match err with
  | Some msg => msg
  | None => "%!w(<nil>)"
  end.

(** The search for the statistic of a sequence number. *)
Fixpoint findStat (seqNumber : N) (reqStats : list nat) : prog (option nat) :=
  match reqStats with
  | [] => Ret None
  | stat :: rest =>
      n <- call (readSeqNum stat) ;;
      if decide (n = seqNumber) then Ret (Some stat)
      else findStat seqNumber rest
  end.

(** The loop over the messages of the transaction. *)
Fixpoint validateMessages (timeout : Time.Duration)
    (sourceLogFinalizedAt : Time.t) (reqStats : list nat) (execState : N)
    (msgLogs : list CCIPSendRequested) : prog error :=
  match msgLogs with
  | [] => Ret None
  | msgLog :: rest =>
      let seqNumber := SequenceNumber msgLog in
      reqStat <- findStat seqNumber reqStats ;;
      match reqStat with
      | None =>
          Ret (Some ("could not find request stat for seq number "
                     +:+ fmtN seqNumber))
      | Some reqStat =>
          err <- call (callAssertSeqNumberExecuted seqNumber timeout
                         sourceLogFinalizedAt reqStat) ;;
          if decide (err <> None) then
            Ret (Some ("could not validate seq number increase at commit store: "
                       +:+ fmtErr err))
          else
          accepted <-
            call (callAssertEventReportAccepted seqNumber timeout
                    sourceLogFinalizedAt reqStat) ;;
          let '(commitReport, reportAcceptedAt, err) := accepted in
          match (if decide (err <> None) then None else commitReport) with
          | None =>
              Ret (Some ("could not validate ReportAccepted event: "
                         +:+ fmtErr err))
          | Some commitReport =>
              blessed <-
                call (callAssertReportBlessed seqNumber timeout commitReport
                        reportAcceptedAt reqStat) ;;
              let '(reportBlessedAt, err) := blessed in
              if decide (err <> None) then
                Ret (Some ("could not validate ReportBlessed event: "
                           +:+ fmtErr err))
              else
              executed <-
                call (callAssertEventExecutionStateChanged seqNumber timeout
                        reportBlessedAt reqStat execState) ;;
              let '(_, err) := executed in
              if decide (err <> None) then
                Ret (Some ("could not validate ExecutionStateChanged event: "
                           +:+ fmtErr err))
              else validateMessages timeout sourceLogFinalizedAt reqStats
                     execState rest
          end
      end
  end.

(** The deferred loop: the phase statistics of every request are handed
    to the reporter when the function returns. *)
Fixpoint updatePhaseStats (ccipRequests : list CCIPRequest) : prog unit :=
  match ccipRequests with
  | [] => Ret tt
  | req :: rest =>
      _ <- call (callUpdatePhaseStatsForReq (RequestStat_ req)) ;;
      updatePhaseStats rest
  end.

Definition ValidateRequestByTxHash (lane : CCIPLane) (txHash : string)
    (execState : N) : prog validated :=
  let ccipRequests := default [] (SentReqs lane !! txHash) in
  match ccipRequests with
  | [] => Ret Stopped
  | first :: _ =>
      let txConfirmation := txConfirmationTimestamp first in
      let reqStats := RequestStat_ <$> ccipRequests in
      err <-
        (sent <-
           call (callAssertEventCCIPSendRequested txHash (ValidationTimeout lane)
                   txConfirmation reqStats) ;;
         let '(msgLogs, ccipSendReqGenAt, err) := sent in
         match (if decide (err <> None) then None else msgLogs) with
         | None =>
             Ret (Some ("could not validate CCIPSendRequested event: "
                        +:+ fmtErr err))
         | Some msgLogs =>
             finalized <-
               call (callAssertSendRequestedLogFinalized txHash ccipSendReqGenAt
                       reqStats) ;;
             let '(sourceLogFinalizedAt, _, err) := finalized in
             if decide (err <> None) then
               Ret (Some ("could not finalize CCIPSendRequested event: "
                          +:+ fmtErr err))
             else validateMessages (ValidationTimeout lane) sourceLogFinalizedAt
                    reqStats execState msgLogs
         end) ;;
      _ <- updatePhaseStats ccipRequests ;;
      Ret (Validated err)
  end.

(** The waits as the implementation of the calls, along a schedule.  A
    wait that is blocked at the end of the schedule, or hangs, does not
    return.  The reporter behind [UpdatePhaseStatsForReq] keeps its own
    books, outside the lane. *)
Definition returned {A : Type}
    (r : waited A * nat * CCIPLane * list envEvent)
  : option A * (CCIPLane * list envEvent) :=
  match r with
  | (Returned a, _, lane, env) => (Some a, (lane, env))
  | (_, _, lane, env) => (None, (lane, env))
  end.

Definition laneHandler : handler (CCIPLane * list envEvent) :=
  fun X e =>
    match e in waitE X return CCIPLane * list envEvent
                              -> option X * (CCIPLane * list envEvent) with
    | callAssertEventCCIPSendRequested txHash timeout prevEventAt reqStat =>
        fun '(lane, env) =>
          returned (AssertEventCCIPSendRequested txHash timeout prevEventAt
                      reqStat env lane)
    | callAssertSendRequestedLogFinalized txHash prevEventAt reqStats =>
        fun '(lane, env) =>
          let '(r, lane') :=
            AssertSendRequestedLogFinalized txHash prevEventAt reqStats lane in
          (Some r, (lane', env))
    | callAssertSeqNumberExecuted seqNumberBefore timeout timeNow reqStat =>
        fun '(lane, env) =>
          returned (AssertSeqNumberExecuted seqNumberBefore timeout timeNow
                      reqStat env lane)
    | callAssertEventReportAccepted seqNum timeout prevEventAt reqStat =>
        fun '(lane, env) =>
          returned (AssertEventReportAccepted seqNum timeout prevEventAt
                      reqStat env lane)
    | callAssertReportBlessed seqNum timeout CommitReport prevEventAt reqStat =>
        fun '(lane, env) =>
          returned (AssertReportBlessed seqNum timeout CommitReport prevEventAt
                      reqStat env lane)
    | callAssertEventExecutionStateChanged seqNum timeout timeNow reqStat
        execState =>
        fun '(lane, env) =>
          returned (AssertEventExecutionStateChanged seqNum timeout timeNow
                      reqStat execState env lane)
    | readSeqNum stat =>
        fun '(lane, env) =>
          (Some (default 0%N (SeqNum <$> Heap lane !! stat)), (lane, env))
    | callUpdatePhaseStatsForReq stat =>
        fun w => (Some tt, w)
    end.

(** [ValidateRequestByTxHash] on a lane, along a schedule. *)
Definition validate (lane : CCIPLane) (txHash : string) (execState : N)
    (env : list envEvent) :=
  run laneHandler (ValidateRequestByTxHash lane txHash execState) (lane, env).

(** *** The order of the waits *)

Inductive waitKind :=
| waitSend
| waitSourceFinalized
| waitDestSeqIncrement
| waitReportAccepted
| waitReportBlessed
| waitExecutionStateChanged.

(** How a call of a wait ended: it returned no error, it returned an
    error, or it has not returned. *)
Inductive ending := succeeded | failed | unfinished.

Definition endingOf {A : Type} (err : A -> error) (a : option A) : ending :=
  match a with
  | None => unfinished
  | Some a => match err a with
              | None => succeeded
              | Some _ => failed
              end
  end.

(** A wait as a run shows it: its kind, the sequence number it waits
    for (none for the waits on the whole transaction) and its ending. *)
Abbreviation wait := (waitKind * option N * ending)%type.

(** A call seen as a wait; the other calls are no waits. *)
Definition waitOf (c : called) : option wait :=
  match event c in waitE X return option X -> _ with
  | callAssertEventCCIPSendRequested _ _ _ _ =>
      fun a => Some (waitSend, None, endingOf snd a)
  | callAssertSendRequestedLogFinalized _ _ _ =>
      fun a => Some (waitSourceFinalized, None, endingOf snd a)
  | callAssertSeqNumberExecuted seqNum _ _ _ =>
      fun a => Some (waitDestSeqIncrement, Some seqNum, endingOf id a)
  | callAssertEventReportAccepted seqNum _ _ _ =>
      fun a => Some (waitReportAccepted, Some seqNum, endingOf snd a)
  | callAssertReportBlessed seqNum _ _ _ _ =>
      fun a => Some (waitReportBlessed, Some seqNum, endingOf snd a)
  | callAssertEventExecutionStateChanged seqNum _ _ _ _ =>
      fun a => Some (waitExecutionStateChanged, Some seqNum, endingOf snd a)
  | readSeqNum _ => fun _ => None
  | callUpdatePhaseStatsForReq _ => fun _ => None
  end (answer c).

Definition waits (calls : list called) : list wait :=
  omap waitOf calls.

(** The fixed order: the wait [next] may come directly after [prev].
    From the sequence-number increment to the execution state the waits
    are for one request; after the execution state of a request comes
    the next request of the transaction. *)
Definition follows (prev next : waitKind * option N) : bool :=
  match prev.1, next.1 with
  | waitSend, waitSourceFinalized => true
  | waitSourceFinalized, waitDestSeqIncrement => true
  | waitDestSeqIncrement, waitReportAccepted
  | waitReportAccepted, waitReportBlessed
  | waitReportBlessed, waitExecutionStateChanged =>
      bool_decide (prev.2 = next.2)
  | waitExecutionStateChanged, waitDestSeqIncrement => true
  | _, _ => false
  end.

(** A wait may start after [prev]: as the first wait it is the send
    wait; otherwise the wait before it has returned without error and
    it is the next one in the fixed order. *)
Definition mayStart (prev : option wait) (w : wait) : bool :=
  match prev with
  | None => match w.1.1 with waitSend => true | _ => false end
  | Some p =>
      match p.2 with
      | succeeded => follows p.1 w.1
      | _ => false
      end
  end.

(** A run of waits is sequential and in order when every wait of it may
    start after the one before it. *)
Fixpoint inOrder (prev : option wait) (ws : list wait) : bool :=
  match ws with
  | [] => true
  | w :: rest => mayStart prev w && inOrder (Some w) rest
  end.

(** A program keeps the order, after the waits [hist], when every wait
    it calls may start after the waits before it, whatever the calls
    answer, and its result is [good] for the waits made. *)
Inductive Ordered {R : Type}
    (good : list wait -> R -> Prop) : list wait -> prog R -> Prop :=
| Ordered_Ret hist r :
    good hist r -> Ordered good hist (Ret r)
| Ordered_Vis hist X (e : waitE X) (k : X -> prog R) :
    (forall a w, waitOf {| event := e; answer := a |} = Some w ->
                 mayStart (last hist) w = true) ->
    (forall x, Ordered good
                 (hist ++ option_list (waitOf {| event := e; answer := Some x |}))
                 (k x)) ->
    Ordered good hist (Vis e k).

(** The waits of one message when all of them succeed. *)
Definition perMessage (msgLog : CCIPSendRequested) : list wait :=
  let seqNumber := Some (SequenceNumber msgLog) in
  [(waitDestSeqIncrement, seqNumber, succeeded);
   (waitReportAccepted, seqNumber, succeeded);
   (waitReportBlessed, seqNumber, succeeded);
   (waitExecutionStateChanged, seqNumber, succeeded)].

(** The waits of a transaction whose messages are [msgLogs] when every
    one of them succeeds. *)
Definition allWaits (msgLogs : list CCIPSendRequested) : list wait :=
  [(waitSend, None, succeeded); (waitSourceFinalized, None, succeeded)]
  ++ flat_map perMessage msgLogs.

(** What the loop over the messages gives after the waits [hist]. *)
Definition goodMessages (hist : list wait) (msgLogs : list CCIPSendRequested)
    (hist' : list wait) (err : error) : Prop :=
  exists ws,
    hist' = hist ++ ws /\
    (forall x, x ∈ ws -> x.2 = failed -> exists msg, err = Some msg) /\
    (err = None -> ws = flat_map perMessage msgLogs).

(** What the validation gives. *)
Definition goodValidation (hist : list wait) (res : validated) : Prop :=
  (forall x, x ∈ hist -> x.2 = failed -> exists msg, res = Validated (Some msg)) /\
  (res = Validated None -> exists msgLogs, hist = allWaits msgLogs).

(** *** The requests and the messages of the transaction *)

(** A call is about the transaction: the two waits on the whole
    transaction are for its hash and for the statistics of all of its
    requests, and every other call is for the statistic of one of its
    requests. *)
Definition aboutTx (txHash : string) (reqStats : list nat)
    (X : Type) (e : waitE X) : Prop :=
  match e with
  | callAssertEventCCIPSendRequested tx _ _ stats
  | callAssertSendRequestedLogFinalized tx _ stats =>
      tx = txHash /\ stats = reqStats
  | callAssertSeqNumberExecuted _ _ _ stat
  | callAssertEventReportAccepted _ _ _ stat
  | callAssertReportBlessed _ _ _ _ stat
  | callAssertEventExecutionStateChanged _ _ _ stat _
  | readSeqNum stat
  | callUpdatePhaseStatsForReq stat => stat ∈ reqStats
  end.

(** The messages of the transaction as the send wait of a run returned
    them: the answer of the first call, when that is the send wait. *)
Definition sentMessages (calls : list called)
  : option (list CCIPSendRequested) :=
  c ← head calls;
  match event c in waitE X return option X -> _ with
  | callAssertEventCCIPSendRequested _ _ _ _ => fun a => a ≫= (fun a => a.1.1)
  | _ => fun _ => None
  end (answer c).

(** A program makes only calls that are [P], whatever the calls
    answer, and its result is [good] for the calls made and their
    answers. *)
Inductive Traced {R : Type} (P : forall X, waitE X -> Prop)
    (good : list called -> R -> Prop) : list called -> prog R -> Prop :=
| Traced_Ret hist r :
    good hist r -> Traced P good hist (Ret r)
| Traced_Vis hist X (e : waitE X) (k : X -> prog R) :
    P X e ->
    (forall x, Traced P good (hist ++ [{| event := e; answer := Some x |}]) (k x)) ->
    Traced P good hist (Vis e k).

(** ** A lane to run scenarios on *)

Module Scenario.

Definition second (n : Z) : Time.t := (n * Time.Second)%Z.

(** A chain with one block per second, every receipt at hand. *)
Definition client : EVMClient :=
  {| GetChainID := 2%N;
     HeaderByNumber := fun blockNumber => Some (second blockNumber);
     GetTxReceipt := fun _ => Some 21000%N;
     WaitForFinalizedTx := fun _ => inl (2%N, second 2) |}.

Definition common (arm : option N) (flag : option bool) : CCIPCommon :=
  {| ChainClient := client; ARM := arm; IsConnectionRestoredRecently := flag |}.

Definition request : RequestStat :=
  {| ReqNo := 1%Z; SeqNum := 0%N; StatusByPhase := [] |}.

(** A lane with one request, sent by transaction 0xabc and confirmed at
    second 1, empty watcher stores, and the given ARM contract and
    connectivity flags. *)
Definition lane (arm : option N) (flag : option bool) : CCIPLane :=
  {| Source := {| SourceCCIPModule.Common := common None flag;
                  SourceCCIPModule.CCIPSendRequestedWatcher := ∅ |};
     Dest := {| DestCCIPModule.Common := common arm flag;
                DestCCIPModule.SourceChainId := 1%N;
                DestCCIPModule.CommitStore := 77%N;
                DestCCIPModule.ExpectedNextSequenceNumber := Some 1%N;
                DestCCIPModule.ReportAcceptedWatcher := ∅;
                DestCCIPModule.ExecStateChangedWatcher := ∅;
                DestCCIPModule.ReportBlessedWatcher := ∅;
                DestCCIPModule.ReportBlessedBySeqNum := ∅;
                DestCCIPModule.NextSeqNumToCommit := 1%N |};
     SentReqs := {["0xabc" := [{| txConfirmationTimestamp := second 1;
                                  RequestStat_ := 0 |}]]};
     ValidationTimeout := second 300;
     Heap := [request] |}.

(** The send-requested event of sequence number 7 in transaction 0xabc,
    the commit report for the interval [5, 9], its acceptance, its
    blessing and the execution of message 7. *)
Definition sent : CCIPSendRequested :=
  {| SequenceNumber := 7%N;
     sendRaw := {| BlockNumber := 1%N; TxHash := "0xabc" |} |}.

Definition report : CommitReport :=
  {| ReportInterval := {| Min := 5%N; Max := 9%N |}; MerkleRoot := 99%N |}.

Definition accepted (blockNumber : N) : ReportAccepted :=
  {| Report := report;
     acceptedRaw := {| BlockNumber := blockNumber; TxHash := "0xc0" |} |}.

Definition blessed (blockNumber : N) : TaggedRootBlessed :=
  {| TaggedRootCommitStore := 77%N; TaggedRootRoot := 99%N;
     blessedRaw := {| BlockNumber := blockNumber; TxHash := "0xb1" |} |}.

Definition executed (blockNumber : N) : ExecutionStateChanged :=
  {| execSequenceNumber := 7%N; State := 2%N; ReturnData := "";
     execRaw := {| BlockNumber := blockNumber; TxHash := "0xe2" |} |}.

(** The lane after the goroutines beside the waits have handled the
    given events. *)
Definition after (env : list envEvent) (l : CCIPLane) : CCIPLane :=
  foldl (fun l ev => default l (background ev l)) l env.

End Scenario.

(** *** A transaction with two requests *)

Module TwoRequests.

(** The lane of the scenarios with two requests sent by transaction
    0xabc, and the events of the messages 7 and 8. *)
Definition lane (arm : option N) (flag : option bool) : CCIPLane :=
  {| Source := Source (Scenario.lane arm flag);
     Dest := Dest (Scenario.lane arm flag);
     SentReqs := {["0xabc" := [{| txConfirmationTimestamp := Scenario.second 1;
                                  RequestStat_ := 0 |};
                               {| txConfirmationTimestamp := Scenario.second 1;
                                  RequestStat_ := 1 |}]]};
     ValidationTimeout := Scenario.second 300;
     Heap := [Scenario.request;
              {| ReqNo := 2%Z; SeqNum := 0%N; StatusByPhase := [] |}] |}.

Definition sent (seqNum : N) : CCIPSendRequested :=
  {| SequenceNumber := seqNum;
     sendRaw := {| BlockNumber := 1%N; TxHash := "0xabc" |} |}.

Definition executed (seqNum blockNumber : N) : ExecutionStateChanged :=
  {| execSequenceNumber := seqNum; State := 2%N; ReturnData := "";
     execRaw := {| BlockNumber := blockNumber; TxHash := "0xe2" |} |}.

(** Both messages are sent, the report for [5, 9] is accepted and
    blessed, and message 7 is executed. *)
Definition first_executed : list envEvent :=
  [Delivered (sendReqEvent (sent 7)); Delivered (sendReqEvent (sent 8));
   TickerC (Scenario.second 2);
   CommitStoreMoved (Some 10%N); TickerC (Scenario.second 3);
   Delivered (reportAcceptedEvent (Scenario.accepted 5));
   TickerC (Scenario.second 6);
   Delivered (reportBlessedEvent (Scenario.blessed 6));
   TickerC (Scenario.second 7);
   Delivered (execStateChangedEvent (executed 7 8));
   TickerC (Scenario.second 9);
   TickerC (Scenario.second 10); TickerC (Scenario.second 11);
   TickerC (Scenario.second 12)].

End TwoRequests.

(** ** Vocabulary of the further properties *)

(** What the items of a sheet hold in all in one of their amount
    fields, nil counting as zero. *)
Definition total (f : Balance.BalanceItem -> BigInt.t) (b : Balance.BalanceSheet)
  : Z :=
  map_fold (fun _ item acc => (Balance.amount (f item) + acc)%Z) 0%Z
    (Balance.Items b).

(** The latest record of a request agrees with what a wait returned: it
    is a record of the phase of the wait, and its status is a success
    exactly when the wait returned no error. *)
Definition agrees (lane : CCIPLane) (reqStat : nat) (step : Phase)
    (err : error) : Prop :=
  exists st,
    recorded lane reqStat = Some st /\ phase st = step /\
    (status st = Success <-> err = None).

(** ** Hexadecimal text ([encoding/hex]) *)

Module hex.

Inductive error :=
| InvalidByteError (c : Ascii.ascii)
| ErrLength.

Definition hextable : string := "0123456789abcdef".

(** [hextable[n]] for a half byte [n]. *)
Definition digit (n : N) : Ascii.ascii :=
  default Ascii.zero (String.get (N.to_nat n) hextable).

(** [uint8(n)]. *)
Definition uint8 (n : N) : Byte.byte :=
  default Byte.x00 (Byte.of_N (n mod 256)).

Fixpoint EncodeToString (src : list Byte.byte) : string :=
  match src with
  | [] => ""
  | v :: rest =>
      String.String (digit (N.shiftr (Byte.to_N v) 4))
        (String.String (digit (N.land (Byte.to_N v) 15)) (EncodeToString rest))
  end.

(** The value of a hexadecimal digit, of either case; [None] for any
    other character. *)
Definition fromHexChar (c : Ascii.ascii) : option N :=
  let n := Ascii.N_of_ascii c in
  if ((48 <=? n) && (n <=? 57))%N then Some (n - 48)%N
  else if ((97 <=? n) && (n <=? 102))%N then Some (n - 97 + 10)%N
  else if ((65 <=? n) && (n <=? 70))%N then Some (n - 65 + 10)%N
  else None.

(** [DecodeString]: the bytes decoded before the first error, and the
    error.  A character that is no digit is reported before an odd
    length. *)
Fixpoint DecodeString (s : string) : list Byte.byte * option error :=
  match s with
  | "" => ([], None)
  | String.String p "" =>
      ([], Some (match fromHexChar p with
                 | Some _ => ErrLength
                 | None => InvalidByteError p
                 end))
  | String.String p (String.String q rest) =>
      match fromHexChar p, fromHexChar q with
      | None, _ => ([], Some (InvalidByteError p))
      | Some _, None => ([], Some (InvalidByteError q))
      | Some a, Some b =>
          let '(bytes, err) := DecodeString rest in
          (uint8 (N.lor (N.shiftl a 4) b) :: bytes, err)
      end
  end.

End hex.

(** ** The package [model]: JSON forms of roots and big integers *)

Module model.

Inductive error :=
| Errorf (msg : string)
| hexError (e : hex.error).

(** A double quote. *)
Definition quote : string := String.String (Ascii.ascii_of_N 34) "".

(** [s[lo:hi]] *)
Definition slice (lo hi : nat) (s : string) : string :=
  String.substring lo (hi - lo) s.

(** [copy(dst, src)] on the array behind [dst]. *)
Definition copy (dst src : list Byte.byte) : list Byte.byte :=
  take (length dst) src ++ drop (length src) dst.

(** A [Bytes32] holds 32 bytes. *)
Definition Bytes32 := list Byte.byte.

Definition Bytes32_String (m : Bytes32) : string :=
  "0x" +:+ hex.EncodeToString m.

Definition Bytes32_MarshalJSON (m : Bytes32) : string * option error :=
  (quote +:+ Bytes32_String m +:+ quote, None).

Definition Bytes32_UnmarshalJSON (data : string) (m : Bytes32)
  : option error * Bytes32 :=
  let v := data in
  if (String.length v <? 4)%nat then
    (Some (Errorf ("invalid MerkleRoot: " +:+ v)), m)
  else
    let inner := slice 1 (String.length v - 1) v in
    let '(b, err) := hex.DecodeString (slice 2 (String.length inner) inner) in
    match err with
    | Some e => (Some (hexError e), m)
    | None => (None, copy m b)
    end.

(** [BigInt] embeds a pointer to a big integer. *)
Definition BigInt_MarshalJSON (b : BigInt.t) : string * option error :=
  (quote +:+ BigInt.String b +:+ quote, None).

Definition BigInt_UnmarshalJSON (p : string) (b : BigInt.t)
  : option error * BigInt.t :=
  if String.eqb p "null" then (None, b)
  else if (String.length p <? 2)%nat then
    (Some (Errorf ("invalid BigInt: " +:+ p)), b)
  else
    let p := slice 1 (String.length p - 1) p in
    match BigInt.SetString p with
    | None => (Some (Errorf ("not a valid big integer: " +:+ p)), b)
    | Some z => (None, Some z)
    end.

Definition BigInt_IsEmpty (b : BigInt.t) : bool :=
  match b with
  | None => true
  | Some _ => false
  end.

End model.

(** ** Looking through a store *)

(** A value held in a [sync.Map] of the lane, by its dynamic type. *)
Inductive any :=
| anySendRequested (events : list CCIPSendRequested)
| anyReportAccepted (e : ReportAccepted)
| anyLog (vLogs : Log)
| anyExecutionStateChanged (e : ExecutionStateChanged).

(** [m.Range(f)]: [f] is called on the entries, in the order in which
    the map yields them, until it answers false; [S] holds the
    variables that [f] captures. *)
Fixpoint Range {K S : Type} (f : K -> any -> S -> bool * S)
    (entries : list (K * any)) (s : S) : S :=
  match entries with
  | [] => s
  | (key, value) :: rest =>
      let '(continue, s) := f key value s in
      if continue then Range f rest s else s
  end.

(** The error of a watch that nothing arrives, by what its message
    prints: the kind of the event and the two instants, in the order of
    the format. *)
Record eventDetected := {
  detectedKind : string;
  detectedAt : Time.t;
  detectedAfter : Time.t
}.

Section Looking.

(** The order in which a [sync.Map] yields its entries. *)
Context (entriesOfN : forall V : Type, gmap N V -> list (N * V)).
Context (entriesOfTx : forall V : Type, gmap string V -> list (string * V)).

Import DestCCIPModule.

(** The callback of the two watches on the destination chain. *)
Definition eventAfter (destCCIP : t) (lastSeenTimestamp : Time.t)
    (key : N) (value : any) (eventFoundAfterCursing : option Time.t)
  : bool * option Time.t :=
  match value with
  | anyExecutionStateChanged e =>
      let vLogs := execRaw e in
      match HeaderByNumber (ChainClient (Common destCCIP))
              (int64 (BlockNumber vLogs)) with
      | None => (true, eventFoundAfterCursing)
      | Some timestamp =>
          if (lastSeenTimestamp <? timestamp)%Z then (false, Some timestamp)
          else (true, eventFoundAfterCursing)
      end
  | _ => (true, eventFoundAfterCursing)
  end.

Definition NoReportAccepted_ticker (lastSeenTimestamp : Time.t)
    (now : Time.t) (loc : unit) (lane : CCIPLane)
  : branch (option eventDetected) * unit * CCIPLane :=
  let destCCIP := Dest lane in
  let eventFoundAfterCursing :=
    Range (eventAfter destCCIP lastSeenTimestamp)
      (prod_map id anyReportAccepted
         <$> entriesOfN _ (ReportAcceptedWatcher destCCIP)) None in
  match eventFoundAfterCursing with
  | Some timestamp =>
      (Return_ (Some {| detectedKind := "CommitReportAccepted";
                        detectedAt := lastSeenTimestamp;
                        detectedAfter := timestamp |}), loc, lane)
  | None => (Continue, loc, lane)
  end.

(** The branch of the context: the time range has passed. *)
Definition nothingDetected (now : Time.t) (loc : unit) (lane : CCIPLane)
  : branch (option eventDetected) * unit * CCIPLane :=
  (Return_ None, loc, lane).

Definition AssertNoReportAcceptedEventReceived (timeRange : Time.Duration)
    (lastSeenTimestamp : Time.t) (env : list envEvent) (lane : CCIPLane) :=
  selectLoop (NoReportAccepted_ticker lastSeenTimestamp) nothingDetected
    env tt lane.

Definition NoExecutionStateChanged_ticker (lastSeenTimestamp : Time.t)
    (now : Time.t) (loc : unit) (lane : CCIPLane)
  : branch (option eventDetected) * unit * CCIPLane :=
  let destCCIP := Dest lane in
  let eventFoundAfterCursing :=
    Range (eventAfter destCCIP lastSeenTimestamp)
      (prod_map id anyExecutionStateChanged
         <$> entriesOfN _ (ExecStateChangedWatcher destCCIP)) None in
  match eventFoundAfterCursing with
  | Some timestamp =>
      (Return_ (Some {| detectedKind := "ExecutionStateChanged";
                        detectedAt := lastSeenTimestamp;
                        detectedAfter := timestamp |}), loc, lane)
  | None => (Continue, loc, lane)
  end.

Definition AssertNoExecutionStateChangedEventReceived (timeRange : Time.Duration)
    (lastSeenTimestamp : Time.t) (env : list envEvent) (lane : CCIPLane) :=
  selectLoop (NoExecutionStateChanged_ticker lastSeenTimestamp) nothingDetected
    env tt lane.

(** [-d] of a duration: the smallest duration is its own negation. *)
Definition negDuration (d : Time.Duration) : Time.Duration :=
  if (d =? Time.minDuration)%Z then d else (- d)%Z.

(** The loop over the events of one transaction in
    [IsRequestTriggeredWithinTimeframe]. *)
Fixpoint triggeredAfter (client : EVMClient) (lastSeenTimestamp : Time.t)
    (sendRequestedEvents : list CCIPSendRequested) (foundAt : option Time.t)
  : bool * option Time.t :=
  match sendRequestedEvents with
  | [] => (true, foundAt)
  | sendRequestedEvent :: rest =>
      let raw := sendRaw sendRequestedEvent in
      match HeaderByNumber client (int64 (BlockNumber raw)) with
      | Some timestamp =>
          if (lastSeenTimestamp <? timestamp)%Z then (false, Some timestamp)
          else triggeredAfter client lastSeenTimestamp rest foundAt
      | None => triggeredAfter client lastSeenTimestamp rest foundAt
      end
  end.

Definition IsRequestTriggeredWithinTimeframe (timeframe : option Time.Duration)
    (now : Time.t) (sourceCCIP : SourceCCIPModule.t) : option Time.t :=
  match timeframe with
  | None => None
  | Some timeframe =>
      let lastSeenTimestamp := (now + negDuration timeframe)%Z in
      Range (fun (_ : string) value foundAt =>
               match value with
               | anySendRequested sendRequestedEvents =>
                   triggeredAfter
                     (ChainClient (SourceCCIPModule.Common sourceCCIP))
                     lastSeenTimestamp sendRequestedEvents foundAt
               | _ => (true, foundAt)
               end)
        (prod_map id anySendRequested
           <$> entriesOfTx _ (SourceCCIPModule.CCIPSendRequestedWatcher sourceCCIP))
        None
  end.

End Looking.

(** An execution seen after an instant: the store holds an event whose
    block has a header with a later timestamp. *)
Definition executedAfter (lane : CCIPLane) (lastSeenTimestamp timestamp : Time.t)
  : Prop :=
  exists seqNum e,
    DestCCIPModule.ExecStateChangedWatcher (Dest lane) !! seqNum = Some e /\
    HeaderByNumber (ChainClient (DestCCIPModule.Common (Dest lane)))
      (int64 (BlockNumber (execRaw e))) = Some timestamp /\
    (lastSeenTimestamp < timestamp)%Z.

(** A request seen after an instant. *)
Definition requestedAfter (sourceCCIP : SourceCCIPModule.t)
    (lastSeenTimestamp timestamp : Time.t) : Prop :=
  exists txHash events e,
    SourceCCIPModule.CCIPSendRequestedWatcher sourceCCIP !! txHash = Some events /\
    e ∈ events /\
    HeaderByNumber (ChainClient (SourceCCIPModule.Common sourceCCIP))
      (int64 (BlockNumber (sendRaw e))) = Some timestamp /\
    (lastSeenTimestamp < timestamp)%Z.

(** ** Resubscription after an outage

    Each subscription goroutine of [StartEventWatchers] holds its
    subscription and the flag [resubscribed], and looks at the
    connectivity flag of its chain when no event came for a second.
    The variable [err] is one variable of [StartEventWatchers]: the
    function and its four goroutines all assign it. *)

Inductive clientCall :=
| Unsubscribe (sub : nat)
| Watch (start : option N).

Record subscriber := {
  sub : option nat;
  resubscribed : bool
}.

(** One such look: the two reads of the connectivity flag; what the
    chain client gives when asked to watch again (the subscription, nil
    or not, and the error, nil or not, which the goroutine assigns to
    its [sub] and to the shared [err]); and what another goroutine or
    the function assigns to [err], if any does, between that assignment
    and the test [err != nil] of the goroutine. *)
Record look := {
  firstRead : option bool;
  secondRead : option bool;
  watchGives : option nat * bool;
  assignedMeanwhile : option bool
}.

(** What the test [err != nil] after the call reads. *)
Definition errTested (l : look) : bool :=
  default (watchGives l).2 (assignedMeanwhile l).

(** The branch [case <-time.After(1 * time.Second)], with the calls it
    makes on the chain client. *)
Definition StartEventWatchers_tick (startBlock : N) (l : look) (s : subscriber)
  : subscriber * list clientCall :=
  let resubscribed :=
    match firstRead l with
    | Some false => false
    | _ => resubscribed s
    end in
  match secondRead l with
  | Some true =>
      if resubscribed then ({| sub := sub s; resubscribed := resubscribed |}, [])
      else
        let unsubscribed := match sub s with
                            | Some held => [Unsubscribe held]
                            | None => []
                            end in
        ({| sub := (watchGives l).1; resubscribed := negb (errTested l) |},
         unsubscribed ++ [Watch (Some startBlock)])
  | _ => ({| sub := sub s; resubscribed := resubscribed |}, [])
  end.

(** The looks of a goroutine, one after the other. *)
Fixpoint StartEventWatchers_ticks (startBlock : N) (looks : list look)
    (s : subscriber) : subscriber * list clientCall :=
  match looks with
  | [] => (s, [])
  | l :: rest =>
      let '(s, calls) := StartEventWatchers_tick startBlock l s in
      let '(s, later) := StartEventWatchers_ticks startBlock rest s in
      (s, calls ++ later)
  end.

(** During a look the connection counts as restored. *)
Definition restored (l : look) : Prop :=
  firstRead l = Some true /\ secondRead l = Some true.

Definition isWatch (c : clientCall) : bool :=
  match c with
  | Watch _ => true
  | Unsubscribe _ => false
  end.

(** ** Booking the transfers of a lane

    [UpdateBalance] of the source and of the destination module enter
    what the requests of a run move into the balance sheet.  [Hex] is
    the text of an address; [Mul] is the product of the package
    [bigmath], which is not among the sources: the bookkeeping is
    given for any such function. *)

Module Funds.

(** [BalFunc]: the balance of an account, or an error. *)
Definition BalFunc := string -> BigInt.t * error.

(** The balance that the getter returns; the failure it reports when
    the call fails goes to the test and is no part of what the getter
    of a [BalanceItem] gives. *)
Definition GetterForLinkToken (getBalance : BalFunc) (addr : string)
  : Balance.EthAddress -> BigInt.t :=
  fun _ => (getBalance addr).1.

(** A token contract: [Address()] and [BalanceOf]. *)
Record Token := {
  tokenAddress : string;
  BalanceOf : BalFunc
}.

(** Any other contract: [Address()] and [EthAddress]. *)
Record Contract := {
  contractAddress : string;
  EthAddress : Balance.EthAddress
}.

Record CCIPCommon := {
  BridgeTokens : list Token;
  BridgeTokenPools : list Contract;
  FeeToken : Token;
  Router : Contract;
  PriceRegistry : Contract
}.

Record SourceCCIPModule := {
  sourceCommon : CCIPCommon;
  Sender : Balance.EthAddress;
  TransferAmount : list BigInt.t;
  OnRamp : Contract
}.

Record DestCCIPModule := {
  destCommon : CCIPCommon;
  ReceiverDapp : Contract;
  OffRamp : Contract
}.

(** [token := BridgeTokens[0]; if i < len(BridgeTokens) { token =
    BridgeTokens[i] }]; [None] when the first index expression
    panics. *)
Definition tokenFor (common : CCIPCommon) (i : nat) : option Token :=
  token ← BridgeTokens common !! 0;
  Some (if decide (i < length (BridgeTokens common))
        then default token (BridgeTokens common !! i)
        else token).

(** The pool and the index of its token, chosen in the same way. *)
Definition poolFor (common : CCIPCommon) (i : nat) : option (Contract * nat) :=
  pool ← BridgeTokenPools common !! 0;
  Some (if decide (i < length (BridgeTokenPools common))
        then (default pool (BridgeTokenPools common !! i), i)
        else (pool, 0)).

Section Booking.

Context (Hex : Balance.EthAddress -> string).
Context (Mul : BigInt.t -> BigInt.t -> BigInt.t).

(** [common.HexToAddress("0x0").String()] *)
Definition zeroAddress : string := Hex 0%N.

(** The two loops of the source module over its transfer amounts, from
    index [i] on. *)
Fixpoint sourceSenderLoop (sourceCCIP : SourceCCIPModule) (noOfReq : Z)
    (i : nat) (amounts : list BigInt.t) (balances : Balance.BalanceSheet)
  : option Balance.BalanceSheet :=
  match amounts with
  | [] => Some balances
  | amount :: rest =>
      token ← tokenFor (sourceCommon sourceCCIP) i;
      let name := "BridgeToken-" +:+ tokenAddress token +:+ "-Address-"
                    +:+ Hex (Sender sourceCCIP) in
      sourceSenderLoop sourceCCIP noOfReq (S i) rest
        (Balance.Update name
           {| Balance.Address := Sender sourceCCIP;
              Balance.Getter := GetterForLinkToken (BalanceOf token)
                                  (Hex (Sender sourceCCIP));
              Balance.PreviousBalance := None;
              Balance.AmtToAdd := None;
              Balance.AmtToSub := Mul (Some noOfReq) amount |} balances)
  end.

Fixpoint sourcePoolLoop (sourceCCIP : SourceCCIPModule) (noOfReq : Z)
    (i : nat) (amounts : list BigInt.t) (balances : Balance.BalanceSheet)
  : option Balance.BalanceSheet :=
  match amounts with
  | [] => Some balances
  | amount :: rest =>
      '(pool, index) ← poolFor (sourceCommon sourceCCIP) i;
      token ← BridgeTokens (sourceCommon sourceCCIP) !! index;
      let name := "BridgeToken-" +:+ tokenAddress token +:+ "-TokenPool-"
                    +:+ contractAddress pool in
      sourcePoolLoop sourceCCIP noOfReq (S i) rest
        (Balance.Update name
           {| Balance.Address := EthAddress pool;
              Balance.Getter := GetterForLinkToken (BalanceOf token)
                                  (contractAddress pool);
              Balance.PreviousBalance := None;
              Balance.AmtToAdd := Mul (Some noOfReq) amount;
              Balance.AmtToSub := None |} balances)
  end.

Definition SourceCCIPModule_UpdateBalance (sourceCCIP : SourceCCIPModule)
    (noOfReq : Z) (totalFee : BigInt.t) (balances : Balance.BalanceSheet)
  : option Balance.BalanceSheet :=
  let common := sourceCommon sourceCCIP in
  balances ←
    (if decide (0 < length (TransferAmount sourceCCIP)) then
       balances ← sourceSenderLoop sourceCCIP noOfReq 0
                    (TransferAmount sourceCCIP) balances;
       sourcePoolLoop sourceCCIP noOfReq 0 (TransferAmount sourceCCIP) balances
     else Some balances);
  if decide (tokenAddress (FeeToken common) <> zeroAddress) then
    let name := "FeeToken-" +:+ tokenAddress (FeeToken common) +:+ "-Address-"
                  +:+ Hex (Sender sourceCCIP) in
    let balances :=
      Balance.Update name
        {| Balance.Address := Sender sourceCCIP;
           Balance.Getter := GetterForLinkToken (BalanceOf (FeeToken common))
                               (Hex (Sender sourceCCIP));
           Balance.PreviousBalance := None;
           Balance.AmtToAdd := None;
           Balance.AmtToSub := totalFee |} balances in
    let name := "FeeToken-" +:+ tokenAddress (FeeToken common) +:+ "-Prices-"
                  +:+ contractAddress (PriceRegistry common) in
    let balances :=
      Balance.Update name
        {| Balance.Address := EthAddress (PriceRegistry common);
           Balance.Getter := GetterForLinkToken (BalanceOf (FeeToken common))
                               (contractAddress (PriceRegistry common));
           Balance.PreviousBalance := None;
           Balance.AmtToAdd := None;
           Balance.AmtToSub := None |} balances in
    let name := "FeeToken-" +:+ tokenAddress (FeeToken common) +:+ "-Router-"
                  +:+ contractAddress (Router common) in
    let balances :=
      Balance.Update name
        {| Balance.Address := EthAddress (Router common);
           Balance.Getter := GetterForLinkToken (BalanceOf (FeeToken common))
                               (contractAddress (Router common));
           Balance.PreviousBalance := None;
           Balance.AmtToAdd := None;
           Balance.AmtToSub := None |} balances in
    let name := "FeeToken-" +:+ tokenAddress (FeeToken common) +:+ "-OnRamp-"
                  +:+ contractAddress (OnRamp sourceCCIP) in
    Some (Balance.Update name
            {| Balance.Address := EthAddress (OnRamp sourceCCIP);
               Balance.Getter := GetterForLinkToken (BalanceOf (FeeToken common))
                                   (contractAddress (OnRamp sourceCCIP));
               Balance.PreviousBalance := None;
               Balance.AmtToAdd := totalFee;
               Balance.AmtToSub := None |} balances)
  else Some balances.

(** The two loops of the destination module. *)
Fixpoint destReceiverLoop (destCCIP : DestCCIPModule) (noOfReq : Z)
    (i : nat) (transferAmount : list BigInt.t) (balance : Balance.BalanceSheet)
  : option Balance.BalanceSheet :=
  match transferAmount with
  | [] => Some balance
  | amount :: rest =>
      token ← tokenFor (destCommon destCCIP) i;
      let name := "BridgeToken-" +:+ tokenAddress token +:+ "-Address-"
                    +:+ contractAddress (ReceiverDapp destCCIP) in
      destReceiverLoop destCCIP noOfReq (S i) rest
        (Balance.Update name
           {| Balance.Address := EthAddress (ReceiverDapp destCCIP);
              Balance.Getter := GetterForLinkToken (BalanceOf token)
                                  (contractAddress (ReceiverDapp destCCIP));
              Balance.PreviousBalance := None;
              Balance.AmtToAdd := Mul (Some noOfReq) amount;
              Balance.AmtToSub := None |} balance)
  end.

Fixpoint destPoolLoop (destCCIP : DestCCIPModule) (noOfReq : Z)
    (i : nat) (transferAmount : list BigInt.t) (balance : Balance.BalanceSheet)
  : option Balance.BalanceSheet :=
  match transferAmount with
  | [] => Some balance
  | amount :: rest =>
      '(pool, index) ← poolFor (destCommon destCCIP) i;
      token ← BridgeTokens (destCommon destCCIP) !! index;
      let name := "BridgeToken-" +:+ tokenAddress token +:+ "-TokenPool-"
                    +:+ contractAddress pool in
      destPoolLoop destCCIP noOfReq (S i) rest
        (Balance.Update name
           {| Balance.Address := EthAddress pool;
              Balance.Getter := GetterForLinkToken (BalanceOf token)
                                  (contractAddress pool);
              Balance.PreviousBalance := None;
              Balance.AmtToAdd := None;
              Balance.AmtToSub := Mul (Some noOfReq) amount |} balance)
  end.

Definition DestCCIPModule_UpdateBalance (destCCIP : DestCCIPModule)
    (transferAmount : list BigInt.t) (noOfReq : Z)
    (balance : Balance.BalanceSheet) : option Balance.BalanceSheet :=
  let common := destCommon destCCIP in
  balance ←
    (if decide (0 < length transferAmount) then
       balance ← destReceiverLoop destCCIP noOfReq 0 transferAmount balance;
       destPoolLoop destCCIP noOfReq 0 transferAmount balance
     else Some balance);
  if decide (tokenAddress (FeeToken common) <> zeroAddress) then
    let name := "FeeToken-" +:+ tokenAddress (FeeToken common) +:+ "-OffRamp-"
                  +:+ contractAddress (OffRamp destCCIP) in
    let balance :=
      Balance.Update name
        {| Balance.Address := EthAddress (OffRamp destCCIP);
           Balance.Getter := GetterForLinkToken (BalanceOf (FeeToken common))
                               (contractAddress (OffRamp destCCIP));
           Balance.PreviousBalance := None;
           Balance.AmtToAdd := None;
           Balance.AmtToSub := None |} balance in
    let name := "FeeToken-" +:+ tokenAddress (FeeToken common) +:+ "-Address-"
                  +:+ contractAddress (ReceiverDapp destCCIP) in
    Some (Balance.Update name
            {| Balance.Address := EthAddress (ReceiverDapp destCCIP);
               Balance.Getter := GetterForLinkToken (BalanceOf (FeeToken common))
                                   (contractAddress (ReceiverDapp destCCIP));
               Balance.PreviousBalance := None;
               Balance.AmtToAdd := None;
               Balance.AmtToSub := None |} balance)
  else Some balance.

(** What the transfers of a run move in all: the sum of the products
    of the number of requests and the amounts, nil counting as zero. *)
Definition moved (noOfReq : Z) (amounts : list BigInt.t) : Z :=
  foldr (fun amount acc => (Balance.amount (Mul (Some noOfReq) amount) + acc)%Z)
    0%Z amounts.

(** The fee booked: none when the fee token is the zero address. *)
Definition feeBooked (common : CCIPCommon) (totalFee : BigInt.t) : Z :=
  if decide (tokenAddress (FeeToken common) <> zeroAddress)
  then Balance.amount totalFee else 0%Z.

End Booking.

(** The module can book transfers: it has a pool, and a token for
    every pool. *)
Definition funded (common : CCIPCommon) : Prop :=
  0 < length (BridgeTokenPools common) <= length (BridgeTokens common).

End Funds.

(** From the sheet [b] to the sheet [b'] the amounts to add have grown
    by [added] in all and the amounts to subtract by [subtracted]; the
    baselines are the same. *)
Definition booked (b b' : Balance.BalanceSheet) (added subtracted : Z) : Prop :=
  total Balance.AmtToAdd b' = (total Balance.AmtToAdd b + added)%Z /\
  total Balance.AmtToSub b' = (total Balance.AmtToSub b + subtracted)%Z /\
  Balance.PrevBalance b' = Balance.PrevBalance b.

(* ------------------------------------------------------------------ *)
(** * Properties *)

(** ** The balance ledger *)

Section BalanceFacts.
Import Balance.

Lemma recordOne_lookup key value prev k :
  recordOne key value prev !! k =
    match prev !! k with
    | Some v => Some v
    | None => if decide (key = k) then Some value else None
    end.
Proof.
  unfold recordOne. destruct (prev !! key) as [v|] eqn:Hkey.
  - destruct (prev !! k) eqn:Hk; [done|].
    case_decide; [congruence | done].
  - rewrite lookup_insert. case_decide; subst.
    + by rewrite Hkey.
    + by destruct (prev !! k).
Qed.

Lemma RecordBalance_lookup bal b key :
  PrevBalance (RecordBalance bal b) !! key =
    match PrevBalance b !! key with
    | Some v => Some v
    | None => bal !! key
    end.
Proof.
  unfold RecordBalance; simpl.
  apply (map_fold_weak_ind (λ acc m, acc !! key =
    match PrevBalance b !! key with Some v => Some v | None => m !! key end)).
  - rewrite lookup_empty. by destruct (PrevBalance b !! key).
  - intros i x m r Hi IH. rewrite recordOne_lookup, IH.
    destruct (PrevBalance b !! key) as [v|]; [done|].
    rewrite lookup_insert. case_decide; subst.
    + by rewrite Hi.
    + by destruct (m !! key).
Qed.

(** C9. [RecordBalance] keeps every entry [PrevBalance] already has
    (the first recorded value wins, also when the snapshot holds the
    same key), adds the snapshot's value for every key [PrevBalance]
    lacks, and leaves [Items] alone; recording the same key twice on a
    fresh sheet keeps the first value. *)
Theorem RecordBalance_first_writer_wins :
  (forall bal b key,
     PrevBalance (RecordBalance bal b) !! key =
       match PrevBalance b !! key with
       | Some first => Some first
       | None => bal !! key
       end) /\
  (forall bal b, Items (RecordBalance bal b) = Items b) /\
  (forall key first second,
     PrevBalance (RecordBalance {[key := second]}
                    (RecordBalance {[key := first]} NewBalanceSheet)) !! key
     = Some first).
Proof.
  split; [apply RecordBalance_lookup|]. split; [done|].
  intros key v1 v2. rewrite !RecordBalance_lookup. simpl.
  by rewrite lookup_empty, lookup_singleton_eq.
Qed.

Lemma Update_lookup key item b :
  Items (Update key item b) !! key =
    Some (match Items b !! key with
          | None => item
          | Some prev =>
              {| Address := Address item;
                 Getter := Getter item;
                 PreviousBalance := None;
                 AmtToAdd := Some (amount (AmtToAdd prev) + amount (AmtToAdd item))%Z;
                 AmtToSub := Some (amount (AmtToSub prev) + amount (AmtToSub item))%Z |}
          end).
Proof.
  unfold Update. destruct (Items b !! key) as [prev|]; simpl;
    rewrite lookup_insert_eq; [|done].
  do 2 f_equal; unfold amount;
    [destruct (AmtToAdd prev), (AmtToAdd item) | destruct (AmtToSub prev), (AmtToSub item)];
    simpl; f_equal; lia.
Qed.

Lemma Update_lookup_ne key item b k :
  key ≠ k -> Items (Update key item b) !! k = Items b !! k.
Proof.
  intros Hne. unfold Update.
  destruct (Items b !! key); simpl; by rewrite lookup_insert_ne.
Qed.

Lemma Update_PrevBalance key item b :
  PrevBalance (Update key item b) = PrevBalance b.
Proof. unfold Update. by destruct (Items b !! key). Qed.

(** C8. Two updates of one key merge additively: the entry then holds,
    as [AmtToAdd] and as [AmtToSub], what the key held before (nothing
    for a key not yet in [Items]) plus the amounts of both updates, a
    nil amount counting as zero; [PrevBalance] is left alone.  On a fresh sheet, add=10 followed by add=5 gives add=15. *)
Theorem Update_merges_additively :
  (forall key i1 i2 b,
     exists merged,
       Items (Update key i2 (Update key i1 b)) !! key = Some merged /\
       AmtToAdd merged = Some (pending AmtToAdd b key
                               + amount (AmtToAdd i1) + amount (AmtToAdd i2))%Z /\
       AmtToSub merged = Some (pending AmtToSub b key
                               + amount (AmtToSub i1) + amount (AmtToSub i2))%Z) /\
  (forall key i1 i2 b,
     PrevBalance (Update key i2 (Update key i1 b)) = PrevBalance b) /\
  (forall key addr getter,
     let add n := {| Address := addr; Getter := getter;
                     PreviousBalance := None;
                     AmtToAdd := Some n; AmtToSub := None |} in
     AmtToAdd <$> Items (Update key (add 5%Z)
                           (Update key (add 10%Z) NewBalanceSheet)) !! key
     = Some (Some 15%Z)).
Proof.
  repeat split.
  - intros key i1 i2 b. eexists. split; [apply Update_lookup|].
    rewrite Update_lookup. unfold pending.
    destruct (Items b !! key) as [prev|]; simpl; split; f_equal;
      unfold amount; simpl; lia.
  - intros key i1 i2 b. by rewrite !Update_PrevBalance.
  - intros key addr getter add. rewrite !Update_lookup. done.
Qed.

Lemma parse_String z :
  NilZero.int_of_string (NilZero.string_of_int (Z.to_int z)) = Some (Z.to_int z).
Proof.
  apply NilZero.isi; destruct z; simpl; try discriminate;
    intros [= H]; by apply Unsigned.to_uint_nonnil in H.
Qed.

Lemma String_inj x y : BigInt.String x = BigInt.String y -> x = y.
Proof.
  destruct x as [a|], y as [c|]; simpl; intros H; [|exfalso..|done].
  - apply (f_equal NilZero.int_of_string) in H.
    rewrite !parse_String in H. f_equal. apply DecimalZ.to_int_inj. congruence.
  - apply (f_equal NilZero.int_of_string) in H.
    by rewrite parse_String in H.
  - apply (f_equal NilZero.int_of_string) in H.
    by rewrite parse_String in H.
Qed.

Lemma expected_captured prev item :
  expected (Some prev) item = Some (Some (expectedBalance prev item)).
Proof.
  unfold expected, expectedBalance, amount.
  destruct (AmtToAdd item), (AmtToSub item); simpl; do 2 f_equal; lia.
Qed.

Lemma verifyLoop_captured b items acc t :
  (forall key item, (key, item) ∈ items ->
     exists prev, PrevBalance b !! key = Some (Some prev)) ->
  verifyLoop b items acc t = Return (acc ++ map (assertionFor b) items) t.
Proof.
  revert acc. induction items as [|[key item] rest IH]; intros acc Hall;
    cbn [verifyLoop map].
  - by rewrite app_nil_r.
  - destruct (Hall key item) as [prev Hprev]; [left|].
    rewrite Hprev, expected_captured, IH.
    + rewrite <- app_assoc. cbn [app]. unfold assertionFor at 2.
      cbn [fst snd]. by rewrite Hprev.
    + intros k it Hin. apply (Hall k it). by right.
Qed.

Lemma verifyLoop_missing b items acc t :
  (forall key, PrevBalance b !! key ≠ Some None) ->
  (exists key item, (key, item) ∈ items /\ PrevBalance b !! key = None) ->
  exists key item, (key, item) ∈ items /\ PrevBalance b !! key = None /\
    verifyLoop b items acc t
    = FailNow (Errorf t ("previous balance is not captured for " +:+ key)).
Proof.
  intros Hnil. revert acc.
  induction items as [|[key item] rest IH]; intros acc (k & it & Hin & Hk).
  - by apply elem_of_nil in Hin.
  - cbn [verifyLoop]. destruct (PrevBalance b !! key) as [[prev|]|] eqn:Hprev.
    + rewrite expected_captured.
      apply elem_of_cons in Hin as [[= -> ->]|Hin]; [congruence|].
      match goal with |- context [verifyLoop b rest ?acc' t] =>
        destruct (IH acc') as (k' & it' & Hin' & Hk' & Hrun); [eauto|] end.
      exists k', it'. split; [by right|]. split; [done|]. exact Hrun.
    + by destruct (Hnil key).
    + exists key, item. split; [left|]. done.
Qed.

Lemma assertBalance_captured b key item prev t :
  PrevBalance b !! key = Some (Some prev) ->
  assertBalance (assertionFor b (key, item)) t
  = Return tt (t ++ balanceFailures b (key, item)).
Proof.
  intros Hprev. unfold assertBalance, balanceFailures, assertionFor, Errorf.
  cbn [Within Expected Name baGetter baAddress fst snd String.eqb].
  rewrite Hprev. cbn [default amount id].
  destruct (Getter item (Address item)) as [a|] eqn:Hget.
  - destruct (String.eqb_spec
      (BigInt.String (Some (expectedBalance prev item)))
      (BigInt.String (Some a))) as [Heq|Hne].
    + apply String_inj in Heq. rewrite decide_True by congruence.
      by rewrite !app_nil_r.
    + rewrite decide_False by congruence. done.
  - rewrite decide_False by done.
    destruct (String.eqb_spec
      (BigInt.String (Some (expectedBalance prev item)))
      (BigInt.String None)) as [Heq|Hne].
    + by apply String_inj in Heq.
    + by rewrite <- app_assoc.
Qed.

Lemma AssertBalances_exact b items t :
  (forall key item, (key, item) ∈ items ->
     exists prev, PrevBalance b !! key = Some (Some prev)) ->
  AssertBalances (map (assertionFor b) items) t
  = Return tt (t ++ flat_map (balanceFailures b) items).
Proof.
  revert t. induction items as [|[key item] rest IH]; intros t Hall;
    cbn [AssertBalances map flat_map].
  - by rewrite app_nil_r.
  - destruct (Hall key item) as [prev Hprev]; [left|].
    rewrite (assertBalance_captured _ _ _ _ _ Hprev).
    rewrite IH by (intros k it Hin; apply (Hall k it); by right).
    by rewrite <- app_assoc.
Qed.

Lemma balanceFailures_nil b key item prev :
  PrevBalance b !! key = Some (Some prev) ->
  balanceFailures b (key, item) = [] <->
  Getter item (Address item) = Some (expectedBalance prev item).
Proof.
  intros Hprev. unfold balanceFailures. rewrite Hprev.
  destruct (Getter item (Address item)) as [a|]; case_decide; simpl;
    split; congruence.
Qed.

Lemma flat_map_nil {A B} (f : A -> list B) (l : list A) :
  flat_map f l = [] <-> forall x, x ∈ l -> f x = [].
Proof.
  induction l as [|x l IH]; simpl.
  - split; [intros _ x Hx; by apply elem_of_nil in Hx | done].
  - split.
    + intros [Hx Hl]%app_eq_nil y [->|Hy]%elem_of_cons; [done|].
      by apply IH.
    + intros H. rewrite (H x) by left. simpl. apply IH.
      intros y Hy. apply H. by right.
Qed.

(** C6. Whatever order the iteration over [Items] takes, and provided
    every recorded previous balance is a number: when every key of
    [Items] has an entry in [PrevBalance], [Verify] returns having
    reported exactly the failures of comparing, for every key, the
    balance its getter returns with [prev + AmtToAdd - AmtToSub] (nil
    amounts counting as zero), so that the test passes these assertions
    if and only if every balance equals its expected value; when some
    key of [Items] has no entry in [PrevBalance], [Verify] stops the
    test at once with "previous balance is not captured" and no balance
    assertion has been made. *)
Theorem Verify_checks_expected_balance (b : BalanceSheet)
    (order : list (string * BalanceItem)) (t : T) :
  order ≡ₚ map_to_list (Items b) ->
  (forall key, PrevBalance b !! key ≠ Some None) ->
  ((forall key, is_Some (Items b !! key) -> is_Some (PrevBalance b !! key)) ->
     VerifyIn order b t
     = Return tt (t ++ flat_map (balanceFailures b) order) /\
     (flat_map (balanceFailures b) order = [] <->
      forall key item prev,
        Items b !! key = Some item ->
        PrevBalance b !! key = Some (Some prev) ->
        Getter item (Address item) = Some (expectedBalance prev item))) /\
  ((exists key, is_Some (Items b !! key) /\ PrevBalance b !! key = None) ->
     exists key,
       is_Some (Items b !! key) /\ PrevBalance b !! key = None /\
       VerifyIn order b t
       = FailNow (Errorf t ("previous balance is not captured for " +:+ key))).
Proof.
  intros Hperm Hnil.
  assert (Hin : forall key item,
             (key, item) ∈ order <-> Items b !! key = Some item).
  { intros key item. by rewrite Hperm, elem_of_map_to_list. }
  split.
  - intros Hcaptured.
    assert (Hall : forall key item, (key, item) ∈ order ->
               exists prev, PrevBalance b !! key = Some (Some prev)).
    { intros key item Hk%Hin.
      destruct (Hcaptured key) as [[prev|] Hprev]; [by eexists|by eexists|].
      by destruct (Hnil key). }
    split.
    + unfold VerifyIn. rewrite verifyLoop_captured by done.
      cbn [app]. by apply AssertBalances_exact.
    + rewrite flat_map_nil. split.
      * intros Hnone key item prev Hitem Hprev.
        apply (balanceFailures_nil b key item prev Hprev).
        apply Hnone. by apply Hin.
      * intros Heq [key item] Hentry.
        destruct (Hall key item Hentry) as [prev Hprev].
        apply (balanceFailures_nil b key item prev Hprev).
        apply (Heq key item prev); [by apply Hin | done].
  - intros (key & [item Hitem] & Hmissing).
    destruct (verifyLoop_missing b order [] t Hnil)
      as (k & it & Hk & Hnone & Hrun).
    { exists key, item. split; [by apply Hin | done]. }
    exists k. split; [exists it; by apply Hin|]. split; [done|].
    unfold VerifyIn. by rewrite Hrun.
Qed.

(** The end-to-end scenario: baseline 100 for address A and asset X, one
    request with [AmtToSub] = 30; [Verify] passes when the balance is
    70 and fails when it is anything else. *)
Lemma Verify_checks_expected_balance_witness :
  let sheet actual :=
    Update "X-A" {| Address := 10%N; Getter := fun _ => Some actual;
                    PreviousBalance := None;
                    AmtToAdd := None; AmtToSub := Some 30%Z |}
      (RecordBalance {["X-A" := Some 100%Z]} NewBalanceSheet) in
  Verify (sheet 70%Z) [] = Return tt [] /\
  Verify (sheet 100%Z) [] = Return tt ["wrong balance for X-A got 100 want 70"].
Proof.
  intros sheet.
  assert (Hnil : forall actual key,
            PrevBalance (sheet actual) !! key ≠ Some None).
  { intros actual key. unfold sheet.
    rewrite Update_PrevBalance, RecordBalance_lookup. cbn. rewrite lookup_empty.
    destruct (decide (key = "X-A")) as [->|Hne].
    - by rewrite lookup_singleton_eq.
    - by rewrite lookup_singleton_ne. }
  assert (Hcap : forall actual key,
            is_Some (Items (sheet actual) !! key) ->
            is_Some (PrevBalance (sheet actual) !! key)).
  { intros actual key. unfold sheet.
    destruct (decide (key = "X-A")) as [->|Hne].
    - intros _. by eexists.
    - rewrite Update_lookup_ne by done. cbn. rewrite lookup_empty.
      by intros [? ?]. }
  split.
  - destruct (Verify_checks_expected_balance (sheet 70%Z)
                (map_to_list (Items (sheet 70%Z))) [] (reflexivity _)
                (Hnil 70%Z)) as [Hok _].
    destruct (Hok (Hcap 70%Z)) as [Hrun _]. exact Hrun.
  - destruct (Verify_checks_expected_balance (sheet 100%Z)
                (map_to_list (Items (sheet 100%Z))) [] (reflexivity _)
                (Hnil 100%Z)) as [Hok _].
    destruct (Hok (Hcap 100%Z)) as [Hrun _]. exact Hrun.
Defined.

End BalanceFacts.

(** ** The phase waits *)

Section WaitFacts.
Import DestCCIPModule.

Lemma classify_rpc rest :
  classify ("possible RPC issue" +:+ rest) = TransientRPC.
Proof. reflexivity. Qed.

Lemma recorded_onStat_eq lane r st seqNum step d state tx :
  Heap lane !! r = Some st ->
  recorded (onStat r (UpdateState seqNum step d state tx) lane) r
  = Some {| phaseSeqNum := seqNum; phase := step; Duration := d;
            status := state; SendTransactionStats := tx |}.
Proof.
  intros Hr. unfold recorded, onStat. cbn [Heap].
  rewrite list_lookup_alter_eq, Hr. cbn. by rewrite last_snoc.
Qed.

Lemma recorded_onStat_ne lane r r' f :
  r' <> r -> recorded (onStat r' f lane) r = recorded lane r.
Proof.
  intros Hne. unfold recorded, onStat. cbn [Heap].
  by rewrite list_lookup_alter_ne.
Qed.

Lemma is_Some_onStat lane r r' f :
  is_Some (Heap (onStat r' f lane) !! r) <-> is_Some (Heap lane !! r).
Proof.
  unfold onStat. cbn [Heap]. destruct (decide (r' = r)) as [->|Hne].
  - rewrite list_lookup_alter_eq. by rewrite fmap_is_Some.
  - by rewrite list_lookup_alter_ne.
Qed.

(** Every request of a group is marked by the loop that fails them
    all. *)
Lemma recorded_failAll (reqStat : list nat) lane r seqNum step d :
  r ∈ reqStat -> is_Some (Heap lane !! r) ->
  recorded (foldl (fun lane stat =>
                     onStat stat (UpdateState seqNum step d Failure None) lane)
              lane reqStat) r
  = Some (failure seqNum step d).
Proof.
  revert lane. induction reqStat as [|r' rest IH] using rev_ind; intros lane Hin Hr.
  - by apply elem_of_nil in Hin.
  - rewrite foldl_app. cbn [foldl].
    destruct (decide (r' = r)) as [->|Hne].
    + assert (Hr' : is_Some (Heap (foldl (fun lane stat =>
                onStat stat (UpdateState seqNum step d Failure None) lane)
                lane rest) !! r)).
      { clear IH Hin. revert lane Hr.
        induction rest as [|x rest IH]; intros lane Hr; [done|].
        cbn [foldl]. apply IH. by apply is_Some_onStat. }
      destruct Hr' as [st Hst]. by rewrite (recorded_onStat_eq _ _ st).
    + rewrite recorded_onStat_ne by done. apply IH; [|done].
      apply elem_of_app in Hin as [Hin|Hin]; [done|].
      apply list_elem_of_singleton in Hin. congruence.
Qed.

(** C10. With a nil ARM contract [AssertReportBlessed] returns at once
    the timestamp of the preceding phase and no error; it takes nothing
    from the schedule (neither ticker nor timer runs), and the lane,
    with all watcher stores and all request statistics, is the one it
    was given. *)
Theorem AssertReportBlessed_skipped_for_mock_ARM
    (seqNum : N) (timeout : Time.Duration) (report : CommitReport)
    (prevEventAt : Time.t) (reqStat : nat)
    (env : list envEvent) (lane : CCIPLane) :
  ARM (Common (Dest lane)) = None ->
  AssertReportBlessed seqNum timeout report prevEventAt reqStat env lane
  = (Returned (prevEventAt, None), 0, lane, env).
Proof. intros Hmock. unfold AssertReportBlessed. by rewrite Hmock. Qed.

Lemma AssertReportBlessed_skipped_for_mock_ARM_witness :
  let env := [Delivered (reportBlessedEvent (Scenario.blessed 4));
              TickerC (Scenario.second 5); TimerC (Scenario.second 300)] in
  ARM (Common (Dest (Scenario.lane None None))) = None /\
  AssertReportBlessed 7 (Scenario.second 300) Scenario.report
    (Scenario.second 3) 0 env (Scenario.lane None None)
  = (Returned (Scenario.second 3, None), 0, Scenario.lane None None, env).
Proof.
  intros env. split; [reflexivity|].
  apply (AssertReportBlessed_skipped_for_mock_ARM 7 (Scenario.second 300)
           Scenario.report (Scenario.second 3) 0 env (Scenario.lane None None)).
  reflexivity.
Defined.

(** C7. At whatever point of a wait the timer fires (whatever the
    count of earlier resets), if the flag of the chain does not report
    an outage (it is nil or says restored), the wait returns at that
    firing: the count of resets is unchanged (the timer is not reset and
    nothing is retried), the failure of the phase is recorded for the
    request, and the error is the one for an absent event, not the
    "possible RPC issue" one. *)
Theorem timeout_while_healthy_fails_at_once
    (now : Time.t) (resets : nat) (env : list envEvent) (lane : CCIPLane) :
  (healthy (SourceCCIPModule.Common (Source lane)) ->
   forall txHash prevEventAt reqStat,
   exists msg lane',
     selectLoop (CCIPSendRequested_ticker txHash prevEventAt reqStat)
                (CCIPSendRequested_timer txHash prevEventAt reqStat)
                (TimerC now :: env) resets lane
     = (Returned (None, now, Some msg), resets, lane', env) /\
     msg = "CCIPSendRequested event is not found for tx " +:+ txHash /\
     classify msg = ProtocolAbsence /\
     forall r, r ∈ reqStat -> is_Some (Heap lane !! r) ->
       recorded lane' r
       = Some (failure 0 CCIPSendRe (Time.Since now prevEventAt))) /\
  (healthy (Common (Dest lane)) ->
   forall seqNum prevEventAt reqStat,
   is_Some (Heap lane !! reqStat) ->
   (exists msg lane',
      selectLoop (SeqNumberExecuted_ticker seqNum)
                 (SeqNumberExecuted_timer seqNum prevEventAt reqStat)
                 (TimerC now :: env) resets lane
      = (Returned (Some msg), resets, lane', env) /\
      classify msg = ProtocolAbsence /\
      recorded lane' reqStat
      = Some (failure seqNum Commit (Time.Since now prevEventAt))) /\
   (exists msg lane',
      selectLoop (ReportAccepted_ticker seqNum prevEventAt reqStat)
                 (ReportAccepted_timer seqNum prevEventAt reqStat)
                 (TimerC now :: env) resets lane
      = (Returned (None, now, Some msg), resets, lane', env) /\
      msg = "ReportAccepted is not found for seq num " +:+ fmtN seqNum
            +:+ " " +:+ laneText (Dest lane) /\
      classify msg = ProtocolAbsence /\
      recorded lane' reqStat
      = Some (failure seqNum Commit (Time.Since now prevEventAt))) /\
   (forall report,
    exists msg lane',
      selectLoop (ReportBlessed_ticker seqNum report prevEventAt reqStat)
                 (ReportBlessed_timer seqNum report prevEventAt reqStat)
                 (TimerC now :: env) resets lane
      = (Returned (now, Some msg), resets, lane', env) /\
      msg = "ReportBlessed is not found for interval "
            +:+ intervalText (ReportInterval report)
            +:+ " " +:+ laneText (Dest lane) /\
      classify msg = ProtocolAbsence /\
      recorded lane' reqStat
      = Some (failure seqNum ReportBlessed (Time.Since now prevEventAt))) /\
   (forall execState,
    exists msg lane',
      selectLoop (ExecutionStateChanged_ticker seqNum prevEventAt reqStat execState)
                 (ExecutionStateChanged_timer seqNum prevEventAt reqStat)
                 (TimerC now :: env) resets lane
      = (Returned (0%N, Some msg), resets, lane', env) /\
      msg = "ExecutionStateChanged event not found for seq num "
            +:+ fmtN seqNum +:+ " for " +:+ laneText (Dest lane) /\
      classify msg = ProtocolAbsence /\
      recorded lane' reqStat
      = Some (failure seqNum ExecStateChanged (Time.Since now prevEventAt)))).
Proof.
  split.
  - intros Hhealthy txHash prevEventAt reqStat. unfold healthy in Hhealthy.
    cbn [selectLoop]. unfold CCIPSendRequested_timer.
    destruct (IsConnectionRestoredRecently _) as [[|]|]; [|done|];
      (do 2 eexists; split; [reflexivity|]; split; [reflexivity|];
       split; [reflexivity|]; intros r Hr Hsome; by apply recorded_failAll).
  - intros Hhealthy seqNum prevEventAt reqStat [st Hst].
    unfold healthy in Hhealthy. cbn [selectLoop].
    unfold SeqNumberExecuted_timer, ReportAccepted_timer,
      ReportBlessed_timer, ExecutionStateChanged_timer.
    destruct (IsConnectionRestoredRecently _) as [[|]|]; [|done|];
      (repeat split; intros;
       do 2 eexists; (split; [reflexivity|]); repeat (split; [reflexivity|]);
       by apply (recorded_onStat_eq _ _ st)).
Qed.

Lemma timeout_while_healthy_fails_at_once_witness :
  let lane := Scenario.lane (Some 88%N) (Some true) in
  healthy (Common (Dest lane)) /\
  is_Some (Heap lane !! 0) /\
  exists msg lane',
    AssertEventReportAccepted 7 (Scenario.second 300) (Scenario.second 2) 0
      [TimerC (Scenario.second 302); TickerC (Scenario.second 303)] lane
    = (Returned (None, Scenario.second 302, Some msg), 0, lane',
       [TickerC (Scenario.second 303)]) /\
    msg = "ReportAccepted is not found for seq num 7 lane 1-->2" /\
    classify msg = ProtocolAbsence /\
    recorded lane' 0
    = Some (failure 7 Commit (Scenario.second 300)).
Proof.
  intros lane.
  assert (Hhealthy : healthy (Common (Dest lane))) by (intros Hdown; discriminate Hdown).
  assert (Hstat : is_Some (Heap lane !! 0)) by (eexists; reflexivity).
  split; [exact Hhealthy|]. split; [exact Hstat|].
  destruct (timeout_while_healthy_fails_at_once (Scenario.second 302) 0
              [TickerC (Scenario.second 303)] lane) as [_ Hdest].
  destruct (Hdest Hhealthy 7%N (Scenario.second 2) 0 Hstat)
    as (_ & (msg & lane' & Hrun & Hmsg & Hclass & Hrec) & _).
  exists msg, lane'. repeat split; [exact Hrun | rewrite Hmsg; reflexivity
                                    | exact Hclass | exact Hrec].
Defined.

Lemma afterTimer_0 env : afterTimer 0 env = env.
Proof. by destruct env. Qed.

(** A wait whose ticker never finds its event, in an outage: the
    first three firings of the timer reset it, the fourth returns. *)
Lemma selectLoop_outage {A : Type}
    (onTicker onTimer : Time.t -> nat -> CCIPLane -> branch A * nat * CCIPLane)
    (I : CCIPLane -> Prop) (Q : A -> CCIPLane -> Prop) :
  (forall ev lane lane', I lane -> outageEvent ev = true ->
     background ev lane = Some lane' -> I lane') ->
  (forall now n lane, I lane -> onTicker now n lane = (Continue, n, lane)) ->
  (forall now n lane, I lane -> n <= 2 ->
     onTimer now n lane = (Continue, S n, lane)) ->
  (forall now n lane, I lane -> 2 < n ->
     exists a lane', onTimer now n lane = (Return_ a, n, lane') /\ Q a lane') ->
  forall env n lane,
    outage env = true -> I lane -> n <= 3 -> 4 - n <= timerFirings env ->
    exists a lane',
      selectLoop onTicker onTimer env n lane
      = (Returned a, 3, lane', afterTimer (4 - n) env) /\ Q a lane'.
Proof.
  intros Hbg Htick Hreset Hfail.
  induction env as [|ev env IH]; intros n lane Hout HI Hn Hfirings.
  - cbn in Hfirings. lia.
  - cbn [outage forallb] in Hout. apply andb_prop in Hout as [Hev Hout].
    destruct ev as [now|now| | |side|]; try discriminate Hev.
    + cbn [selectLoop]. rewrite Htick by done.
      replace (afterTimer (4 - n) (TickerC now :: env))
        with (afterTimer (4 - n) env)
        by (destruct (4 - n) eqn:E; [lia | done]).
      by apply IH.
    + cbn [selectLoop]. destruct (decide (n <= 2)) as [Hle|Hgt].
      * rewrite Hreset by done.
        destruct (IH (S n) lane) as (a & lane' & Hrun & HQ); try done; try lia.
        { cbn in Hfirings. lia. }
        exists a, lane'. split; [|done]. rewrite Hrun.
        replace (4 - n) with (S (4 - S n)) by lia. done.
      * assert (n = 3) as -> by lia.
        destruct (Hfail now 3 lane) as (a & lane' & Hrun & HQ); [done|lia|].
        rewrite Hrun. exists a, lane'. replace (4 - 3) with 1 by lia.
        cbn [afterTimer]. by rewrite afterTimer_0.
    + cbn [selectLoop].
      assert (Hsome : exists lane', background (ConnectionIssue side) lane = Some lane')
        by (destruct side; by eexists).
      destruct Hsome as [lane' Hlane']. rewrite Hlane'.
      replace (afterTimer (4 - n) (ConnectionIssue side :: env))
        with (afterTimer (4 - n) env)
        by (destruct (4 - n) eqn:E; [lia | done]).
      apply IH; try done. by apply (Hbg (ConnectionIssue side) lane).
Qed.

Lemma background_outage ev lane lane' :
  outageEvent ev = true -> background ev lane = Some lane' ->
  Heap lane' = Heap lane /\
  SourceCCIPModule.CCIPSendRequestedWatcher (Source lane')
  = SourceCCIPModule.CCIPSendRequestedWatcher (Source lane) /\
  ReportAcceptedWatcher (Dest lane') = ReportAcceptedWatcher (Dest lane) /\
  ExecStateChangedWatcher (Dest lane') = ExecStateChangedWatcher (Dest lane) /\
  ReportBlessedWatcher (Dest lane') = ReportBlessedWatcher (Dest lane) /\
  ReportBlessedBySeqNum (Dest lane') = ReportBlessedBySeqNum (Dest lane) /\
  NextSeqNumToCommit (Dest lane') = NextSeqNumToCommit (Dest lane) /\
  ExpectedNextSequenceNumber (Dest lane')
  = ExpectedNextSequenceNumber (Dest lane) /\
  (IsConnectionRestoredRecently (SourceCCIPModule.Common (Source lane)) = Some false ->
   IsConnectionRestoredRecently (SourceCCIPModule.Common (Source lane')) = Some false) /\
  (IsConnectionRestoredRecently (Common (Dest lane)) = Some false ->
   IsConnectionRestoredRecently (Common (Dest lane')) = Some false).
Proof.
  intros Hev Hbg.
  destruct ev as [now|now| | |side|]; try discriminate Hev;
    cbn in Hbg; [..|destruct side]; injection Hbg as <-; cbn;
    repeat split; try done;
    unfold PollRPCConnection; by destruct (IsConnectionRestoredRecently _).
Qed.

(** The obligations of [selectLoop_outage] for the waits of the
    destination chain. *)
Local Ltac outage_preserved :=
  let Hev := fresh in let Hbg := fresh in
  intros ev l l' ? Hev Hbg;
  destruct (background_outage ev l l' Hev Hbg)
    as (? & ? & ? & ? & ? & ? & ? & ? & ? & ?);
  intuition congruence.

Local Ltac timer_resets Hf :=
  rewrite Hf;
  match goal with
  | Hn : ?n <= 2 |- _ => by rewrite (proj2 (Nat.ltb_ge 2 n)) by lia
  end.

Local Ltac timer_gives_up Hf st :=
  rewrite Hf;
  match goal with
  | Hn : 2 < ?n |- _ => rewrite (proj2 (Nat.ltb_lt 2 n)) by lia
  end;
  do 2 eexists; split; [reflexivity|]; split;
  [eexists; split; reflexivity
  |eexists; by apply (recorded_onStat_eq _ _ st)].

(** C2. In an outage that never ends (the ticker and the timer fire, the
    chain client reports connection issues, nothing is delivered and
    nothing restored), with the flag of the chain saying "not restored"
    and the awaited event absent, every wait with a timer resets its
    timer at its first three firings and returns at the fourth: the
    count of resets is then 3, the error is a "possible RPC issue" and
    the failure of the phase is recorded for the request.  A schedule
    in which the timer fires four times is enough for the wait to
    return. *)
Theorem wait_gives_up_after_three_resets
    (env : list envEvent) (lane : CCIPLane) :
  outage env = true ->
  4 <= timerFirings env ->
  (IsConnectionRestoredRecently (SourceCCIPModule.Common (Source lane))
   = Some false ->
   forall txHash timeout prevEventAt reqStat,
   SourceCCIPModule.CCIPSendRequestedWatcher (Source lane) !! txHash = None ->
   exists lane',
     gaveUp snd 3 (afterTimer 4 env) lane'
       (AssertEventCCIPSendRequested txHash timeout prevEventAt reqStat env lane) /\
     forall r, r ∈ reqStat -> is_Some (Heap lane !! r) ->
       exists d, recorded lane' r = Some (failure 0 CCIPSendRe d)) /\
  (IsConnectionRestoredRecently (Common (Dest lane)) = Some false ->
   forall seqNum timeout prevEventAt reqStat,
   is_Some (Heap lane !! reqStat) ->
   ((NextSeqNumToCommit (Dest lane) <= seqNum)%N ->
    (forall next, ExpectedNextSequenceNumber (Dest lane) = Some next ->
                  (next <= seqNum)%N) ->
    exists lane' d,
      gaveUp id 3 (afterTimer 4 env) lane'
        (AssertSeqNumberExecuted seqNum timeout prevEventAt reqStat env lane) /\
      recorded lane' reqStat = Some (failure seqNum Commit d)) /\
   (ReportAcceptedWatcher (Dest lane) !! seqNum = None ->
    exists lane' d,
      gaveUp snd 3 (afterTimer 4 env) lane'
        (AssertEventReportAccepted seqNum timeout prevEventAt reqStat env lane) /\
      recorded lane' reqStat = Some (failure seqNum Commit d)) /\
   (forall report,
    is_Some (ARM (Common (Dest lane))) ->
    ReportBlessedWatcher (Dest lane) !! MerkleRoot report = None ->
    ReportBlessedBySeqNum (Dest lane) !! seqNum = None ->
    exists lane' d,
      gaveUp snd 3 (afterTimer 4 env) lane'
        (AssertReportBlessed seqNum timeout report prevEventAt reqStat env lane) /\
      recorded lane' reqStat = Some (failure seqNum ReportBlessed d)) /\
   (forall execState,
    ExecStateChangedWatcher (Dest lane) !! seqNum = None ->
    exists lane' d,
      gaveUp snd 3 (afterTimer 4 env) lane'
        (AssertEventExecutionStateChanged seqNum timeout prevEventAt reqStat
           execState env lane) /\
      recorded lane' reqStat = Some (failure seqNum ExecStateChanged d))).
Proof.
  intros Hout Hfirings. split.
  - intros Hflag txHash timeout prevEventAt reqStat Habsent.
    opose proof* (selectLoop_outage
      (CCIPSendRequested_ticker txHash prevEventAt reqStat)
      (CCIPSendRequested_timer txHash prevEventAt reqStat)
      (fun l => IsConnectionRestoredRecently
                  (SourceCCIPModule.Common (Source l)) = Some false /\
                SourceCCIPModule.CCIPSendRequestedWatcher (Source l) !! txHash = None /\
                Heap l = Heap lane)
      (fun a l' => (exists msg, a.2 = Some msg /\ classify msg = TransientRPC) /\
                   forall r, r ∈ reqStat -> is_Some (Heap lane !! r) ->
                     exists d, recorded l' r = Some (failure 0 CCIPSendRe d))
      _ _ _ _ env 0 lane Hout)
      as (a & lane' & Hrun & (msg & Hmsg & Hclass) & Hrec).
    + intros ev l l' (Hf & Habs & Hheap) Hev Hbg.
      destruct (background_outage ev l l' Hev Hbg)
        as (? & ? & ? & ? & ? & ? & ? & ? & ? & ?).
      split; [auto|]. split; congruence.
    + intros now n l (Hf & Habs & Hheap).
      unfold CCIPSendRequested_ticker. by rewrite Habs.
    + intros now n l (Hf & Habs & Hheap) Hn.
      unfold CCIPSendRequested_timer. rewrite Hf.
      by rewrite (proj2 (Nat.ltb_ge 2 n)) by lia.
    + intros now n l (Hf & Habs & Hheap) Hn.
      unfold CCIPSendRequested_timer. rewrite Hf.
      rewrite (proj2 (Nat.ltb_lt 2 n)) by lia.
      do 2 eexists. split; [reflexivity|]. split.
      * eexists. split; [reflexivity|]. reflexivity.
      * intros r Hr Hsome. eexists. apply recorded_failAll; [done|].
        by rewrite Hheap.
    + done.
    + lia.
    + exact Hfirings.
    + exists lane'. split; [|done]. exists a, msg. done.
  - intros Hflag seqNum timeout prevEventAt reqStat [st Hst].
    repeat split.
    + intros Hnext Hexpected.
      opose proof* (selectLoop_outage
        (SeqNumberExecuted_ticker seqNum)
        (SeqNumberExecuted_timer seqNum prevEventAt reqStat)
        (fun l => IsConnectionRestoredRecently (Common (Dest l)) = Some false /\
                  Heap l = Heap lane /\
                  NextSeqNumToCommit (Dest l) = NextSeqNumToCommit (Dest lane) /\
                  ExpectedNextSequenceNumber (Dest l)
                  = ExpectedNextSequenceNumber (Dest lane))
        (fun a l' => (exists msg, a = Some msg /\ classify msg = TransientRPC) /\
                     exists d, recorded l' reqStat = Some (failure seqNum Commit d))
        _ _ _ _ env 0 lane Hout)
        as (a & lane' & Hrun & (msg & Hmsg & Hclass) & d & Hrec);
        [outage_preserved| | | |done|lia|exact Hfirings|].
      * intros now n l (Hf & Hheap & Hn & He).
        unfold SeqNumberExecuted_ticker. rewrite Hn, He.
        rewrite (proj2 (N.ltb_ge _ _) Hnext).
        destruct (ExpectedNextSequenceNumber (Dest lane)) as [next|]; [|done].
        by rewrite (proj2 (N.ltb_ge _ _) (Hexpected next eq_refl)).
      * intros now n l (Hf & Hheap & _) Hn.
        unfold SeqNumberExecuted_timer. timer_resets Hf.
      * intros now n l (Hf & Hheap & _) Hn. rewrite <- Hheap in Hst.
        unfold SeqNumberExecuted_timer. timer_gives_up Hf st.
      * exists lane', d. split; [|done]. by exists a, msg.
    + intros Habsent.
      opose proof* (selectLoop_outage
        (ReportAccepted_ticker seqNum prevEventAt reqStat)
        (ReportAccepted_timer seqNum prevEventAt reqStat)
        (fun l => IsConnectionRestoredRecently (Common (Dest l)) = Some false /\
                  Heap l = Heap lane /\
                  ReportAcceptedWatcher (Dest l) !! seqNum = None)
        (fun a l' => (exists msg, a.2 = Some msg /\ classify msg = TransientRPC) /\
                     exists d, recorded l' reqStat = Some (failure seqNum Commit d))
        _ _ _ _ env 0 lane Hout)
        as (a & lane' & Hrun & (msg & Hmsg & Hclass) & d & Hrec);
        [outage_preserved| | | |done|lia|exact Hfirings|].
      * intros now n l (Hf & Hheap & Habs).
        unfold ReportAccepted_ticker. by rewrite Habs.
      * intros now n l (Hf & Hheap & _) Hn.
        unfold ReportAccepted_timer. timer_resets Hf.
      * intros now n l (Hf & Hheap & _) Hn. rewrite <- Hheap in Hst.
        unfold ReportAccepted_timer. timer_gives_up Hf st.
      * exists lane', d. split; [|done]. by exists a, msg.
    + intros report [arm Harm] Hroot Hseq.
      opose proof* (selectLoop_outage
        (ReportBlessed_ticker seqNum report prevEventAt reqStat)
        (ReportBlessed_timer seqNum report prevEventAt reqStat)
        (fun l => IsConnectionRestoredRecently (Common (Dest l)) = Some false /\
                  Heap l = Heap lane /\
                  ReportBlessedWatcher (Dest l) !! MerkleRoot report = None /\
                  ReportBlessedBySeqNum (Dest l) !! seqNum = None)
        (fun a l' => (exists msg, a.2 = Some msg /\ classify msg = TransientRPC) /\
                     exists d, recorded l' reqStat
                               = Some (failure seqNum ReportBlessed d))
        _ _ _ _ env 0 lane Hout)
        as (a & lane' & Hrun & (msg & Hmsg & Hclass) & d & Hrec);
        [outage_preserved| | | |done|lia|exact Hfirings|].
      * intros now n l (Hf & Hheap & Hr & Hs).
        unfold ReportBlessed_ticker. by rewrite Hr, Hs.
      * intros now n l (Hf & Hheap & _) Hn.
        unfold ReportBlessed_timer. timer_resets Hf.
      * intros now n l (Hf & Hheap & _) Hn. rewrite <- Hheap in Hst.
        unfold ReportBlessed_timer. timer_gives_up Hf st.
      * exists lane', d. split; [|done]. exists a, msg.
        unfold AssertReportBlessed. by rewrite Harm.
    + intros execState Habsent.
      opose proof* (selectLoop_outage
        (ExecutionStateChanged_ticker seqNum prevEventAt reqStat execState)
        (ExecutionStateChanged_timer seqNum prevEventAt reqStat)
        (fun l => IsConnectionRestoredRecently (Common (Dest l)) = Some false /\
                  Heap l = Heap lane /\
                  ExecStateChangedWatcher (Dest l) !! seqNum = None)
        (fun a l' => (exists msg, a.2 = Some msg /\ classify msg = TransientRPC) /\
                     exists d, recorded l' reqStat
                               = Some (failure seqNum ExecStateChanged d))
        _ _ _ _ env 0 lane Hout)
        as (a & lane' & Hrun & (msg & Hmsg & Hclass) & d & Hrec);
        [outage_preserved| | | |done|lia|exact Hfirings|].
      * intros now n l (Hf & Hheap & Habs).
        unfold ExecutionStateChanged_ticker. by rewrite Habs.
      * intros now n l (Hf & Hheap & _) Hn.
        unfold ExecutionStateChanged_timer. timer_resets Hf.
      * intros now n l (Hf & Hheap & _) Hn. rewrite <- Hheap in Hst.
        unfold ExecutionStateChanged_timer. timer_gives_up Hf st.
      * exists lane', d. split; [|done]. by exists a, msg.
Qed.

Lemma wait_gives_up_after_three_resets_witness :
  let lane := Scenario.lane (Some 88%N) (Some false) in
  let env := [TickerC (Scenario.second 1); TimerC (Scenario.second 300);
              TickerC (Scenario.second 301); ConnectionIssue dest;
              TimerC (Scenario.second 600); TimerC (Scenario.second 900);
              TimerC (Scenario.second 1200); TickerC (Scenario.second 1201)] in
  outage env = true /\
  4 <= timerFirings env /\
  exists lane' d,
    gaveUp snd 3 [TickerC (Scenario.second 1201)] lane'
      (AssertEventReportAccepted 7 (Scenario.second 300) (Scenario.second 2) 0
         env lane) /\
    recorded lane' 0 = Some (failure 7 Commit d).
Proof.
  intros lane env.
  assert (Hout : outage env = true) by reflexivity.
  assert (Hfirings : 4 <= timerFirings env) by (cbn; lia).
  split; [exact Hout|]. split; [exact Hfirings|].
  destruct (wait_gives_up_after_three_resets env lane Hout Hfirings)
    as [_ Hdest].
  destruct (Hdest eq_refl 7%N (Scenario.second 300) (Scenario.second 2) 0
              (ex_intro _ Scenario.request eq_refl))
    as (_ & Haccepted & _).
  exact (Haccepted eq_refl).
Defined.

(** *** Loops over an interval of sequence numbers *)

Lemma uint64_small n : (n <= MaxUint64)%N -> uint64 n = n.
Proof.
  unfold uint64, MaxUint64. intros Hn. apply N.mod_small. lia.
Qed.

Lemma uint64_bound n : (uint64 n <= MaxUint64)%N.
Proof.
  unfold uint64, MaxUint64.
  pose proof (N.mod_upper_bound n (2 ^ 64)) as Hlt. lia.
Qed.

(** Below the largest [uint64] the loop ends, having stored the value
    under the sequence numbers from [i] to [max] and nowhere else. *)
Lemma forRange_ends {V : Type} (v : V) (fuel : nat) (i max : N)
    (m : gmap N V) :
  (max < MaxUint64)%N ->
  N.to_nat (max + 1 - i) < fuel ->
  exists m',
    forRange fuel (fun i m => <[i := v]> m) i max m = Some m' /\
    forall k, m' !! k = if decide (i <= k <= max)%N then Some v else m !! k.
Proof.
  intros Hmax. revert i m.
  induction fuel as [|fuel IH]; intros i m Hfuel; [lia|].
  cbn [forRange]. destruct (N.leb_spec i max) as [Hle|Hgt].
  - rewrite uint64_small by lia.
    destruct (IH (i + 1)%N (<[i := v]> m)) as (m' & Hrun & Hm'); [lia|].
    exists m'. split; [done|]. intros k. rewrite Hm'.
    destruct (decide (i = k)) as [->|Hne].
    + rewrite lookup_insert_eq. repeat case_decide; done || lia.
    + rewrite lookup_insert_ne by done. repeat case_decide; done || lia.
  - exists m. split; [done|]. intros k. case_decide; [lia|done].
Qed.

(** Up to the largest [uint64] the counter wraps and the loop never
    ends, whatever the fuel. *)
Lemma forRange_never_ends {S : Type} (body : N -> S -> S) (fuel : nat)
    (i : N) (s : S) :
  (i <= MaxUint64)%N ->
  forRange fuel body i MaxUint64 s = None.
Proof.
  revert i s. induction fuel as [|fuel IH]; intros i s Hi; [done|].
  cbn [forRange]. rewrite (proj2 (N.leb_le _ _) Hi).
  apply IH, uint64_bound.
Qed.

Lemma rangeFuel_enough min max : N.to_nat (max + 1 - min) < rangeFuel min max.
Proof. unfold rangeFuel. lia. Qed.

Lemma Sub_negative t u : (Time.Sub t u < 0)%Z <-> (t < u)%Z.
Proof.
  unfold Time.Sub, Time.minDuration, Time.maxDuration.
  repeat case_match; lia.
Qed.

(** C5 (as amended).  When [AssertEventReportAccepted] finds its event,
    it records success for the commit phase with a duration that is
    never negative: one second when the timestamp of the event is
    earlier than the previous timestamp, their difference otherwise.
    [AssertReportBlessed] (finding the blessing under the sequence
    number or under the root) and [AssertEventExecutionStateChanged]
    record the difference as it is. *)
Theorem ReportAccepted_clamps_negative_duration
    (seqNum : N) (prevEventAt : Time.t) (reqStat : nat)
    (now : Time.t) (resets : nat) (lane : CCIPLane) (st : RequestStat) :
  Heap lane !! reqStat = Some st ->
  (forall reportAccepted,
    ReportAcceptedWatcher (Dest lane) !! seqNum = Some reportAccepted ->
    let receivedAt := headerTime (Dest lane) (acceptedRaw reportAccepted) now in
    exists lane' rec,
      ReportAccepted_ticker seqNum prevEventAt reqStat now resets lane
      = (Return_ (Some (Report reportAccepted), receivedAt, None), resets, lane') /\
      recorded lane' reqStat = Some rec /\
      phase rec = Commit /\ status rec = Success /\
      Duration rec = (if decide (receivedAt < prevEventAt)%Z then Time.Second
                      else Time.Sub receivedAt prevEventAt) /\
      (0 <= Duration rec)%Z) /\
  (forall report vLogs,
    ReportBlessedWatcher (Dest lane) !! MerkleRoot report = None ->
    ReportBlessedBySeqNum (Dest lane) !! seqNum = Some vLogs ->
    let receivedAt := headerTime (Dest lane) vLogs now in
    exists lane' rec,
      ReportBlessed_ticker seqNum report prevEventAt reqStat now resets lane
      = (Return_ (receivedAt, None), resets, lane') /\
      recorded lane' reqStat = Some rec /\
      phase rec = ReportBlessed /\ status rec = Success /\
      Duration rec = Time.Sub receivedAt prevEventAt) /\
  (forall report vLogs,
    ReportBlessedWatcher (Dest lane) !! MerkleRoot report = Some vLogs ->
    (Max (ReportInterval report) < MaxUint64)%N ->
    let receivedAt := headerTime (Dest lane) vLogs now in
    exists lane' rec,
      ReportBlessed_ticker seqNum report prevEventAt reqStat now resets lane
      = (Return_ (receivedAt, None), resets, lane') /\
      recorded lane' reqStat = Some rec /\
      phase rec = ReportBlessed /\ status rec = Success /\
      Duration rec = Time.Sub receivedAt prevEventAt) /\
  (forall e,
    ExecStateChangedWatcher (Dest lane) !! seqNum = Some e ->
    let receivedAt := headerTime (Dest lane) (execRaw e) now in
    exists lane' rec,
      ExecutionStateChanged_ticker seqNum prevEventAt reqStat (State e)
        now resets lane
      = (Return_ (State e, None), resets, lane') /\
      recorded lane' reqStat = Some rec /\
      phase rec = ExecStateChanged /\ status rec = Success /\
      Duration rec = Time.Sub receivedAt prevEventAt).
Proof.
  intros Hst. split; [|split; [|split]].
  - intros reportAccepted Hfound receivedAt.
    unfold ReportAccepted_ticker. rewrite Hfound. fold receivedAt.
    do 2 eexists. split; [reflexivity|].
    split; [by apply (recorded_onStat_eq _ _ st)|]. cbn.
    pose proof (Sub_negative receivedAt prevEventAt) as Hneg.
    destruct (Z.ltb_spec (Time.Sub receivedAt prevEventAt) 0);
      case_decide; repeat split; try done; try lia.
  - intros report vLogs Hroot Hseq receivedAt.
    unfold ReportBlessed_ticker. rewrite Hroot, Hseq. cbn. fold receivedAt.
    do 2 eexists. split; [reflexivity|].
    split; [by apply (recorded_onStat_eq _ _ st)|]. done.
  - intros report vLogs Hroot Hmax receivedAt.
    destruct (forRange_ends vLogs
                (rangeFuel (Min (ReportInterval report))
                   (Max (ReportInterval report)))
                (Min (ReportInterval report)) (Max (ReportInterval report))
                (ReportBlessedBySeqNum (Dest lane)) Hmax (rangeFuel_enough _ _))
      as (bySeqNum & Hrun & _).
    unfold ReportBlessed_ticker. rewrite Hroot. cbn zeta. rewrite Hrun. cbn.
    fold receivedAt.
    do 2 eexists. split; [reflexivity|].
    split; [by apply (recorded_onStat_eq _ _ st)|]. done.
  - intros e Hfound receivedAt.
    unfold ExecutionStateChanged_ticker. rewrite Hfound. fold receivedAt.
    rewrite decide_True by done.
    do 2 eexists. split; [reflexivity|].
    split; [by apply (recorded_onStat_eq _ _ st)|]. done.
Qed.

Lemma ReportAccepted_clamps_negative_duration_witness :
  let lane := Scenario.after [Delivered (reportAcceptedEvent (Scenario.accepted 4))]
                (Scenario.lane None None) in
  exists lane' rec,
    ReportAccepted_ticker 7 (Scenario.second 10) 0 (Scenario.second 20) 0 lane
    = (Return_ (Some Scenario.report, Scenario.second 4, None), 0, lane') /\
    recorded lane' 0 = Some rec /\
    status rec = Success /\ Duration rec = Time.Second.
Proof.
  intros lane.
  destruct (ReportAccepted_clamps_negative_duration 7 (Scenario.second 10) 0
              (Scenario.second 20) 0 lane Scenario.request eq_refl)
    as [Haccepted _].
  destruct (Haccepted (Scenario.accepted 4) eq_refl)
    as (lane' & rec & Hrun & Hrec & _ & Hstatus & Hduration & _).
  exists lane', rec. repeat split; [exact Hrun | exact Hrec | exact Hstatus |].
  rewrite Hduration. reflexivity.
Defined.

(** C5 does not hold of every wait: [AssertReportBlessed], given a
    blessing whose block timestamp (second 4) is earlier than the
    previous timestamp (second 10), records success with a duration of
    minus six seconds, which is negative and is not the clamp value. *)
Lemma ReportBlessed_records_negative_duration :
  let run := AssertReportBlessed 7 (Scenario.second 300) Scenario.report
               (Scenario.second 10) 0
               [Delivered (reportBlessedEvent (Scenario.blessed 4));
                TickerC (Scenario.second 20)]
               (Scenario.lane (Some 88%N) None) in
  run.1.1.1 = Returned (Scenario.second 4, None) /\
  (Scenario.second 4 < Scenario.second 10)%Z /\
  status <$> recorded run.1.2 0 = Some Success /\
  phase <$> recorded run.1.2 0 = Some ReportBlessed /\
  Duration <$> recorded run.1.2 0 = Some (Scenario.second (-6)) /\
  (Scenario.second (-6) < 0)%Z /\
  Scenario.second (-6) <> Time.Second.
Proof. vm_compute. repeat split; done. Qed.

(** C4.  Range expansion.  When [AssertReportBlessed] (on a lane with
    an ARM contract) finds, at a tick, the blessing stored under the
    merkle root of the commit report, and the interval of the report
    ends below the largest [uint64] (sequence numbers count up from 1,
    so that the interval of every report of a commit store does), it
    returns without error having stored the blessing under every
    sequence number of the interval and under no other (the other
    entries are as they were), and having deleted the root.  Afterwards
    a wait for any sequence number of the interval, for the same
    report, finds the blessing under that number and returns without
    error. *)
Lemma ReportBlessed_expands_interval
    (seqNum : N) (timeout : Time.Duration) (report : CommitReport)
    (prevEventAt : Time.t) (reqStat : nat) (now : Time.t)
    (env : list envEvent) (lane : CCIPLane) (vLogs : Log) :
  is_Some (ARM (Common (Dest lane))) ->
  ReportBlessedWatcher (Dest lane) !! MerkleRoot report = Some vLogs ->
  (Max (ReportInterval report) < MaxUint64)%N ->
  exists lane',
    AssertReportBlessed seqNum timeout report prevEventAt reqStat
      (TickerC now :: env) lane
    = (Returned (headerTime (Dest lane) vLogs now, None), 0, lane', env) /\
    (forall i,
       ReportBlessedBySeqNum (Dest lane') !! i
       = if decide (Min (ReportInterval report) <= i
                    <= Max (ReportInterval report))%N
         then Some vLogs
         else ReportBlessedBySeqNum (Dest lane) !! i) /\
    ReportBlessedWatcher (Dest lane')
    = delete (MerkleRoot report) (ReportBlessedWatcher (Dest lane)) /\
    forall j prevEventAt' reqStat' now' env',
      (Min (ReportInterval report) <= j <= Max (ReportInterval report))%N ->
      exists lane'',
        AssertReportBlessed j timeout report prevEventAt' reqStat'
          (TickerC now' :: env') lane'
        = (Returned (headerTime (Dest lane) vLogs now', None), 0, lane'', env').
Proof.
  intros [arm Harm] Hroot Hmax.
  destruct (forRange_ends vLogs
              (rangeFuel (Min (ReportInterval report)) (Max (ReportInterval report)))
              (Min (ReportInterval report)) (Max (ReportInterval report))
              (ReportBlessedBySeqNum (Dest lane)) Hmax (rangeFuel_enough _ _))
    as (bySeqNum & Hrun & Hlookup).
  unfold AssertReportBlessed. rewrite Harm. cbn [selectLoop].
  unfold ReportBlessed_ticker at 1. rewrite Hroot. cbn zeta. rewrite Hrun. cbn.
  eexists. split; [reflexivity|]. split; [exact Hlookup|]. split; [done|].
  intros j prevEventAt' reqStat' now' env' Hj.
  cbn [Dest onStat withDest Common setReportBlessedWatcher
       setReportBlessedBySeqNum].
  rewrite Harm. cbn [selectLoop]. unfold ReportBlessed_ticker.
  cbn [Dest onStat withDest Common ReportBlessedWatcher ReportBlessedBySeqNum
       setReportBlessedWatcher setReportBlessedBySeqNum].
  rewrite lookup_delete_eq, Hlookup, decide_True by done.
  eexists. reflexivity.
Qed.

(** The blessing of the interval [5, 9]: sequence numbers 5 to 9
    resolve to the blessing afterwards, 4 and 10 do not. *)
Example ReportBlessed_expands_5_to_9 :
  let lane := Scenario.after [Delivered (reportBlessedEvent (Scenario.blessed 4))]
                (Scenario.lane (Some 88%N) None) in
  exists lane',
    AssertReportBlessed 7 (Scenario.second 300) Scenario.report
      (Scenario.second 3) 0 [TickerC (Scenario.second 5)] lane
    = (Returned (Scenario.second 4, None), 0, lane', []) /\
    (fun i => ReportBlessedBySeqNum (Dest lane') !! i)
      <$> [4; 5; 6; 7; 8; 9; 10]%N
    = [None; Some (blessedRaw (Scenario.blessed 4));
       Some (blessedRaw (Scenario.blessed 4)); Some (blessedRaw (Scenario.blessed 4));
       Some (blessedRaw (Scenario.blessed 4)); Some (blessedRaw (Scenario.blessed 4));
       None] /\
    ReportBlessedWatcher (Dest lane') !! 99%N = None.
Proof.
  intros lane.
  destruct (ReportBlessed_expands_interval 7 (Scenario.second 300)
              Scenario.report (Scenario.second 3) 0 (Scenario.second 5) []
              lane (blessedRaw (Scenario.blessed 4)))
    as (lane' & Hrun & Hlookup & Hroot & _).
  - eexists. reflexivity.
  - reflexivity.
  - reflexivity.
  - exists lane'. split; [exact Hrun|]. split.
    + cbn [fmap list_fmap]. rewrite !Hlookup. reflexivity.
    + rewrite Hroot. apply lookup_delete_eq.
Defined.

(** The bound on the interval cannot be dropped: for an interval that
    ends at the largest [uint64], which no commit store reports, the
    counter of the loop wraps to zero and the loop never ends, whatever
    fuel it is given.  With the blessing of root 99 in the store and a
    commit report for the interval from [MaxUint64] to [MaxUint64], the
    wait hangs at its first tick. *)
Remark ReportBlessed_expansion_hangs_at_MaxUint64 :
  (forall (fuel : nat) (min : N) (vLogs : Log) (m : gmap N Log),
     (min <= MaxUint64)%N ->
     forRange fuel (fun i m => <[i := vLogs]> m) min MaxUint64 m = None) /\
  (forRange 3 (fun i (m : gmap N bool) => <[i := true]> m)
     MaxUint64 MaxUint64 ∅ = None /\
   forRange 3 (fun i (m : gmap N bool) => <[i := true]> m)
     MaxUint64 (MaxUint64 - 1) ∅ = Some ∅ /\
   uint64 (MaxUint64 + 1) = 0%N) /\
  let report := {| ReportInterval := {| Min := MaxUint64; Max := MaxUint64 |};
                   MerkleRoot := 99%N |} in
  let lane := Scenario.after [Delivered (reportBlessedEvent (Scenario.blessed 4))]
                (Scenario.lane (Some 88%N) None) in
  AssertReportBlessed MaxUint64 (Scenario.second 300) report (Scenario.second 3) 0
    [TickerC (Scenario.second 5); TimerC (Scenario.second 300)] lane
  = (Hung, 0, lane, [TimerC (Scenario.second 300)]).
Proof.
  split; [intros; by apply forRange_never_ends|].
  split; [by vm_compute|].
  vm_compute. reflexivity.
Qed.

(** *** Duplicate delivery *)

(** X22.  The stores keyed by sequence number or by root overwrite: a
    second delivery of an event leaves the lane as the first one left
    it. *)
Lemma receive_again_same (ev : chainEvent) (lane lane1 : CCIPLane) :
  match ev with
  | sendReqEvent _ => False
  | reportAcceptedEvent e => (Max (ReportInterval (Report e)) < MaxUint64)%N
  | _ => True
  end ->
  StartEventWatchers_receive ev lane = Some lane1 ->
  StartEventWatchers_receive ev lane1 = Some lane1.
Proof.
  destruct ev as [e|e|e|e]; cbn [StartEventWatchers_receive]; intros Hev Hrun.
  - done.
  - set (min := Min (ReportInterval (Report e))) in *.
    set (max := Max (ReportInterval (Report e))) in *.
    destruct (forRange_ends e (rangeFuel min max) min max
                (ReportAcceptedWatcher (Dest lane)) Hev (rangeFuel_enough _ _))
      as (m1 & Hm1 & Hlookup1).
    rewrite Hm1 in Hrun. injection Hrun as <-. cbn.
    destruct (forRange_ends e (rangeFuel min max) min max m1 Hev
                (rangeFuel_enough _ _))
      as (m2 & Hm2 & Hlookup2).
    rewrite Hm2. cbn.
    assert (m2 = m1) as ->; [|done].
    apply map_eq. intros k. rewrite Hlookup2, Hlookup1. by case_decide.
  - destruct (ARM _) eqn:Harm; [|by injection Hrun as <-; rewrite Harm].
    case_decide; injection Hrun as <-; cbn; rewrite Harm.
    + rewrite decide_True by done. by rewrite insert_insert_eq.
    + by rewrite decide_False by done.
  - injection Hrun as <-. cbn. by rewrite insert_insert_eq.
Qed.

(** C3.  A send-requested event delivered twice is held twice: the
    slice for its transaction grows by two entries.  With one request
    for transaction 0xabc, the wait succeeds when the event was
    delivered once; when the same event was delivered twice before the
    tick, the slice is longer than the group of requests, the event is
    never consumed, and the wait fails when its timer fires. *)
Theorem duplicate_CCIPSendRequested_fails_the_wait :
  (forall e lane,
     exists lane1 lane2,
       StartEventWatchers_receive (sendReqEvent e) lane = Some lane1 /\
       StartEventWatchers_receive (sendReqEvent e) lane1 = Some lane2 /\
       SourceCCIPModule.CCIPSendRequestedWatcher (Source lane2) !! TxHash (sendRaw e)
       = Some (default [] (SourceCCIPModule.CCIPSendRequestedWatcher (Source lane)
                             !! TxHash (sendRaw e)) ++ [e; e])) /\
  let wait env :=
    AssertEventCCIPSendRequested "0xabc" (Scenario.second 300) (Scenario.second 1)
      [0] env (Scenario.lane None None) in
  let once := [Delivered (sendReqEvent Scenario.sent);
               TickerC (Scenario.second 2); TimerC (Scenario.second 300)] in
  let twice := [Delivered (sendReqEvent Scenario.sent);
                Delivered (sendReqEvent Scenario.sent);
                TickerC (Scenario.second 2); TimerC (Scenario.second 300)] in
  (wait once).1.1.1
  = Returned (Some [Scenario.sent], Scenario.second 1, None) /\
  status <$> recorded (wait once).1.2 0 = Some Success /\
  (wait twice).1.1.1
  = Returned (None, Scenario.second 300,
              Some "CCIPSendRequested event is not found for tx 0xabc") /\
  status <$> recorded (wait twice).1.2 0 = Some Failure.
Proof.
  split.
  - intros e lane. cbn [StartEventWatchers_receive].
    destruct (SourceCCIPModule.CCIPSendRequestedWatcher (Source lane)
                !! TxHash (sendRaw e)) as [eventsForTx|] eqn:Hfound;
      (do 2 eexists; split; [reflexivity|]; cbn; rewrite lookup_insert_eq;
       split; [reflexivity|]; cbn; rewrite lookup_insert_eq).
    + by rewrite <- app_assoc.
    + done.
  - vm_compute. repeat split; done.
Qed.

End WaitFacts.

(** ** The validation of a request group *)

Section Pipeline.

Lemma inOrder_app prev (ws1 ws2 : list wait) :
  inOrder prev (ws1 ++ ws2)
  = inOrder prev ws1
    && inOrder (match last ws1 with Some w => Some w | None => prev end) ws2.
Proof.
  revert prev. induction ws1 as [|w ws1 IH]; intros prev; cbn [app inOrder].
  - done.
  - rewrite IH, <- andb_assoc. do 2 f_equal.
    rewrite last_cons. by destruct (last ws1).
Qed.

Lemma Ordered_run {W R : Type} (h : handler W)
    (good : list wait -> R -> Prop) hist (p : prog R) :
  Ordered good hist p ->
  inOrder None hist = true ->
  forall w,
    inOrder None (hist ++ waits (run h p w).2) = true /\
    forall res, (run h p w).1.1 = Some res ->
                good (hist ++ waits (run h p w).2) res.
Proof.
  induction 1 as [hist r Hgood|hist X e k Hstart Hk IH]; intros Hhist w.
  - cbn. rewrite app_nil_r. split; [done|]. by intros res [= <-].
  - cbn [run].
    assert (Hext : forall a,
      inOrder None (hist ++ option_list (waitOf {| event := e; answer := a |}))
      = true).
    { intros a. destruct (waitOf _) as [wt|] eqn:Hw; cbn.
      - rewrite inOrder_app, Hhist. cbn. rewrite andb_true_r.
        specialize (Hstart a wt Hw). by destruct (last hist).
      - by rewrite app_nil_r. }
    destruct (h X e w) as [[x|] w'].
    + destruct (IH x (Hext (Some x)) w') as [Hord Hres].
      destruct (run h (k x) w') as [[r w''] calls]. cbn in *.
      unfold waits in *. cbn [omap].
      destruct (waitOf {| event := e; answer := Some x |}) as [wt|];
        cbn in *; rewrite <- ?app_assoc in *; cbn in *;
        rewrite ?app_nil_r in *; done.
    + cbn. unfold waits. cbn [omap]. specialize (Hext None).
      destruct (waitOf {| event := e; answer := None |}) as [wt|];
        cbn in *; (split; [done|]); done.
Qed.

Lemma Ordered_weaken {R : Type} (good1 good2 : list wait -> R -> Prop)
    hist (p : prog R) :
  (forall hist' r, good1 hist' r -> good2 hist' r) ->
  Ordered good1 hist p -> Ordered good2 hist p.
Proof.
  intros Hsub. induction 1 as [hist r Hgood|hist X e k Hstart Hk IH].
  - apply Ordered_Ret. by apply Hsub.
  - by apply Ordered_Vis.
Qed.

Lemma Ordered_bind {R S : Type} (good1 : list wait -> R -> Prop)
    (good2 : list wait -> S -> Prop) hist (p : prog R) (f : R -> prog S) :
  Ordered good1 hist p ->
  (forall hist' r, good1 hist' r -> Ordered good2 hist' (f r)) ->
  Ordered good2 hist (bind p f).
Proof.
  intros Hp Hf. induction Hp as [hist r Hgood|hist X e k Hstart Hk IH]; cbn.
  - by apply Hf.
  - by apply Ordered_Vis.
Qed.

Lemma findStat_Ordered seqNumber reqStats hist :
  Ordered (fun hist' (_ : option nat) => hist' = hist) hist
    (findStat seqNumber reqStats).
Proof.
  induction reqStats as [|stat rest IH]; cbn.
  - by apply Ordered_Ret.
  - apply Ordered_Vis; [done|]. intros n. cbn. rewrite app_nil_r.
    case_decide; [by apply Ordered_Ret | done].
Qed.

Lemma updatePhaseStats_Ordered ccipRequests hist :
  Ordered (fun hist' (_ : unit) => hist' = hist) hist
    (updatePhaseStats ccipRequests).
Proof.
  induction ccipRequests as [|req rest IH]; cbn.
  - by apply Ordered_Ret.
  - apply Ordered_Vis; [done|]. intros n. cbn. by rewrite app_nil_r.
Qed.

Local Ltac stopped :=
  apply Ordered_Ret; eexists; split;
  [rewrite <- ?app_assoc; reflexivity|];
  split; [intros; by eexists | done].

Lemma validateMessages_Ordered timeout t reqStats execState msgLogs hist p :
  last hist = Some p -> p.2 = succeeded ->
  (p.1.1 = waitSourceFinalized \/ p.1.1 = waitExecutionStateChanged) ->
  Ordered (goodMessages hist msgLogs) hist
    (validateMessages timeout t reqStats execState msgLogs).
Proof.
  revert hist p. induction msgLogs as [|msgLog rest IH]; intros hist p Hlast Hok Hkind.
  - apply Ordered_Ret. exists []. rewrite app_nil_r. split; [done|].
    split; [|done]. intros x Hx. by apply elem_of_nil in Hx.
  - cbn [validateMessages].
    apply (Ordered_bind _ _ _ _ _ (findStat_Ordered _ _ hist)).
    intros ? [reqStat|] ->.
    2:{ apply Ordered_Ret. exists []. rewrite app_nil_r. split; [done|].
        split; [|done]. intros x Hx. by apply elem_of_nil in Hx. }
    cbn [bind call]. apply Ordered_Vis.
    { intros a w [= <-]. rewrite Hlast. cbn. rewrite Hok.
      destruct p as [[k s] e]. cbn in Hkind. by destruct Hkind as [-> | ->]. }
    intros [msg|]; cbn [waitOf event answer endingOf id]; unfold option_list; cbn [option_rect];
      [rewrite decide_True by done; stopped|].
    rewrite decide_False by (by intros []).
    apply Ordered_Vis.
    { intros a w [= <-]. rewrite last_snoc. cbn. by rewrite bool_decide_true. }
    intros [[commitReport reportAcceptedAt] [msg|]];
      cbn [waitOf event answer endingOf snd]; unfold option_list; cbn [option_rect];
      [rewrite decide_True by done; stopped|].
    rewrite decide_False by (by intros []).
    destruct commitReport as [commitReport|]; [|stopped].
    apply Ordered_Vis.
    { intros a w [= <-]. rewrite last_snoc. cbn. by rewrite bool_decide_true. }
    intros [reportBlessedAt [msg|]];
      cbn [waitOf event answer endingOf snd]; unfold option_list; cbn [option_rect];
      [rewrite decide_True by done; stopped|].
    rewrite decide_False by (by intros []).
    apply Ordered_Vis.
    { intros a w [= <-]. rewrite last_snoc. cbn. by rewrite bool_decide_true. }
    intros [state [msg|]];
      cbn [waitOf event answer endingOf snd]; unfold option_list; cbn [option_rect];
      [rewrite decide_True by done; stopped|].
    rewrite decide_False by (by intros []).
    eapply Ordered_weaken;
      [|eapply IH; [rewrite last_snoc; reflexivity | done | by right]].
    intros hist' r (ws & -> & Hfail & Hnone).
    exists (perMessage msgLog ++ ws). split; [by rewrite <- !app_assoc|].
    split.
    + intros x [Hx|Hx]%elem_of_app Hf; [|by apply (Hfail x)].
      unfold perMessage in Hx.
      repeat (apply elem_of_cons in Hx as [->|Hx]; [discriminate Hf|]).
      by apply elem_of_nil in Hx.
    + intros ->. cbn [flat_map]. by rewrite Hnone.
Qed.

Lemma ValidateRequestByTxHash_Ordered lane txHash execState :
  Ordered goodValidation [] (ValidateRequestByTxHash lane txHash execState).
Proof.
  unfold ValidateRequestByTxHash.
  destruct (default [] (SentReqs lane !! txHash)) as [|first others].
  { apply Ordered_Ret. split; [|done]. intros x Hx. by apply elem_of_nil in Hx. }
  apply (Ordered_bind
    (fun hist (err : error) =>
       (forall x, x ∈ hist -> x.2 = failed -> exists msg, err = Some msg) /\
       (err = None -> exists msgLogs, hist = allWaits msgLogs))).
  2:{ intros hist err [Hfail Hnone].
      apply (Ordered_bind _ _ _ _ _ (updatePhaseStats_Ordered _ hist)).
      intros ? [] ->. apply Ordered_Ret. split.
      - intros x Hx Hf. destruct (Hfail x Hx Hf) as [msg ->]. by eexists.
      - intros [= ->]. by apply Hnone. }
  cbn [bind call]. apply Ordered_Vis; [by intros a w [= <-]|].
  intros [[msgLogs ccipSendReqGenAt] [msg|]];
    cbn [waitOf event answer endingOf snd]; unfold option_list;
    cbn [option_rect app].
  { rewrite decide_True by done. apply Ordered_Ret. split; [by eexists|done]. }
  rewrite decide_False by (by intros []).
  destruct msgLogs as [msgLogs|];
    [|apply Ordered_Ret; split; [by eexists|done]].
  cbn [bind call]. apply Ordered_Vis; [by intros a w [= <-]|].
  intros [[sourceLogFinalizedAt finalizedBlock] [msg|]];
    cbn [waitOf event answer endingOf snd]; unfold option_list;
    cbn [option_rect app].
  { rewrite decide_True by done. apply Ordered_Ret. split; [by eexists|done]. }
  rewrite decide_False by (by intros []).
  eapply Ordered_weaken;
    [|eapply (validateMessages_Ordered _ _ _ _ _ _
                (waitSourceFinalized, None, succeeded)); [done|done|by left]].
  intros hist' err (ws & -> & Hfail & Hnone). split.
  - intros x Hx Hf.
    repeat (apply elem_of_cons in Hx as [->|Hx]; [discriminate Hf|]).
    by apply (Hfail x).
  - intros Herr. exists msgLogs. unfold allWaits. by rewrite Hnone.
Qed.

(** Only the last wait of an ordered run can have failed or be
    unfinished. *)
Lemma inOrder_succeeded prev (ws : list wait) i x :
  inOrder prev ws = true -> ws !! i = Some x -> S i < length ws ->
  x.2 = succeeded.
Proof.
  revert prev i. induction ws as [|w ws IH]; intros prev i Hord Hx Hi; [done|].
  cbn in Hord. apply andb_prop in Hord as [_ Hord].
  destruct i as [|i]; cbn in Hx.
  - injection Hx as ->. destruct ws as [|w' ws]; [cbn in Hi; lia|].
    cbn in Hord. apply andb_prop in Hord as [Hstart _].
    destruct x as [? []]; done.
  - apply (IH (Some w) i); [done|done|cbn in Hi; lia].
Qed.

(** A run without result ends in a call that has not returned. *)
Lemma run_unfinished {W R : Type} (h : handler W) (p : prog R) (w : W) :
  (run h p w).1.1 = None ->
  exists X (e : waitE X) w',
    (h X e w').1 = None /\
    last (run h p w).2 = Some {| event := e; answer := None |}.
Proof.
  revert w. induction p as [r|X e k IH]; intros w; cbn; [done|].
  destruct (h X e w) as [[x|] w'] eqn:Hcall.
  - specialize (IH x w'). destruct (run h (k x) w') as [[r w''] calls].
    cbn. intros Hnone. destruct (IH Hnone) as (X' & e' & w1 & Hcall' & Hlast).
    exists X', e', w1. split; [done|]. cbn in Hlast.
    destruct calls; [done|]. by rewrite last_cons_cons.
  - intros _. exists X, e, w. by rewrite Hcall.
Qed.

Lemma waits_last calls c x :
  last calls = Some c -> waitOf c = Some x -> last (waits calls) = Some x.
Proof.
  intros Hlast Hc. apply last_Some in Hlast as [calls' ->].
  unfold waits. rewrite omap_app. cbn. rewrite Hc. apply last_snoc.
Qed.
Lemma waits_app (calls1 calls2 : list called) :
  waits (calls1 ++ calls2) = waits calls1 ++ waits calls2.
Proof. apply omap_app. Qed.

Lemma Traced_run {W R : Type} (h : handler W) (P : forall X, waitE X -> Prop)
    (good : list called -> R -> Prop) hist (p : prog R) :
  Traced P good hist p ->
  forall w,
    Forall (fun c => P _ (event c)) (run h p w).2 /\
    forall res, (run h p w).1.1 = Some res -> good (hist ++ (run h p w).2) res.
Proof.
  induction 1 as [hist r Hgood|hist X e k HP Hk IH]; intros w.
  - cbn. rewrite app_nil_r. split; [constructor|]. by intros res [= <-].
  - cbn [run]. destruct (h X e w) as [[x|] w'].
    + destruct (IH x w') as [Hall Hres].
      destruct (run h (k x) w') as [[r w''] calls]. cbn in *.
      split; [by constructor|]. intros res Hr.
      specialize (Hres res Hr). by rewrite <- app_assoc in Hres.
    + cbn. split; [by repeat constructor|done].
Qed.

Lemma Traced_weaken {R : Type} (P : forall X, waitE X -> Prop)
    (good1 good2 : list called -> R -> Prop) hist (p : prog R) :
  (forall hist' r, good1 hist' r -> good2 hist' r) ->
  Traced P good1 hist p -> Traced P good2 hist p.
Proof.
  intros Hsub. induction 1 as [hist r Hgood|hist X e k HP Hk IH].
  - apply Traced_Ret. by apply Hsub.
  - by apply Traced_Vis.
Qed.

Lemma Traced_bind {R S : Type} (P : forall X, waitE X -> Prop)
    (good1 : list called -> R -> Prop) (good2 : list called -> S -> Prop)
    hist (p : prog R) (f : R -> prog S) :
  Traced P good1 hist p ->
  (forall hist' r, good1 hist' r -> Traced P good2 hist' (f r)) ->
  Traced P good2 hist (bind p f).
Proof.
  intros Hp Hf. induction Hp as [hist r Hgood|hist X e k HP Hk IH]; cbn.
  - by apply Hf.
  - by apply Traced_Vis.
Qed.

(** The search reads statistics of the transaction only, calls no
    wait, and finds one of the statistics it was given. *)
Lemma findStat_Traced txHash reqStats seqNumber stats hist :
  (forall stat, stat ∈ stats -> stat ∈ reqStats) ->
  Traced (aboutTx txHash reqStats)
    (fun hist' (r : option nat) =>
       (exists new, hist' = hist ++ new /\ waits new = []) /\
       forall stat, r = Some stat -> stat ∈ reqStats)
    hist (findStat seqNumber stats).
Proof.
  revert hist. induction stats as [|stat rest IH]; intros hist Hsub; cbn.
  - apply Traced_Ret. split; [|done]. exists []. by rewrite app_nil_r.
  - apply Traced_Vis; [apply Hsub, list_elem_of_here|]. intros n.
    case_decide.
    + apply Traced_Ret. split.
      * by eexists.
      * intros ? [= <-]. apply Hsub, list_elem_of_here.
    + eapply Traced_weaken; [|apply IH].
      * intros hist' r [(new & -> & Hnew) Hin]. split; [|done].
        eexists. split; [by rewrite <- app_assoc|]. done.
      * intros s Hs. by apply Hsub, list_elem_of_further.
Qed.

Lemma updatePhaseStats_Traced txHash reqStats ccipRequests hist :
  (forall req, req ∈ ccipRequests -> RequestStat_ req ∈ reqStats) ->
  Traced (aboutTx txHash reqStats)
    (fun hist' (_ : unit) => exists new, hist' = hist ++ new /\ waits new = [])
    hist (updatePhaseStats ccipRequests).
Proof.
  revert hist. induction ccipRequests as [|req rest IH]; intros hist Hsub; cbn.
  - apply Traced_Ret. exists []. by rewrite app_nil_r.
  - apply Traced_Vis; [apply Hsub, list_elem_of_here|]. intros [].
    eapply Traced_weaken; [|apply IH].
    + intros hist' r (new & -> & Hnew).
      eexists. split; [by rewrite <- app_assoc|]. done.
    + intros r Hr. by apply Hsub, list_elem_of_further.
Qed.

Local Ltac gave_up :=
  apply Traced_Ret; eexists; split;
  [rewrite <- ?app_assoc; reflexivity | done].

(** The loop over the messages: when it returns nil it has called the
    four waits of every message it was given, in the order of the
    messages, and each of them returned without error. *)
Lemma validateMessages_Traced txHash reqStats timeout t execState msgLogs hist :
  Traced (aboutTx txHash reqStats)
    (fun hist' (err : error) =>
       exists new, hist' = hist ++ new /\
         (err = None -> waits new = flat_map perMessage msgLogs))
    hist (validateMessages timeout t reqStats execState msgLogs).
Proof.
  revert hist. induction msgLogs as [|msgLog rest IH]; intros hist.
  - apply Traced_Ret. exists []. by rewrite app_nil_r.
  - cbn [validateMessages].
    apply (Traced_bind _ _ _ _ _ _
             (findStat_Traced txHash reqStats _ reqStats hist (fun _ H => H))).
    intros ? [reqStat|] [(new0 & -> & Hnew0) Hin]; [|gave_up].
    specialize (Hin reqStat eq_refl).
    cbn [bind call]. apply Traced_Vis; [exact Hin|].
    intros [msg|]; [rewrite decide_True by done; gave_up|].
    rewrite decide_False by (by intros []).
    apply Traced_Vis; [exact Hin|].
    intros [[commitReport reportAcceptedAt] [msg|]];
      [rewrite decide_True by done; gave_up|].
    rewrite decide_False by (by intros []).
    destruct commitReport as [commitReport|]; [|gave_up].
    apply Traced_Vis; [exact Hin|].
    intros [reportBlessedAt [msg|]]; [rewrite decide_True by done; gave_up|].
    rewrite decide_False by (by intros []).
    apply Traced_Vis; [exact Hin|].
    intros [state [msg|]]; [rewrite decide_True by done; gave_up|].
    rewrite decide_False by (by intros []).
    eapply Traced_weaken; [|apply IH].
    intros hist' err (new & -> & Hnone).
    eexists. split; [rewrite <- !app_assoc; reflexivity|].
    intros Herr. rewrite waits_app, Hnew0. cbn [app flat_map].
    rewrite <- (Hnone Herr). reflexivity.
Qed.

(** The validation: its calls are about the requests that [SentReqs]
    holds for the transaction; when it returns nil, the waits called
    are the two waits on the transaction and then the four waits of
    every message that the send wait returned, all without error. *)
Lemma ValidateRequestByTxHash_Traced lane txHash execState :
  Traced (aboutTx txHash (RequestStat_ <$> default [] (SentReqs lane !! txHash)))
    (fun calls res =>
       res = Validated None ->
       exists msgLogs,
         sentMessages calls = Some msgLogs /\ waits calls = allWaits msgLogs)
    [] (ValidateRequestByTxHash lane txHash execState).
Proof.
  unfold ValidateRequestByTxHash.
  destruct (default [] (SentReqs lane !! txHash)) as [|first others] eqn:Hreqs.
  { by apply Traced_Ret. }
  set (reqStats := RequestStat_ <$> first :: others).
  apply (Traced_bind _
    (fun calls (err : error) =>
       err = None ->
       exists msgLogs,
         sentMessages calls = Some msgLogs /\ waits calls = allWaits msgLogs)).
  2:{ intros hist err Hnone.
      apply (Traced_bind _ _ _ _ _ _
               (updatePhaseStats_Traced txHash reqStats (first :: others) hist
                  (fun req Hreq => list_elem_of_fmap_2 RequestStat_ _ _ Hreq))).
      intros ? [] (new & -> & Hnew). apply Traced_Ret. intros [= ->].
      destruct (Hnone eq_refl) as (msgLogs & Hsent & Hwaits).
      exists msgLogs. split.
      - destruct hist; [done|exact Hsent].
      - by rewrite waits_app, Hnew, app_nil_r. }
  cbn [bind call]. apply Traced_Vis; [done|].
  intros [[msgLogs ccipSendReqGenAt] [msg|]]; cbn [app].
  { rewrite decide_True by done. by apply Traced_Ret. }
  rewrite decide_False by (by intros []).
  destruct msgLogs as [msgLogs|]; [|by apply Traced_Ret].
  cbn [bind call]. apply Traced_Vis; [done|].
  intros [[sourceLogFinalizedAt finalizedBlock] [msg|]]; cbn [app].
  { rewrite decide_True by done. by apply Traced_Ret. }
  rewrite decide_False by (by intros []).
  eapply Traced_weaken; [|apply validateMessages_Traced].
  intros hist' err (new & -> & Hnone) Herr.
  exists msgLogs. split; [reflexivity|].
  rewrite waits_app, (Hnone Herr). reflexivity.
Qed.

(** C1. Whatever the waits do (return without error, return an error
    or never return), as long as the reads of the request statistics
    and the reporter return: the waits that [ValidateRequestByTxHash]
    calls are sequential and in the fixed order (the send wait first,
    then source finality, then for each message the sequence-number
    increment, the accepted report, the blessing and the execution
    state, each for the same sequence number), and each wait is called
    only after the wait before it returned without error.  If a wait
    returned an error, it is the last wait called and the validation
    returns an error.  If the validation returns nil, the send wait
    returned messages, and the waits called are the two waits on the
    transaction followed by the four waits of every one of these
    messages, in their order, each returned without error.  Every call
    made is for the hash of the transaction and the statistics of the
    requests that [SentReqs] holds for it. *)
Theorem ValidateRequestByTxHash_waits_in_order {W : Type} (h : handler W)
    (w : W) (lane : CCIPLane) (txHash : string) (execState : N) :
  (forall stat w', is_Some (h _ (readSeqNum stat) w').1) ->
  (forall stat w', is_Some (h _ (callUpdatePhaseStatsForReq stat) w').1) ->
  let r := run h (ValidateRequestByTxHash lane txHash execState) w in
  inOrder None (waits r.2) = true /\
  (forall i x, waits r.2 !! i = Some x -> x.2 = failed ->
     S i = length (waits r.2) /\
     exists msg, r.1.1 = Some (Validated (Some msg))) /\
  (r.1.1 = Some (Validated None) ->
     exists msgLogs,
       sentMessages r.2 = Some msgLogs /\ waits r.2 = allWaits msgLogs) /\
  Forall (fun c =>
            aboutTx txHash (RequestStat_ <$> default [] (SentReqs lane !! txHash))
              _ (event c)) r.2.
Proof.
  intros Hread Hreport r.
  destruct (Ordered_run h goodValidation [] _
              (ValidateRequestByTxHash_Ordered lane txHash execState)
              eq_refl w) as [Hord Hgood].
  destruct (Traced_run h _ _ [] _
              (ValidateRequestByTxHash_Traced lane txHash execState) w)
    as [Habout Hall].
  fold r in Hord, Hgood, Habout, Hall. cbn [app] in Hord, Hgood, Hall.
  split; [exact Hord|].
  split; [|split; [intros Hres; exact (Hall _ Hres eq_refl)|exact Habout]].
  intros i x Hx Hfailed.
  assert (Hlast : S i = length (waits r.2)).
  { destruct (decide (S i < length (waits r.2))) as [Hlt|Hge].
    - pose proof (inOrder_succeeded _ _ _ _ Hord Hx Hlt) as Hs. congruence.
    - apply lookup_lt_Some in Hx. lia. }
  split; [exact Hlast|].
  destruct (r.1.1) as [res|] eqn:Hres.
  + destruct (Hgood res eq_refl) as [Hfail _].
    destruct (Hfail x) as [msg ->]; [by eapply list_elem_of_lookup_2|done|].
    by eexists.
  + exfalso. destruct (run_unfinished h _ w Hres)
      as (X & e & w' & Hcall & Hcalls).
    fold r in Hcalls.
    assert (Hwait : exists k s,
              waitOf {| event := e; answer := None |} = Some (k, s, unfinished)).
    { destruct e; cbn; eauto.
      - destruct (Hread stat w') as [? Hsome]. congruence.
      - destruct (Hreport stat w') as [? Hsome]. congruence. }
    destruct Hwait as (k & s & Hwait).
    pose proof (waits_last _ _ _ Hcalls Hwait) as Hl.
    rewrite last_lookup in Hl. rewrite <- Hlast in Hl. cbn in Hl.
    rewrite Hx in Hl. injection Hl as ->. done.
Qed.

End Pipeline.

(** The waits of the lane are such an implementation.  For a
    transaction with two requests: when both messages are executed, the
    validation returns nil after the two waits on the transaction and
    the four waits of message 7 and then of message 8; when the
    execution of message 8 never arrives and the timer fires, the
    execution-state wait of message 8 fails, it is the last wait and
    the validation returns the error. *)
Lemma ValidateRequestByTxHash_waits_in_order_witness :
  let lane := TwoRequests.lane (Some 88%N) None in
  let both := TwoRequests.first_executed
              ++ [Delivered (execStateChangedEvent (TwoRequests.executed 8 9));
                  TickerC (Scenario.second 13)] in
  let one := TwoRequests.first_executed ++ [TimerC (Scenario.second 400)] in
  let r := validate lane "0xabc" 2 both in
  let r' := validate lane "0xabc" 2 one in
  (r.1.1 = Some (Validated None) /\
   sentMessages r.2 = Some [TwoRequests.sent 7; TwoRequests.sent 8] /\
   waits r.2 = allWaits [TwoRequests.sent 7; TwoRequests.sent 8] /\
   inOrder None (waits r.2) = true) /\
  (waits r'.2
   = [(waitSend, None, succeeded); (waitSourceFinalized, None, succeeded)]
     ++ perMessage (TwoRequests.sent 7)
     ++ [(waitDestSeqIncrement, Some 8%N, succeeded);
         (waitReportAccepted, Some 8%N, succeeded);
         (waitReportBlessed, Some 8%N, succeeded);
         (waitExecutionStateChanged, Some 8%N, failed)] /\
   inOrder None (waits r'.2) = true /\
   exists msg, r'.1.1 = Some (Validated (Some msg))).
Proof.
  intros lane both one r r'.
  assert (Hread : forall stat w',
            is_Some (laneHandler _ (readSeqNum stat) w').1)
    by (intros stat [lane' env']; by eexists).
  assert (Hreport : forall stat w',
            is_Some (laneHandler _ (callUpdatePhaseStatsForReq stat) w').1)
    by (intros stat w'; by eexists).
  split.
  - destruct (ValidateRequestByTxHash_waits_in_order laneHandler (lane, both)
                lane "0xabc" 2 Hread Hreport) as (Hord & _ & Hall & _).
    assert (Hnil : r.1.1 = Some (Validated None)) by (vm_compute; reflexivity).
    destruct (Hall Hnil) as (msgLogs & Hsent & Hwaits).
    assert (Hmsgs : sentMessages r.2
                    = Some [TwoRequests.sent 7; TwoRequests.sent 8])
      by (vm_compute; reflexivity).
    split; [exact Hnil|]. split; [exact Hmsgs|]. split; [|exact Hord].
    assert (Heq : Some msgLogs = Some [TwoRequests.sent 7; TwoRequests.sent 8])
      by (rewrite <- Hsent; exact Hmsgs).
    injection Heq as <-. exact Hwaits.
  - destruct (ValidateRequestByTxHash_waits_in_order laneHandler (lane, one)
                lane "0xabc" 2 Hread Hreport) as (Hord & Hfailed & _).
    split; [vm_compute; reflexivity|]. split; [exact Hord|].
    destruct (Hfailed 9 (waitExecutionStateChanged, Some 8%N, failed))
      as [_ Hmsg]; [vm_compute; reflexivity | reflexivity | exact Hmsg].
Defined.

(** The end-to-end scenario: the send-requested event of transaction
    0xabc with sequence number 7 arrives, then the report for the
    interval [5, 9] is accepted and blessed, and message 7 is executed;
    every phase of the request is recorded as a success, the blessing
    being found under the root and expanded. *)
Example validate_end_to_end :
  let env := [Delivered (sendReqEvent Scenario.sent); TickerC (Scenario.second 2);
              CommitStoreMoved (Some 10%N); TickerC (Scenario.second 3);
              Delivered (reportAcceptedEvent (Scenario.accepted 5));
              TickerC (Scenario.second 6);
              Delivered (reportBlessedEvent (Scenario.blessed 6));
              TickerC (Scenario.second 7);
              Delivered (execStateChangedEvent (Scenario.executed 8));
              TickerC (Scenario.second 9)] in
  let r := validate (Scenario.lane (Some 88%N) None) "0xabc" 2 env in
  r.1.1 = Some (Validated None) /\
  waits r.2 = allWaits [Scenario.sent] /\
  (fun stat => (fun p => (phase p, status p)) <$> StatusByPhase stat)
    <$> Heap r.1.2.1
  = [[(CCIPSendRe, Success); (SourceLogFinalized, Success); (Commit, Success);
      (ReportBlessed, Success); (ExecStateChanged, Success)]].
Proof. vm_compute. done. Qed.

(** * Further properties *)

Section LedgerFacts.
Import Balance.

Lemma total_insert f key item (m : gmap string BalanceItem) pb :
  total f {| Items := <[key := item]> m; PrevBalance := pb |}
  = (amount (f item)
     + total f {| Items := delete key m; PrevBalance := pb |})%Z.
Proof.
  unfold total. cbn [Items].
  rewrite <- insert_delete_eq.
  rewrite map_fold_insert_L.
  - reflexivity.
  - intros. lia.
  - apply lookup_delete_eq.
Qed.

Lemma total_lookup f key (b : BalanceSheet) :
  total f b
  = (match Items b !! key with Some it => amount (f it) | None => 0 end
     + total f {| Items := delete key (Items b); PrevBalance := PrevBalance b |})%Z.
Proof.
  destruct (Items b !! key) as [it|] eqn:Hl.
  - rewrite <- total_insert. unfold total. cbn [Items].
    by rewrite insert_id.
  - unfold total. cbn [Items]. by rewrite delete_id.
Qed.

Lemma Update_totals key item b :
  total AmtToAdd (Update key item b)
  = (total AmtToAdd b + amount (AmtToAdd item))%Z /\
  total AmtToSub (Update key item b)
  = (total AmtToSub b + amount (AmtToSub item))%Z.
Proof.
  rewrite (total_lookup AmtToAdd key b), (total_lookup AmtToSub key b).
  unfold Update.
  destruct (Items b !! key) as [prev|] eqn:Hl; rewrite !total_insert;
    cbn [AmtToAdd AmtToSub amount default PrevBalance Items].
  - destruct (AmtToAdd prev), (AmtToAdd item), (AmtToSub prev), (AmtToSub item);
      cbn; split; lia.
  - split; lia.
Qed.

(** X1.  [Update] adds the amounts of the entry to what the sheet holds
    in all: whether the key is new or already known, the total of the
    amounts to add grows by the entry's amount to add, and the total of
    the amounts to subtract by its amount to subtract, nil counting as
    zero. *)
Theorem Update_adds_to_totals key item b :
  total AmtToAdd (Update key item b)
  = (total AmtToAdd b + amount (AmtToAdd item))%Z /\
  total AmtToSub (Update key item b)
  = (total AmtToSub b + amount (AmtToSub item))%Z.
Proof.
  rewrite (total_lookup AmtToAdd key b), (total_lookup AmtToSub key b).
  unfold Update.
  destruct (Items b !! key) as [prev|] eqn:Hl; rewrite !total_insert;
    cbn [AmtToAdd AmtToSub amount default PrevBalance Items].
  - destruct (AmtToAdd prev), (AmtToAdd item), (AmtToSub prev), (AmtToSub item);
      cbn; split; lia.
  - split; lia.
Qed.


(** X2.  Updates of different keys commute: the sheet after both does
    not depend on which came first. *)
Theorem Update_commutes key1 item1 key2 item2 b :
  key1 <> key2 ->
  Update key1 item1 (Update key2 item2 b)
  = Update key2 item2 (Update key1 item1 b).
Proof.
  intros Hne.
  unfold Update at 1 3.
  rewrite (Update_lookup_ne key2 item2 b key1) by done.
  rewrite (Update_lookup_ne key1 item1 b key2) by done.
  rewrite !Update_PrevBalance.
  unfold Update.
  destruct (Items b !! key1) as [prev1|], (Items b !! key2) as [prev2|];
    cbn [Items PrevBalance]; f_equal; by apply insert_insert_ne.
Qed.

Lemma Update_commutes_witness :
  let sender := {| Address := 1%N; Getter := fun _ => Some 90%Z;
                   PreviousBalance := None; AmtToAdd := None;
                   AmtToSub := Some 10%Z |} in
  let pool := {| Address := 2%N; Getter := fun _ => Some 10%Z;
                 PreviousBalance := None; AmtToAdd := Some 10%Z;
                 AmtToSub := None |} in
  Update "sender" sender (Update "pool" pool NewBalanceSheet)
  = Update "pool" pool (Update "sender" sender NewBalanceSheet).
Proof.
  intros sender pool.
  apply (Update_commutes "sender" sender "pool" pool NewBalanceSheet).
  discriminate.
Defined.

Lemma RecordBalance_union bal b :
  PrevBalance (RecordBalance bal b) = PrevBalance b ∪ bal.
Proof.
  apply map_eq. intros key.
  rewrite RecordBalance_lookup, lookup_union.
  destruct (PrevBalance b !! key), (bal !! key); reflexivity.
Qed.

(** X3.  Recording two snapshots one after the other is recording
    their union, in which the first snapshot wins on the keys that both
    hold; recording a snapshot a second time changes nothing. *)
Theorem RecordBalance_composes bal1 bal2 b :
  RecordBalance bal2 (RecordBalance bal1 b) = RecordBalance (bal1 ∪ bal2) b /\
  RecordBalance bal1 (RecordBalance bal1 b) = RecordBalance bal1 b.
Proof.
  assert (Heq : forall x y : BalanceSheet,
            Items x = Items y -> PrevBalance x = PrevBalance y -> x = y).
  { intros [] []. cbn. by intros -> ->. }
  split; apply Heq; try reflexivity; rewrite !RecordBalance_union.
  - by rewrite (assoc_L (∪)).
  - rewrite <- (assoc_L (∪)). by rewrite (idemp (∪) bal1).
Qed.

(** X4.  An assertion with a [Within] margin is met by the balances
    strictly between [Expected - Within] and [Expected + Within]: a
    balance on either bound is reported as a failure.  Whatever the
    balance, the assertion returns and the failures reported before are
    kept. *)
Theorem AssertBalances_range_is_open (b : BalanceAssertion) (t : T)
    (want within actual : Z) :
  Within b <> "" ->
  BigInt.SetString (Expected b) = Some want ->
  BigInt.SetString (Within b) = Some within ->
  baGetter b (baAddress b) = Some actual ->
  (exists failures, AssertBalances [b] t = Return tt (t ++ failures)) /\
  (AssertBalances [b] t = Return tt t
   <-> (want - within < actual < want + within)%Z).
Proof.
  intros Hwithin Hwant Hw Hactual.
  cbn [AssertBalances]. unfold assertBalance.
  rewrite Hactual, Hwant, Hw.
  destruct (String.eqb_spec (Within b) "") as [|_]; [done|].
  cbn [BigInt.Add BigInt.Sub]. unfold BigInt.Cmp, Errorf.
  assert (Hlen : forall l l' : T, l ++ l' = l -> l' = []).
  { intros l l' Heq. apply (f_equal length) in Heq.
    rewrite length_app in Heq. destruct l'; [done|cbn in Heq; lia]. }
  destruct (Z.compare_spec actual (want + within)) as [H1|H1|H1];
    destruct (Z.compare_spec actual (want - within)) as [H2|H2|H2];
    cbn [Z.eqb Pos.eqb]; rewrite <- ?app_assoc;
    (split; [eexists; try reflexivity; by rewrite app_nil_r|]);
    (split; [intros Heq|intros ?]; try lia; try reflexivity;
     injection Heq as Heq; by apply Hlen in Heq).
Qed.

Lemma AssertBalances_range_is_open_witness :
  let b := {| Name := "pool"; baAddress := 2%N;
              baGetter := fun _ => Some 103%Z;
              Expected := "100"; Within := "5" |} in
  (exists failures, AssertBalances [b] [] = Return tt ([] ++ failures)) /\
  (AssertBalances [b] [] = Return tt [] <-> (100 - 5 < 103 < 100 + 5)%Z).
Proof.
  intros b.
  apply (AssertBalances_range_is_open b [] 100 5 103);
    [discriminate | reflexivity | reflexivity | reflexivity].
Defined.

End LedgerFacts.

Section FurtherWaitFacts.
Import DestCCIPModule.

Lemma StartEventWatchers_receive_Heap ev lane lane' :
  StartEventWatchers_receive ev lane = Some lane' -> Heap lane' = Heap lane.
Proof.
  destruct ev as [e|e|e|e]; cbn [StartEventWatchers_receive].
  - by intros [= <-].
  - destruct (forRange _ _ _ _ _); cbn; [by intros [= <-]|done].
  - destruct (ARM _); [case_decide|]; by intros [= <-].
  - by intros [= <-].
Qed.

Lemma background_Heap ev lane lane' :
  background ev lane = Some lane' -> Heap lane' = Heap lane.
Proof.
  destruct ev as [| |e|[]|[]|]; cbn [background];
    try (by intros [= <-]).
  apply StartEventWatchers_receive_Heap.
Qed.

(** A wait that has returned did so from one of its two branches, at a
    lane reached through rounds of the loop and the goroutines beside
    it: what these keep holds when the branch is taken. *)
Lemma selectLoop_invariant {L A : Type}
    (onTicker onTimer : Time.t -> L -> CCIPLane -> branch A * L * CCIPLane)
    (I : L -> CCIPLane -> Prop) (Q : A -> L -> CCIPLane -> Prop) :
  (forall ev loc lane lane', I loc lane -> background ev lane = Some lane' ->
     I loc lane') ->
  (forall now loc lane, I loc lane ->
     match onTicker now loc lane with
     | (Return_ a, loc', lane') => Q a loc' lane'
     | (Continue, loc', lane') => I loc' lane'
     | (Diverge, _, _) => True
     end) ->
  (forall now loc lane, I loc lane ->
     match onTimer now loc lane with
     | (Return_ a, loc', lane') => Q a loc' lane'
     | (Continue, loc', lane') => I loc' lane'
     | (Diverge, _, _) => True
     end) ->
  forall env loc lane a loc' lane' rest,
    I loc lane ->
    selectLoop onTicker onTimer env loc lane = (Returned a, loc', lane', rest) ->
    Q a loc' lane'.
Proof.
  intros Hback Hticker Htimer env.
  induction env as [|ev env IH]; intros loc lane a loc' lane' rest HI;
    [done|].
  assert (Hbg : match background ev lane with
                | Some lane1 => selectLoop onTicker onTimer env loc lane1
                | None => (Hung, loc, lane, env)
                end = (Returned a, loc', lane', rest) -> Q a loc' lane').
  { destruct (background ev lane) as [lane1|] eqn:Hb; [|done].
    apply IH. by eapply Hback. }
  destruct ev as [now|now| | | |]; cbn [selectLoop]; try exact Hbg.
  - specialize (Hticker now loc lane HI).
    destruct (onTicker now loc lane) as [[[a1| |] loc1] lane1].
    + by intros [= <- <- <- <-].
    + by apply IH.
    + done.
  - specialize (Htimer now loc lane HI).
    destruct (onTimer now loc lane) as [[[a1| |] loc1] lane1].
    + by intros [= <- <- <- <-].
    + by apply IH.
    + done.
Qed.

Lemma agrees_onStat lane r st seqNum step d state tx err :
  Heap lane !! r = Some st ->
  (state = Success <-> err = None) ->
  agrees (onStat r (UpdateState seqNum step d state tx) lane) r step err.
Proof.
  intros Hst Hiff. eexists. split; [by apply (recorded_onStat_eq _ _ st)|]. done.
Qed.

Lemma is_Some_background ev lane lane' r :
  is_Some (Heap lane !! r) -> background ev lane = Some lane' ->
  is_Some (Heap lane' !! r).
Proof. intros H Hb. by rewrite (background_Heap _ _ _ Hb). Qed.

(** X5.  What a wait on the destination chain returns is what it
    recorded.  Along any schedule, when [AssertEventReportAccepted],
    [AssertReportBlessed] (with an ARM contract) or
    [AssertEventExecutionStateChanged] returns, the latest record of the
    request is one of the phase of the wait, and it is a success exactly
    when the wait returned no error. *)
Theorem wait_result_is_recorded (seqNum : N) (timeout : Time.Duration)
    (prevEventAt : Time.t) (reqStat : nat) (report : CommitReport)
    (execState : N) (env : list envEvent) (lane : CCIPLane) :
  is_Some (Heap lane !! reqStat) ->
  (forall r n lane' rest,
     AssertEventReportAccepted seqNum timeout prevEventAt reqStat env lane
     = (Returned r, n, lane', rest) ->
     agrees lane' reqStat Commit r.2) /\
  (forall r n lane' rest,
     is_Some (ARM (Common (Dest lane))) ->
     AssertReportBlessed seqNum timeout report prevEventAt reqStat env lane
     = (Returned r, n, lane', rest) ->
     agrees lane' reqStat ReportBlessed r.2) /\
  (forall r n lane' rest,
     AssertEventExecutionStateChanged seqNum timeout prevEventAt reqStat
       execState env lane
     = (Returned r, n, lane', rest) ->
     agrees lane' reqStat ExecStateChanged r.2).
Proof.
  intros Hsome.
  assert (Hback : forall ev (loc : nat) lane lane',
            is_Some (Heap lane !! reqStat) -> background ev lane = Some lane' ->
            is_Some (Heap lane' !! reqStat))
    by (intros; by eapply is_Some_background).
  split; [|split]; intros r n lane' rest.
  - apply (selectLoop_invariant _ _
             (fun _ l => is_Some (Heap l !! reqStat))
             (fun a _ l => agrees l reqStat Commit a.2)); [done| | |done].
    + intros now loc l [st Hst]. unfold ReportAccepted_ticker.
      destruct (ReportAcceptedWatcher (Dest l) !! seqNum); [|by eexists].
      by apply (agrees_onStat _ _ st).
    + intros now loc l [st Hst]. unfold ReportAccepted_timer.
      destruct (IsConnectionRestoredRecently _) as [[]|];
        [|destruct (2 <? loc)%nat|]; try (by eexists);
        by apply (agrees_onStat _ _ st).
  - intros [arm Harm]. unfold AssertReportBlessed. rewrite Harm.
    apply (selectLoop_invariant _ _
             (fun _ l => is_Some (Heap l !! reqStat))
             (fun a _ l => agrees l reqStat ReportBlessed a.2)); [done| | |done].
    + intros now loc l [st Hst]. unfold ReportBlessed_ticker.
      destruct (ReportBlessedWatcher (Dest l) !! MerkleRoot report) as [v|].
      * destruct (forRange _ _ _ _ _); cbn [mbind option_bind]; [|done].
        by apply (agrees_onStat _ _ st).
      * destruct (ReportBlessedBySeqNum (Dest l) !! seqNum); [|by eexists].
        by apply (agrees_onStat _ _ st).
    + intros now loc l [st Hst]. unfold ReportBlessed_timer.
      destruct (IsConnectionRestoredRecently _) as [[]|];
        [|destruct (2 <? loc)%nat|]; try (by eexists);
        by apply (agrees_onStat _ _ st).
  - apply (selectLoop_invariant _ _
             (fun _ l => is_Some (Heap l !! reqStat))
             (fun a _ l => agrees l reqStat ExecStateChanged a.2)); [done| | |done].
    + intros now loc l [st Hst]. unfold ExecutionStateChanged_ticker.
      destruct (ExecStateChangedWatcher (Dest l) !! seqNum); [|by eexists].
      case_decide; by apply (agrees_onStat _ _ st).
    + intros now loc l [st Hst]. unfold ExecutionStateChanged_timer.
      destruct (IsConnectionRestoredRecently _) as [[]|];
        [|destruct (2 <? loc)%nat|]; try (by eexists);
        by apply (agrees_onStat _ _ st).
Qed.


Lemma wait_result_is_recorded_witness :
  let lane := Scenario.after [Delivered (execStateChangedEvent (Scenario.executed 8))]
                (Scenario.lane (Some 88%N) None) in
  agrees
    (AssertEventExecutionStateChanged 7 (Scenario.second 300) (Scenario.second 7)
       0 3 [TickerC (Scenario.second 9)] lane).1.2
    0 ExecStateChanged
    (Some ("ExecutionStateChanged event state - expected 3 actual - 2 with data "
           +:+ " for seq num 7 for lane 1-->2")).
Proof.
  intros lane.
  destruct (wait_result_is_recorded 7 (Scenario.second 300) (Scenario.second 7)
              0 Scenario.report 3 [TickerC (Scenario.second 9)] lane)
    as (_ & _ & Hexec); [by eexists|].
  apply (Hexec (2%N, Some _) 0 _ []). reflexivity.
Defined.

Lemma foldl_keeps {X B : Type} (proj : CCIPLane -> B)
    (step : CCIPLane -> X -> CCIPLane) :
  (forall l x, proj (step l x) = proj l) ->
  forall xs l, proj (foldl step l xs) = proj l.
Proof.
  intros Hstep xs. induction xs as [|x xs IH]; intros l; [done|].
  cbn. by rewrite IH.
Qed.

(** The statistics of the requests after the loop that hands the
    events of a transaction to its requests, by position. *)
Lemma assigned_by_position (events : list CCIPSendRequested) :
  forall (reqStat : list nat) (lane : CCIPLane) i e r,
    NoDup reqStat ->
    events !! i = Some e -> reqStat !! i = Some r ->
    Heap (foldl (fun lane '(sendRequestedEvent, stat) =>
                   onStat stat (UpdateState (SequenceNumber sendRequestedEvent)
                                  CCIPSendRe 0%Z Success None) lane)
            lane (zip events reqStat)) !! r
    = UpdateState (SequenceNumber e) CCIPSendRe 0%Z Success None
        <$> Heap lane !! r.
Proof.
  induction events as [|e0 events IH]; intros [|r0 reqStat] lane i e r Hnd He Hr;
    try done.
  apply NoDup_cons in Hnd as [Hnotin Hnd].
  cbn [zip zip_with foldl].
  destruct i as [|i]; cbn in He, Hr.
  - injection He as <-. injection Hr as <-.
    assert (Hrest : forall events (reqStat : list nat) lane,
              r0 ∉ reqStat ->
              Heap (foldl (fun lane '(sendRequestedEvent, stat) =>
                             onStat stat (UpdateState (SequenceNumber sendRequestedEvent)
                                            CCIPSendRe 0%Z Success None) lane)
                      lane (zip events reqStat)) !! r0
              = Heap lane !! r0).
    { clear. intros events. induction events as [|e events IH];
        intros [|r reqStat] lane Hnotin; try done.
      cbn [zip zip_with foldl]. rewrite IH by set_solver.
      cbn [onStat Heap]. apply list_lookup_alter_ne. set_solver. }
    rewrite Hrest by done. cbn [onStat Heap]. apply list_lookup_alter_eq.
  - rewrite (IH reqStat _ i e r Hnd He Hr). cbn [onStat Heap].
    rewrite list_lookup_alter_ne; [done|].
    intros ->. apply Hnotin. by eapply list_elem_of_lookup_2.
Qed.

(** X6.  [AssertEventCCIPSendRequested] hands the events of the
    transaction to the requests by position.  When it returns events,
    along any schedule and for requests behind different pointers, there
    are as many events as requests, the instant returned is the one it
    was called with, and the request at position [i] has got the
    sequence number of the event at position [i] with a success of the
    phase and nothing else. *)
Theorem CCIPSendRequested_events_assigned_by_position
    (txHash : string) (timeout : Time.Duration) (prevEventAt : Time.t)
    (reqStat : list nat) (env : list envEvent) (lane : CCIPLane)
    (events : list CCIPSendRequested) (at_ : Time.t) (n : nat)
    (lane' : CCIPLane) (rest : list envEvent) :
  NoDup reqStat ->
  AssertEventCCIPSendRequested txHash timeout prevEventAt reqStat env lane
  = (Returned (Some events, at_, None), n, lane', rest) ->
  length events = length reqStat /\
  at_ = prevEventAt /\
  forall i e r,
    events !! i = Some e -> reqStat !! i = Some r ->
    Heap lane' !! r
    = UpdateState (SequenceNumber e) CCIPSendRe 0%Z Success None
        <$> Heap lane !! r.
Proof.
  intros Hnd Hrun.
  refine (selectLoop_invariant _ _
           (fun _ l => Heap l = Heap lane)
           (fun a _ l =>
              match a with
              | (Some events, at_, None) =>
                  length events = length reqStat /\ at_ = prevEventAt /\
                  forall i e r,
                    events !! i = Some e -> reqStat !! i = Some r ->
                    Heap l !! r
                    = UpdateState (SequenceNumber e) CCIPSendRe 0%Z Success None
                        <$> Heap lane !! r
              | _ => True
              end) _ _ _ env 0 lane _ _ _ _ eq_refl Hrun).
  - intros ev loc l l' <- Hb. by eapply background_Heap.
  - intros now loc l Hheap. unfold CCIPSendRequested_ticker.
    destruct (SourceCCIPModule.CCIPSendRequestedWatcher (Source l) !! txHash)
      as [sendRequestedEvents|]; [|done].
    case_decide as Hlen; [|done].
    split; [done|]. split; [done|]. intros i e r He Hr.
    rewrite (assigned_by_position _ reqStat _ i e r Hnd He Hr).
    cbn [withSource Heap]. by rewrite Hheap.
  - intros now loc l Hheap. unfold CCIPSendRequested_timer.
    destruct (IsConnectionRestoredRecently _) as [[]|];
      [|destruct (2 <? loc)%nat|]; done.
Qed.


Lemma CCIPSendRequested_events_assigned_by_position_witness :
  let lane := Scenario.after [Delivered (sendReqEvent Scenario.sent)]
                (Scenario.lane None None) in
  let run := AssertEventCCIPSendRequested "0xabc" (Scenario.second 300)
               (Scenario.second 1) [0] [TickerC (Scenario.second 2)] lane in
  SeqNum <$> Heap run.1.2 !! 0 = Some 7%N.
Proof.
  intros lane run.
  destruct (CCIPSendRequested_events_assigned_by_position "0xabc"
              (Scenario.second 300) (Scenario.second 1) [0]
              [TickerC (Scenario.second 2)] lane [Scenario.sent]
              (Scenario.second 1) 0 run.1.2 [])
    as (_ & _ & Hheap);
    [apply NoDup_singleton | reflexivity |].
  rewrite (Hheap 0 Scenario.sent 0 eq_refl eq_refl). reflexivity.
Defined.

(** A loop over an interval that ends at or above the largest
    [uint64] and is not empty never ends. *)
Lemma forRange_hangs {S : Type} (body : N -> S -> S) (fuel : nat)
    (i max : N) (s : S) :
  (i <= max)%N -> (MaxUint64 <= max)%N -> forRange fuel body i max s = None.
Proof.
  revert i s. induction fuel as [|fuel IH]; intros i s Hi Hmax; [done|].
  cbn [forRange]. destruct (N.leb_spec i max) as [_|Hgt]; [|lia].
  apply IH; [|done]. pose proof (uint64_bound (i + 1)). lia.
Qed.

(** A loop over an interval that has ended has stored the value under
    every number of the interval. *)
Lemma forRange_covers {V : Type} (v : V) (min max : N) (m m' : gmap N V) :
  forRange (rangeFuel min max) (fun i m => <[i := v]> m) min max m = Some m' ->
  forall k, (min <= k <= max)%N -> m' !! k = Some v.
Proof.
  intros Hrun k Hk.
  destruct (decide (max < MaxUint64)%N) as [Hmax|Hmax].
  - destruct (forRange_ends v (rangeFuel min max) min max m Hmax
                (rangeFuel_enough _ _)) as (m'' & Hrun' & Hlookup).
    rewrite Hrun in Hrun'. injection Hrun' as <-.
    by rewrite Hlookup, decide_True.
  - rewrite forRange_hangs in Hrun by lia. done.
Qed.

(** X7.  A wait that returns without error has consumed what it
    waited for: when it returns, along any schedule, its key is not in
    the store it read (the hash of the transaction, or the sequence
    number).  For the blessing, which is looked up under the merkle
    root of the report and else under the sequence number: the root is
    not in the store of roots, and either the blessing was found under
    the sequence number and that entry is gone, or it was found under
    the root and is now stored under every sequence number of the
    interval of the report. *)
Theorem successful_wait_consumes_its_event
    (txHash : string) (reqStats : list nat)
    (seqNum : N) (timeout : Time.Duration) (prevEventAt : Time.t)
    (reqStat : nat) (report : CommitReport) (execState : N)
    (env : list envEvent) (lane : CCIPLane) :
  (forall r at_ n lane' rest,
     AssertEventCCIPSendRequested txHash timeout prevEventAt reqStats env lane
     = (Returned (r, at_, None), n, lane', rest) ->
     SourceCCIPModule.CCIPSendRequestedWatcher (Source lane') !! txHash = None) /\
  (forall r at_ n lane' rest,
     AssertEventReportAccepted seqNum timeout prevEventAt reqStat env lane
     = (Returned (r, at_, None), n, lane', rest) ->
     ReportAcceptedWatcher (Dest lane') !! seqNum = None) /\
  (forall at_ n lane' rest,
     is_Some (ARM (Common (Dest lane))) ->
     AssertReportBlessed seqNum timeout report prevEventAt reqStat env lane
     = (Returned (at_, None), n, lane', rest) ->
     ReportBlessedWatcher (Dest lane') !! MerkleRoot report = None /\
     (ReportBlessedBySeqNum (Dest lane') !! seqNum = None \/
      exists vLogs,
        forall i,
          (Min (ReportInterval report) <= i <= Max (ReportInterval report))%N ->
          ReportBlessedBySeqNum (Dest lane') !! i = Some vLogs)) /\
  (forall s n lane' rest,
     AssertEventExecutionStateChanged seqNum timeout prevEventAt reqStat
       execState env lane
     = (Returned (s, None), n, lane', rest) ->
     ExecStateChangedWatcher (Dest lane') !! seqNum = None).
Proof.
  split; [|split; [|split]].
  - intros r at_ n lane' rest Hrun.
    refine (selectLoop_invariant _ _ (fun _ _ => True)
              (fun a _ l =>
                 a.2 = None ->
                 SourceCCIPModule.CCIPSendRequestedWatcher (Source l) !! txHash
                 = None) _ _ _ env 0 lane _ _ _ _ I Hrun eq_refl); [done| |].
    + intros now loc l _. unfold CCIPSendRequested_ticker.
      destruct (SourceCCIPModule.CCIPSendRequestedWatcher (Source l) !! txHash);
        [|done].
      case_decide; [|done]. intros _.
      rewrite (foldl_keeps Source); [apply lookup_delete_eq|].
      by intros ? [? ?].
    + intros now loc l _. unfold CCIPSendRequested_timer.
      destruct (IsConnectionRestoredRecently _) as [[]|];
        [|destruct (2 <? loc)%nat|]; done.
  - intros r at_ n lane' rest Hrun.
    refine (selectLoop_invariant _ _ (fun _ _ => True)
              (fun a _ l =>
                 a.2 = None -> ReportAcceptedWatcher (Dest l) !! seqNum = None)
              _ _ _ env 0 lane _ _ _ _ I Hrun eq_refl); [done| |].
    + intros now loc l _. unfold ReportAccepted_ticker.
      destruct (ReportAcceptedWatcher (Dest l) !! seqNum); [|done].
      intros _. apply lookup_delete_eq.
    + intros now loc l _. unfold ReportAccepted_timer.
      destruct (IsConnectionRestoredRecently _) as [[]|];
        [|destruct (2 <? loc)%nat|]; done.
  - intros at_ n lane' rest [arm Harm]. unfold AssertReportBlessed.
    rewrite Harm. intros Hrun.
    refine (selectLoop_invariant _ _ (fun _ _ => True)
              (fun a _ l =>
                 a.2 = None ->
                 ReportBlessedWatcher (Dest l) !! MerkleRoot report = None /\
                 (ReportBlessedBySeqNum (Dest l) !! seqNum = None \/
                  exists vLogs,
                    forall i,
                      (Min (ReportInterval report) <= i
                       <= Max (ReportInterval report))%N ->
                      ReportBlessedBySeqNum (Dest l) !! i = Some vLogs))
              _ _ _ env 0 lane _ _ _ _ I Hrun eq_refl); [done| |].
    + intros now loc l _. unfold ReportBlessed_ticker.
      destruct (ReportBlessedWatcher (Dest l) !! MerkleRoot report) as [v|] eqn:Hroot.
      * destruct (forRange _ _ _ _ _) as [bySeqNum|] eqn:Hrange;
          cbn [mbind option_bind]; [|done].
        intros _. split; [apply lookup_delete_eq|].
        right. exists v. intros i Hi.
        cbn [Dest withDest onStat setReportBlessedWatcher
             setReportBlessedBySeqNum ReportBlessedBySeqNum].
        by apply (forRange_covers v _ _ _ _ Hrange).
      * destruct (ReportBlessedBySeqNum (Dest l) !! seqNum); [|done].
        intros _. split; [exact Hroot|]. left. apply lookup_delete_eq.
    + intros now loc l _. unfold ReportBlessed_timer.
      destruct (IsConnectionRestoredRecently _) as [[]|];
        [|destruct (2 <? loc)%nat|]; done.
  - intros s n lane' rest Hrun.
    refine (selectLoop_invariant _ _ (fun _ _ => True)
              (fun a _ l =>
                 a.2 = None -> ExecStateChangedWatcher (Dest l) !! seqNum = None)
              _ _ _ env 0 lane _ _ _ _ I Hrun eq_refl); [done| |].
    + intros now loc l _. unfold ExecutionStateChanged_ticker.
      destruct (ExecStateChangedWatcher (Dest l) !! seqNum); [|done].
      case_decide; [|done]. intros _. apply lookup_delete_eq.
    + intros now loc l _. unfold ExecutionStateChanged_timer.
      destruct (IsConnectionRestoredRecently _) as [[]|];
        [|destruct (2 <? loc)%nat|]; done.
Qed.

Lemma background_NextSeqNumToCommit ev lane lane' :
  background ev lane = Some lane' ->
  NextSeqNumToCommit (Dest lane') = NextSeqNumToCommit (Dest lane).
Proof.
  destruct ev as [| |[e|e|e|e]|[]|[]|]; cbn [background StartEventWatchers_receive];
    try (by intros [= <-]).
  - destruct (forRange _ _ _ _ _); cbn; [by intros [= <-]|done].
  - destruct (ARM _); [case_decide|]; by intros [= <-].
Qed.

(** X8.  [AssertSeqNumberExecuted] records nothing when it succeeds:
    along any schedule, when it returns no error the statistics of the
    requests are as they were and the next sequence number kept for the
    commit store is above the one waited for; when it returns an error
    it has recorded a failure of the commit phase.  Either way the
    number kept for the commit store has not gone down. *)
Theorem AssertSeqNumberExecuted_success_records_nothing
    (seqNumberBefore : N) (timeout : Time.Duration) (timeNow : Time.t)
    (reqStat : nat) (env : list envEvent) (lane : CCIPLane)
    (err : error) (n : nat) (lane' : CCIPLane) (rest : list envEvent) :
  AssertSeqNumberExecuted seqNumberBefore timeout timeNow reqStat env lane
  = (Returned err, n, lane', rest) ->
  (NextSeqNumToCommit (Dest lane) <= NextSeqNumToCommit (Dest lane'))%N /\
  match err with
  | None =>
      Heap lane' = Heap lane /\
      (seqNumberBefore < NextSeqNumToCommit (Dest lane'))%N
  | Some _ =>
      is_Some (Heap lane !! reqStat) ->
      exists d, recorded lane' reqStat = Some (failure seqNumberBefore Commit d)
  end.
Proof.
  intros Hrun.
  refine (selectLoop_invariant _ _
            (fun _ l => Heap l = Heap lane /\
                        (NextSeqNumToCommit (Dest lane)
                         <= NextSeqNumToCommit (Dest l))%N)
            (fun a _ l =>
               (NextSeqNumToCommit (Dest lane) <= NextSeqNumToCommit (Dest l))%N /\
               match a with
               | None =>
                   Heap l = Heap lane /\
                   (seqNumberBefore < NextSeqNumToCommit (Dest l))%N
               | Some _ =>
                   is_Some (Heap lane !! reqStat) ->
                   exists d,
                     recorded l reqStat = Some (failure seqNumberBefore Commit d)
               end) _ _ _ env 0 lane _ _ _ _ (conj eq_refl (N.le_refl _)) Hrun).
  - intros ev loc l l' [<- Hnext] Hb.
    rewrite (background_NextSeqNumToCommit _ _ _ Hb).
    split; [by eapply background_Heap|done].
  - intros now loc l [Hheap Hnext]. unfold SeqNumberExecuted_ticker.
    destruct (N.ltb_spec seqNumberBefore (NextSeqNumToCommit (Dest l)))
      as [Hlt|Hge]; [done|].
    destruct (ExpectedNextSequenceNumber (Dest l)) as [seqNumberAfter|]; [|done].
    destruct (N.ltb_spec seqNumberBefore seqNumberAfter) as [Hlt'|Hge']; [|done].
    cbn [Dest withDest setNextSeqNumToCommit NextSeqNumToCommit Heap].
    split; [lia|]. done.
  - intros now loc l [Hheap Hnext]. unfold SeqNumberExecuted_timer.
    assert (Hfail : is_Some (Heap lane !! reqStat) ->
              exists d,
                recorded (onStat reqStat
                            (UpdateState seqNumberBefore Commit
                               (Time.Since now timeNow) Failure None) l) reqStat
                = Some (failure seqNumberBefore Commit d)).
    { rewrite <- Hheap. intros [st Hst]. eexists.
      by apply (recorded_onStat_eq _ _ st). }
    destruct (IsConnectionRestoredRecently _) as [[]|];
      [|destruct (2 <? loc)%nat|]; done.
Qed.

Lemma AssertSeqNumberExecuted_success_records_nothing_witness :
  let lane := Scenario.lane None None in
  let run := AssertSeqNumberExecuted 7 (Scenario.second 300) (Scenario.second 2) 0
               [TickerC (Scenario.second 3); CommitStoreMoved (Some 10%N);
                TickerC (Scenario.second 4)] lane in
  run.1.1.1 = Returned None /\
  (NextSeqNumToCommit (Dest lane) <= NextSeqNumToCommit (Dest run.1.2))%N /\
  Heap run.1.2 = Heap lane /\ (7 < NextSeqNumToCommit (Dest run.1.2))%N.
Proof.
  intros lane run. split; [reflexivity|].
  apply (AssertSeqNumberExecuted_success_records_nothing 7 (Scenario.second 300)
           (Scenario.second 2) 0
           [TickerC (Scenario.second 3); CommitStoreMoved (Some 10%N);
            TickerC (Scenario.second 4)] lane None 0 run.1.2 []).
  reflexivity.
Defined.


(** X9.  A report accepted for an interval that ends below the
    largest [uint64] is stored under every sequence number of the
    interval and under no other; a wait for any number of the interval
    then returns the report at its first tick and removes the entry of
    that number only. *)
Theorem ReportAccepted_event_serves_its_interval
    (e : ReportAccepted) (lane : CCIPLane) :
  (Max (ReportInterval (Report e)) < MaxUint64)%N ->
  exists lane',
    StartEventWatchers_receive (reportAcceptedEvent e) lane = Some lane' /\
    (forall i,
       ReportAcceptedWatcher (Dest lane') !! i
       = if decide (Min (ReportInterval (Report e)) <= i
                    <= Max (ReportInterval (Report e)))%N
         then Some e
         else ReportAcceptedWatcher (Dest lane) !! i) /\
    forall j timeout prevEventAt reqStat now env,
      (Min (ReportInterval (Report e)) <= j
       <= Max (ReportInterval (Report e)))%N ->
      exists lane'',
        AssertEventReportAccepted j timeout prevEventAt reqStat
          (TickerC now :: env) lane'
        = (Returned (Some (Report e),
                     headerTime (Dest lane) (acceptedRaw e) now, None),
           0, lane'', env) /\
        forall i,
          ReportAcceptedWatcher (Dest lane'') !! i
          = if decide (i = j) then None
            else ReportAcceptedWatcher (Dest lane') !! i.
Proof.
  intros Hmax.
  destruct (forRange_ends e
              (rangeFuel (Min (ReportInterval (Report e)))
                 (Max (ReportInterval (Report e))))
              (Min (ReportInterval (Report e)))
              (Max (ReportInterval (Report e)))
              (ReportAcceptedWatcher (Dest lane)) Hmax)
    as (m' & Hrange & Hlookup); [apply rangeFuel_enough|].
  eexists. split; [|split].
  - cbn [StartEventWatchers_receive]. rewrite Hrange. reflexivity.
  - exact Hlookup.
  - intros j timeout prevEventAt reqStat now env Hj.
    eexists. unfold AssertEventReportAccepted. cbn [selectLoop].
    unfold ReportAccepted_ticker.
    cbn [Dest withDest setReportAcceptedWatcher ReportAcceptedWatcher].
    rewrite Hlookup, decide_True by done.
    split; [reflexivity|]. intros i.
    cbn [Dest withDest onStat setReportAcceptedWatcher ReportAcceptedWatcher].
    destruct (decide (i = j)) as [->|Hne].
    + apply lookup_delete_eq.
    + by apply lookup_delete_ne.
Qed.

Lemma ReportAccepted_event_serves_its_interval_witness :
  exists lane',
    StartEventWatchers_receive (reportAcceptedEvent (Scenario.accepted 5))
      (Scenario.lane None None) = Some lane' /\
    (fun i => Report <$> ReportAcceptedWatcher (Dest lane') !! i)
      <$> [4; 5; 9; 10]%N
    = [None; Some Scenario.report; Some Scenario.report; None].
Proof.
  destruct (ReportAccepted_event_serves_its_interval (Scenario.accepted 5)
              (Scenario.lane None None)) as (lane' & Hrecv & Hlookup & _);
    [reflexivity|].
  exists lane'. split; [exact Hrecv|].
  cbn [fmap list_fmap]. rewrite !Hlookup. reflexivity.
Defined.

(** X10.  An execution in another state than the expected one fails
    the wait at the first tick that sees it, without waiting for the
    timeout: the wait returns the state with an error that is no
    possible RPC issue, a failure is recorded, and the event is
    consumed. *)
Theorem ExecutionStateChanged_wrong_state_fails_at_once
    (seqNum : N) (timeout : Time.Duration) (timeNow : Time.t) (reqStat : nat)
    (execState : N) (now : Time.t) (env : list envEvent) (lane : CCIPLane)
    (e : ExecutionStateChanged) (st : RequestStat) :
  ExecStateChangedWatcher (Dest lane) !! seqNum = Some e ->
  State e <> execState ->
  Heap lane !! reqStat = Some st ->
  exists msg lane',
    AssertEventExecutionStateChanged seqNum timeout timeNow reqStat execState
      (TickerC now :: env) lane
    = (Returned (State e, Some msg), 0, lane', env) /\
    classify msg = ProtocolAbsence /\
    recorded lane' reqStat
    = Some (failure seqNum ExecStateChanged (Time.Since now timeNow)) /\
    ExecStateChangedWatcher (Dest lane') !! seqNum = None.
Proof.
  intros He Hstate Hst.
  unfold AssertEventExecutionStateChanged. cbn [selectLoop].
  unfold ExecutionStateChanged_ticker. rewrite He, decide_False by done.
  eexists _, _. split; [reflexivity|]. split; [reflexivity|]. split.
  - by apply (recorded_onStat_eq _ _ st).
  - apply lookup_delete_eq.
Qed.

Lemma ExecutionStateChanged_wrong_state_fails_at_once_witness :
  let lane := Scenario.after [Delivered (execStateChangedEvent (Scenario.executed 8))]
                (Scenario.lane (Some 88%N) None) in
  exists msg lane',
    AssertEventExecutionStateChanged 7 (Scenario.second 300) (Scenario.second 7)
      0 3 [TickerC (Scenario.second 9)] lane
    = (Returned (2%N, Some msg), 0, lane', []) /\
    classify msg = ProtocolAbsence /\
    recorded lane' 0
    = Some (failure 7 ExecStateChanged
              (Time.Since (Scenario.second 9) (Scenario.second 7))) /\
    ExecStateChangedWatcher (Dest lane') !! 7%N = None.
Proof.
  intros lane.
  apply (ExecutionStateChanged_wrong_state_fails_at_once 7 (Scenario.second 300)
           (Scenario.second 7) 0 3 (Scenario.second 9) [] lane
           (Scenario.executed 8) Scenario.request);
    [reflexivity | discriminate | reflexivity].
Defined.

Lemma receive_again_same_witness :
  let lane := Scenario.lane (Some 88%N) None in
  exists lane1,
    StartEventWatchers_receive (reportAcceptedEvent (Scenario.accepted 5)) lane
    = Some lane1 /\
    StartEventWatchers_receive (reportAcceptedEvent (Scenario.accepted 5)) lane1
    = Some lane1.
Proof.
  intros lane. eexists. split; [reflexivity|].
  apply (receive_again_same (reportAcceptedEvent (Scenario.accepted 5)) lane);
    reflexivity.
Defined.

Lemma finalized_keeps_SeqNum (g : RequestStat -> RequestStat)
    (reqStats : list nat) :
  (forall st, SeqNum (g st) = SeqNum st) ->
  forall lane r,
    SeqNum <$> Heap (foldl (fun lane stat => onStat stat g lane) lane reqStats) !! r
    = SeqNum <$> Heap lane !! r.
Proof.
  intros Hg. induction reqStats as [|stat reqStats IH]; intros lane r; [done|].
  cbn [foldl]. rewrite IH. cbn [onStat Heap].
  destruct (decide (stat = r)) as [->|Hne].
  - rewrite list_lookup_alter_eq. destruct (Heap lane !! r); cbn; [|done].
    by rewrite Hg.
  - by rewrite list_lookup_alter_ne.
Qed.

Lemma finalized_recorded (g : RequestStat -> RequestStat) (p : N -> PhaseStat)
    (reqStats : list nat) :
  (forall st, SeqNum (g st) = SeqNum st) ->
  (forall st, last (StatusByPhase (g st)) = Some (p (SeqNum st))) ->
  forall lane r st,
    Heap lane !! r = Some st ->
    r ∈ reqStats \/ recorded lane r = Some (p (SeqNum st)) ->
    recorded (foldl (fun lane stat => onStat stat g lane) lane reqStats) r
    = Some (p (SeqNum st)).
Proof.
  intros Hseq Hg. induction reqStats as [|stat reqStats IH];
    intros lane r st Hst Hin.
  - destruct Hin as [Hin|Hrec]; [by apply elem_of_nil in Hin|done].
  - cbn [foldl].
    destruct (decide (stat = r)) as [->|Hne].
    + rewrite <- (Hseq st). apply (IH _ _ (g st)).
      * cbn [onStat Heap]. by rewrite list_lookup_alter_eq, Hst.
      * right. unfold recorded. cbn [onStat Heap].
        rewrite list_lookup_alter_eq, Hst. cbn. by rewrite Hg, Hseq.
    + apply IH.
      * cbn [onStat Heap]. by rewrite list_lookup_alter_ne.
      * destruct Hin as [Hin|Hrec].
        -- left. apply elem_of_cons in Hin as [->|Hin]; done.
        -- right. by rewrite recorded_onStat_ne.
Qed.

(** X11.  [AssertSendRequestedLogFinalized] records the outcome for
    every request of the transaction and keeps the sequence number each
    request had: the latest record of each is one of the phase
    [SourceLogFinalized], a success exactly when no error is returned,
    under the sequence number of the request; the stores of the lane
    are untouched. *)
Theorem AssertSendRequestedLogFinalized_records_every_request
    (txHash : string) (prevEventAt : Time.t) (reqStats : list nat)
    (lane : CCIPLane) (r : nat) (st : RequestStat) :
  r ∈ reqStats ->
  Heap lane !! r = Some st ->
  let run := AssertSendRequestedLogFinalized txHash prevEventAt reqStats lane in
  agrees run.2 r SourceLogFinalized run.1.2 /\
  phaseSeqNum <$> recorded run.2 r = Some (SeqNum st) /\
  SeqNum <$> Heap run.2 !! r = Some (SeqNum st) /\
  Source run.2 = Source lane /\ Dest run.2 = Dest lane.
Proof.
  intros Hin Hst run. subst run. unfold AssertSendRequestedLogFinalized.
  destruct (WaitForFinalizedTx _ txHash) as [[finalizedBlockNum finalizedAt]|now];
    cbn [fst snd].
  - set (tx := Some _).
    set (g := fun st => UpdateState (SeqNum st) SourceLogFinalized
                          (Time.Sub finalizedAt prevEventAt) Success tx st).
    set (p := fun n => {| phaseSeqNum := n; phase := SourceLogFinalized;
                          Duration := Time.Sub finalizedAt prevEventAt;
                          status := Success; SendTransactionStats := tx |}).
    assert (Hrec := finalized_recorded g p reqStats (fun _ => eq_refl)
                      (fun st => last_snoc _ _) lane r st Hst (or_introl Hin)).
    split; [|split; [|split; [|split]]].
    + eexists. split; [exact Hrec|]. done.
    + by rewrite Hrec.
    + rewrite (finalized_keeps_SeqNum g reqStats (fun _ => eq_refl)).
      by rewrite Hst.
    + by apply (foldl_keeps Source).
    + by apply (foldl_keeps Dest).
  - set (g := fun st => UpdateState (SeqNum st) SourceLogFinalized
                          (Time.Since now prevEventAt) Failure None st).
    set (p := fun n => {| phaseSeqNum := n; phase := SourceLogFinalized;
                          Duration := Time.Since now prevEventAt;
                          status := Failure; SendTransactionStats := None |}).
    assert (Hrec := finalized_recorded g p reqStats (fun _ => eq_refl)
                      (fun st => last_snoc _ _) lane r st Hst (or_introl Hin)).
    split; [|split; [|split; [|split]]].
    + eexists. split; [exact Hrec|]. done.
    + by rewrite Hrec.
    + rewrite (finalized_keeps_SeqNum g reqStats (fun _ => eq_refl)).
      by rewrite Hst.
    + by apply (foldl_keeps Source).
    + by apply (foldl_keeps Dest).
Qed.


Lemma AssertSendRequestedLogFinalized_records_every_request_witness :
  let run := AssertSendRequestedLogFinalized "0xabc" (Scenario.second 1) [0]
               (Scenario.lane None None) in
  agrees run.2 0 SourceLogFinalized run.1.2 /\
  phaseSeqNum <$> recorded run.2 0 = Some 0%N /\
  SeqNum <$> Heap run.2 !! 0 = Some 0%N /\
  Source run.2 = Source (Scenario.lane None None) /\
  Dest run.2 = Dest (Scenario.lane None None).
Proof.
  apply (AssertSendRequestedLogFinalized_records_every_request "0xabc"
           (Scenario.second 1) [0] (Scenario.lane None None) 0 Scenario.request);
    [apply list_elem_of_here | reflexivity].
Defined.

End FurtherWaitFacts.

Section ModelFacts.
Import model.

Lemma decode_encode_byte (v : Byte.byte) :
  hex.fromHexChar (hex.digit (N.shiftr (Byte.to_N v) 4)) = Some (N.shiftr (Byte.to_N v) 4) /\
  hex.fromHexChar (hex.digit (N.land (Byte.to_N v) 15)) = Some (N.land (Byte.to_N v) 15) /\
  hex.uint8 (N.lor (N.shiftl (N.shiftr (Byte.to_N v) 4) 4) (N.land (Byte.to_N v) 15)) = v.
Proof. destruct v; vm_compute; done. Qed.

Lemma DecodeString_EncodeToString (src : list Byte.byte) :
  hex.DecodeString (hex.EncodeToString src) = (src, None).
Proof.
  induction src as [|v src IH]; [done|].
  cbn [hex.EncodeToString hex.DecodeString].
  destruct (decode_encode_byte v) as (-> & -> & ->).
  by rewrite IH.
Qed.


Lemma append_nil (s : string) : "" +:+ s = s.
Proof. reflexivity. Qed.

Lemma append_cons (c : Ascii.ascii) (s1 s2 : string) :
  String.String c s1 +:+ s2 = String.String c (s1 +:+ s2).
Proof. reflexivity. Qed.

Lemma length_append (s1 s2 : string) :
  String.length (s1 +:+ s2) = String.length s1 + String.length s2.
Proof.
  induction s1 as [|c s1 IH]; [done|].
  rewrite append_cons. cbn [String.length]. by rewrite IH.
Qed.

Lemma substring_append (s1 s2 : string) :
  String.substring 0 (String.length s1) (s1 +:+ s2) = s1.
Proof.
  induction s1 as [|c s1 IH]; [by destruct s2|].
  rewrite append_cons. cbn [String.length String.substring]. by rewrite IH.
Qed.

Lemma substring_all (s : string) :
  String.substring 0 (String.length s) s = s.
Proof. induction s as [|c s IH]; cbn; [done|]. by rewrite IH. Qed.

(** What is left of a text between a first and a last character. *)
Lemma slice_inner (c1 c2 : Ascii.ascii) (s : string) :
  let v := String.String c1 (s +:+ String.String c2 "") in
  slice 1 (String.length v - 1) v = s.
Proof.
  intros v. subst v. unfold slice. cbn [String.length].
  rewrite length_append. cbn [String.length].
  replace (S (String.length s + 1) - 1 - 1) with (String.length s) by lia.
  cbn [String.substring]. apply substring_append.
Qed.

Lemma slice_tail (c1 c2 : Ascii.ascii) (s : string) :
  let inner := String.String c1 (String.String c2 s) in
  slice 2 (String.length inner) inner = s.
Proof.
  intros inner. subst inner. unfold slice. cbn [String.length].
  replace (S (S (String.length s)) - 2) with (String.length s) by lia.
  cbn [String.substring]. apply substring_all.
Qed.

Lemma length_wrapped (c1 c2 : Ascii.ascii) (s : string) (n : nat) :
  n <= 2 ->
  (String.length (String.String c1 (s +:+ String.String c2 "")) <? n)%nat
  = false.
Proof.
  intros Hn. apply Nat.ltb_ge. cbn [String.length].
  rewrite length_append. cbn [String.length]. lia.
Qed.

Lemma Bytes32_UnmarshalJSON_inner (c1 c2 c3 c4 : Ascii.ascii) (s : string)
    (m : Bytes32) :
  Bytes32_UnmarshalJSON
    (String.String c1 (String.String c2 (String.String c3
       (s +:+ String.String c4 "")))) m
  = match hex.DecodeString s with
    | (_, Some e) => (Some (hexError e), m)
    | (b, None) => (None, copy m b)
    end.
Proof.
  change (String.String c1 (String.String c2 (String.String c3
            (s +:+ String.String c4 ""))))
    with (String.String c1 (String.String c2 (String.String c3 s)
                              +:+ String.String c4 "")).
  unfold Bytes32_UnmarshalJSON.
  rewrite slice_inner.
  replace (String.length _ <? 4)%nat with false.
  2:{ symmetry. apply Nat.ltb_ge. cbn [String.length].
      rewrite length_append. cbn [String.length]. lia. }
  rewrite slice_tail. by destruct (hex.DecodeString s) as [b [e|]].
Qed.

(** X12.  The JSON form of a [Bytes32] is read back as the same 32
    bytes, whatever the receiver held. *)
Theorem Bytes32_JSON_round_trip (m m0 : Bytes32) :
  length m = 32 -> length m0 = 32 ->
  Bytes32_UnmarshalJSON (Bytes32_MarshalJSON m).1 m0 = (None, m).
Proof.
  intros Hm Hm0. cbn [Bytes32_MarshalJSON fst]. unfold Bytes32_String, quote.
  rewrite ?append_cons, ?append_nil.
  rewrite Bytes32_UnmarshalJSON_inner, DecodeString_EncodeToString.
  unfold copy. by rewrite take_ge, drop_ge, app_nil_r by lia.
Qed.

Lemma Bytes32_JSON_round_trip_witness :
  Bytes32_UnmarshalJSON (Bytes32_MarshalJSON (replicate 32 Byte.x5a)).1
    (replicate 32 Byte.x00)
  = (None, replicate 32 Byte.x5a).
Proof.
  apply (Bytes32_JSON_round_trip (replicate 32 Byte.x5a) (replicate 32 Byte.x00));
    reflexivity.
Defined.

(** X13.  [UnmarshalJSON] of a [Bytes32] copies as many bytes as fit:
    a text of fewer bytes than the receiver overwrites its first bytes
    and leaves the others as they were, a text of more bytes is cut
    to the length of the receiver; neither is an error. *)
Theorem Bytes32_UnmarshalJSON_copies_a_prefix (b : list Byte.byte) (m : Bytes32) :
  let data := quote +:+ "0x" +:+ hex.EncodeToString b +:+ quote in
  (length b <= length m ->
   Bytes32_UnmarshalJSON data m = (None, b ++ drop (length b) m)) /\
  (length m <= length b ->
   Bytes32_UnmarshalJSON data m = (None, take (length m) b)).
Proof.
  intros data. subst data. unfold quote. rewrite ?append_cons, ?append_nil.
  rewrite Bytes32_UnmarshalJSON_inner, DecodeString_EncodeToString.
  unfold copy. split; intros Hlen.
  - by rewrite take_ge.
  - by rewrite drop_ge, app_nil_r.
Qed.

(** X14.  Neither [UnmarshalJSON] looks at what it strips: the first
    three characters and the last one of a [Bytes32] text, and the
    first and the last character of a [BigInt] text other than [null],
    may be any characters. *)
Theorem UnmarshalJSON_does_not_check_the_wrapping :
  (forall (c1 c2 c3 c4 : Ascii.ascii) (s : string) (m : Bytes32),
     Bytes32_UnmarshalJSON
       (String.String c1 (String.String c2 (String.String c3
          (s +:+ String.String c4 "")))) m
     = Bytes32_UnmarshalJSON (quote +:+ "0x" +:+ s +:+ quote) m) /\
  (forall (c1 c2 : Ascii.ascii) (s : string) (b : BigInt.t),
     String.String c1 (s +:+ String.String c2 "") <> "null" ->
     BigInt_UnmarshalJSON (String.String c1 (s +:+ String.String c2 "")) b
     = BigInt_UnmarshalJSON (quote +:+ s +:+ quote) b).
Proof.
  split.
  - intros. unfold quote. rewrite ?append_cons, ?append_nil.
    by rewrite !Bytes32_UnmarshalJSON_inner.
  - intros c1 c2 s b Hnull. unfold BigInt_UnmarshalJSON, quote.
    rewrite ?append_cons, ?append_nil. rewrite !slice_inner.
    destruct (String.eqb_spec (String.String c1 (s +:+ String.String c2 ""))
                "null") as [|_]; [done|].
    by rewrite !length_wrapped.
Qed.

Lemma SetString_String (z : Z) : BigInt.SetString (BigInt.String (Some z)) = Some z.
Proof.
  unfold BigInt.SetString, BigInt.String.
  assert (Hplus : String.prefix "+" (NilZero.string_of_int (Z.to_int z)) = false).
  { destruct (Z.to_int z) as [d|d]; [|done].
    cbn [NilZero.string_of_int]. destruct d; done. }
  rewrite Hplus, parse_String. cbn. by rewrite DecimalZ.of_to.
Qed.

(** X15.  The JSON form of a [BigInt] is read back as the same
    number exactly when the [BigInt] is not empty: the form of the empty
    one is not accepted. *)
Theorem BigInt_JSON_round_trip_iff_not_empty (b b0 : BigInt.t) :
  BigInt_UnmarshalJSON (BigInt_MarshalJSON b).1 b0 = (None, b)
  <-> BigInt_IsEmpty b = false.
Proof.
  cbn [BigInt_MarshalJSON fst]. unfold BigInt_UnmarshalJSON, quote.
  rewrite ?append_cons, ?append_nil. rewrite slice_inner.
  rewrite length_wrapped by done.
  destruct b as [z|].
  - rewrite SetString_String. cbn. done.
  - cbn. done.
Qed.

End ModelFacts.

Section LookingFacts.
Context (entriesOfN : forall V : Type, gmap N V -> list (N * V)).
Context (entriesOfTx : forall V : Type, gmap string V -> list (string * V)).
Import DestCCIPModule.

Lemma Range_no_hit {K : Type} (f : K -> any -> option Time.t -> bool * option Time.t)
    (entries : list (K * any)) :
  (forall key value, (key, value) ∈ entries -> forall s, f key value s = (true, s)) ->
  forall s, Range f entries s = s.
Proof.
  induction entries as [|[key value] entries IH]; intros Hf s; [done|].
  cbn [Range]. rewrite Hf by apply list_elem_of_here.
  apply IH. intros. apply Hf. by apply list_elem_of_further.
Qed.

(** X16.  [AssertNoReportAcceptedEventReceived] never reports a
    report: it looks in the store of accepted reports for values of the
    type of an execution event, finds none, and so behaves on every
    schedule and every lane as the loop that only waits for the time
    range to pass. *)
Theorem AssertNoReportAcceptedEventReceived_only_waits
    (timeRange : Time.Duration) (lastSeenTimestamp : Time.t)
    (env : list envEvent) (lane : CCIPLane) :
  AssertNoReportAcceptedEventReceived entriesOfN timeRange lastSeenTimestamp
    env lane
  = selectLoop (fun _ loc lane => (Continue, loc, lane)) nothingDetected
      env tt lane.
Proof.
  unfold AssertNoReportAcceptedEventReceived. generalize tt.
  revert lane. induction env as [|ev env IH]; intros lane loc; [done|].
  assert (Htick : forall now l,
            NoReportAccepted_ticker entriesOfN lastSeenTimestamp now loc l
            = (Continue, loc, l)).
  { intros now l. unfold NoReportAccepted_ticker.
    rewrite Range_no_hit; [done|].
    intros key value Hin s.
    apply list_elem_of_fmap in Hin as ([k e] & [= -> ->] & _). done. }
  destruct ev; cbn [selectLoop]; rewrite ?Htick; try done; try apply IH;
    (destruct (background _ lane); [apply IH|done]).
Qed.


(** A callback that stops at the first entry with a hit finds a hit of
    some entry, or there is none. *)
Lemma Range_first {K : Type}
    (f : K -> any -> option Time.t -> bool * option Time.t)
    (P : K -> any -> Time.t -> Prop) (entries : list (K * any)) :
  (forall key value s,
     (exists timestamp, P key value timestamp /\
                        f key value s = (false, Some timestamp)) \/
     ((forall timestamp, ~ P key value timestamp) /\ f key value s = (true, s))) ->
  match Range f entries None with
  | Some timestamp => exists key value, (key, value) ∈ entries /\ P key value timestamp
  | None => forall key value timestamp, (key, value) ∈ entries -> ~ P key value timestamp
  end.
Proof.
  intros Hf. induction entries as [|[key value] entries IH].
  - cbn. intros key value timestamp Hin. by apply elem_of_nil in Hin.
  - cbn [Range].
    destruct (Hf key value None) as [(timestamp & HP & ->)|[HnP ->]].
    + exists key, value. split; [apply list_elem_of_here|done].
    + destruct (Range f entries None) as [timestamp|].
      * destruct IH as (k & v & Hin & HP). exists k, v.
        split; [by apply list_elem_of_further|done].
      * intros k v timestamp Hin.
        apply elem_of_cons in Hin as [[= -> ->]|Hin]; [apply HnP|by eapply IH].
Qed.

Lemma eventAfter_cases (destCCIP : t) (lastSeenTimestamp : Time.t)
    (key : N) (value : any) (s : option Time.t) :
  let P (_ : N) value timestamp :=
    exists e, value = anyExecutionStateChanged e /\
      HeaderByNumber (ChainClient (Common destCCIP))
        (int64 (BlockNumber (execRaw e))) = Some timestamp /\
      (lastSeenTimestamp < timestamp)%Z in
  (exists timestamp, P key value timestamp /\
     eventAfter destCCIP lastSeenTimestamp key value s = (false, Some timestamp)) \/
  ((forall timestamp, ~ P key value timestamp) /\
   eventAfter destCCIP lastSeenTimestamp key value s = (true, s)).
Proof.
  intros P. subst P. unfold eventAfter.
  destruct value as [| | |e]; try (right; split; [intros ? (? & [=] & _)|done]).
  destruct (HeaderByNumber _ _) as [timestamp|] eqn:Hhdr.
  - destruct (Z.ltb_spec lastSeenTimestamp timestamp) as [Hlt|Hge].
    + left. exists timestamp. split; [by exists e|done].
    + right. split; [|done]. intros ts (e' & [= <-] & Hhdr' & Hlt).
      rewrite Hhdr in Hhdr'. injection Hhdr' as <-. lia.
  - right. split; [|done]. intros ts (e' & [= <-] & Hhdr' & _).
    by rewrite Hhdr in Hhdr'.
Qed.

Section Order.

(** The map yields every entry once, in some order. *)
Hypothesis entriesOfN_perm :
  forall (V : Type) (m : gmap N V), entriesOfN V m ≡ₚ map_to_list m.
Hypothesis entriesOfTx_perm :
  forall (V : Type) (m : gmap string V), entriesOfTx V m ≡ₚ map_to_list m.

Lemma NoExecutionStateChanged_ticker_cases (lastSeenTimestamp : Time.t)
    (lane : CCIPLane) :
  match Range (eventAfter (Dest lane) lastSeenTimestamp)
          (prod_map id anyExecutionStateChanged
             <$> entriesOfN _ (ExecStateChangedWatcher (Dest lane))) None with
  | Some timestamp => executedAfter lane lastSeenTimestamp timestamp
  | None => forall timestamp, ~ executedAfter lane lastSeenTimestamp timestamp
  end.
Proof using entriesOfN_perm.
  pose proof (Range_first _ _
                (prod_map id anyExecutionStateChanged
                   <$> entriesOfN _ (ExecStateChangedWatcher (Dest lane)))
                (fun key value s =>
                   eventAfter_cases (Dest lane) lastSeenTimestamp key value s))
    as Hrange.
  destruct (Range _ _ None) as [timestamp|].
  - destruct Hrange as (key & value & Hin & e & -> & Hhdr & Hlt).
    apply list_elem_of_fmap in Hin as ([k e'] & [= -> ->] & Hin).
    rewrite entriesOfN_perm in Hin. apply elem_of_map_to_list in Hin.
    by exists k, e'.
  - intros timestamp (seqNum & e & Hl & Hhdr & Hlt).
    apply (Hrange seqNum (anyExecutionStateChanged e) timestamp).
    + apply list_elem_of_fmap. exists (seqNum, e). split; [done|].
      rewrite entriesOfN_perm. by apply elem_of_map_to_list.
    + by exists e.
Qed.

(** X17.  [AssertNoExecutionStateChangedEventReceived] reports an
    execution exactly when there is one to report.  At a tick, if the
    store holds an event whose block has a header with a timestamp after
    [lastSeenTimestamp], it returns an error for such an event, whatever
    the order in which the map yields its entries; if there is none, the
    tick changes nothing.  Along any schedule, an error returned is for
    an event that the store held at that moment. *)
Theorem AssertNoExecutionStateChangedEventReceived_detects
    (timeRange : Time.Duration) (lastSeenTimestamp : Time.t)
    (env : list envEvent) (lane : CCIPLane) :
  (forall now,
     (exists timestamp, executedAfter lane lastSeenTimestamp timestamp) ->
     exists timestamp,
       executedAfter lane lastSeenTimestamp timestamp /\
       AssertNoExecutionStateChangedEventReceived entriesOfN timeRange
         lastSeenTimestamp (TickerC now :: env) lane
       = (Returned (Some {| detectedKind := "ExecutionStateChanged";
                            detectedAt := lastSeenTimestamp;
                            detectedAfter := timestamp |}), tt, lane, env)) /\
  (forall now,
     (forall timestamp, ~ executedAfter lane lastSeenTimestamp timestamp) ->
     AssertNoExecutionStateChangedEventReceived entriesOfN timeRange
       lastSeenTimestamp (TickerC now :: env) lane
     = AssertNoExecutionStateChangedEventReceived entriesOfN timeRange
         lastSeenTimestamp env lane) /\
  (forall d loc' lane' rest,
     AssertNoExecutionStateChangedEventReceived entriesOfN timeRange
       lastSeenTimestamp env lane
     = (Returned (Some d), loc', lane', rest) ->
     detectedAt d = lastSeenTimestamp /\
     executedAfter lane' lastSeenTimestamp (detectedAfter d)).
Proof using entriesOfN_perm.
  split; [|split].
  - intros now [ts Hts].
    unfold AssertNoExecutionStateChangedEventReceived. cbn [selectLoop].
    unfold NoExecutionStateChanged_ticker.
    pose proof (NoExecutionStateChanged_ticker_cases lastSeenTimestamp lane)
      as Hcases.
    destruct (Range _ _ None) as [timestamp|]; [by exists timestamp|].
    by destruct (Hcases ts).
  - intros now Hnone.
    unfold AssertNoExecutionStateChangedEventReceived. cbn [selectLoop].
    unfold NoExecutionStateChanged_ticker.
    pose proof (NoExecutionStateChanged_ticker_cases lastSeenTimestamp lane)
      as Hcases.
    destruct (Range _ _ None) as [timestamp|]; [|done].
    by destruct (Hnone timestamp).
  - intros d loc' lane' rest Hrun.
    refine (selectLoop_invariant _ _ (fun _ _ => True)
              (fun a _ l =>
                 match a with
                 | Some d => detectedAt d = lastSeenTimestamp /\
                             executedAfter l lastSeenTimestamp (detectedAfter d)
                 | None => True
                 end) _ _ _ env tt lane _ _ _ _ I Hrun); [done| |done].
    intros now loc l _. unfold NoExecutionStateChanged_ticker.
    pose proof (NoExecutionStateChanged_ticker_cases lastSeenTimestamp l)
      as Hcases.
    destruct (Range _ _ None) as [timestamp|]; done.
Qed.

Lemma triggeredAfter_cases (client : EVMClient) (lastSeenTimestamp : Time.t)
    (events : list CCIPSendRequested) (s : option Time.t) :
  let P e timestamp :=
    HeaderByNumber client (int64 (BlockNumber (sendRaw e))) = Some timestamp /\
    (lastSeenTimestamp < timestamp)%Z in
  (exists timestamp e, e ∈ events /\ P e timestamp /\
     triggeredAfter client lastSeenTimestamp events s = (false, Some timestamp)) \/
  ((forall e timestamp, e ∈ events -> ~ P e timestamp) /\
   triggeredAfter client lastSeenTimestamp events s = (true, s)).
Proof.
  intros P. subst P. induction events as [|e events IH].
  - right. split; [|done]. intros e ts Hin. by apply elem_of_nil in Hin.
  - cbn [triggeredAfter].
    assert (Hrest :
      (forall ts, HeaderByNumber client (int64 (BlockNumber (sendRaw e))) = Some ts ->
                  ~ (lastSeenTimestamp < ts)%Z) ->
      (exists timestamp e0, e0 ∈ e :: events /\
         (HeaderByNumber client (int64 (BlockNumber (sendRaw e0))) = Some timestamp /\
          (lastSeenTimestamp < timestamp)%Z) /\
         triggeredAfter client lastSeenTimestamp events s = (false, Some timestamp)) \/
      ((forall e0 timestamp, e0 ∈ e :: events ->
          ~ (HeaderByNumber client (int64 (BlockNumber (sendRaw e0))) = Some timestamp /\
             (lastSeenTimestamp < timestamp)%Z)) /\
       triggeredAfter client lastSeenTimestamp events s = (true, s))).
    { intros Hhead. destruct IH as [(ts & e0 & Hin & HP & Heq)|[Hnone Heq]].
      - left. exists ts, e0. split; [by apply list_elem_of_further|done].
      - right. split; [|done]. intros e0 ts Hin [Hhdr Hlt].
        apply elem_of_cons in Hin as [->|Hin].
        + by apply (Hhead ts).
        + by apply (Hnone e0 ts). }
    destruct (HeaderByNumber client (int64 (BlockNumber (sendRaw e))))
      as [timestamp|] eqn:Hhdr.
    + destruct (Z.ltb_spec lastSeenTimestamp timestamp) as [Hlt|Hge].
      * left. exists timestamp, e. split; [apply list_elem_of_here|done].
      * apply Hrest. intros ts [= <-]. lia.
    + apply Hrest. by intros ts [=].
Qed.

(** X18.  [IsRequestTriggeredWithinTimeframe] answers nil without a
    timeframe; with one, it answers the header timestamp of a stored
    request later than the present instant less the timeframe when
    there is such a request, and nil when there is none. *)
Theorem IsRequestTriggeredWithinTimeframe_finds_a_late_request
    (timeframe : Time.Duration) (now : Time.t) (sourceCCIP : SourceCCIPModule.t) :
  IsRequestTriggeredWithinTimeframe entriesOfTx None now sourceCCIP = None /\
  match IsRequestTriggeredWithinTimeframe entriesOfTx (Some timeframe) now
          sourceCCIP with
  | Some foundAt =>
      requestedAfter sourceCCIP (now + negDuration timeframe) foundAt
  | None =>
      forall timestamp,
        ~ requestedAfter sourceCCIP (now + negDuration timeframe) timestamp
  end.
Proof using entriesOfTx_perm.
  split; [done|]. unfold IsRequestTriggeredWithinTimeframe.
  set (lastSeenTimestamp := (now + negDuration timeframe)%Z).
  set (client := ChainClient (SourceCCIPModule.Common sourceCCIP)).
  pose proof (Range_first
    (fun (_ : string) value foundAt =>
       match value with
       | anySendRequested sendRequestedEvents =>
           triggeredAfter client lastSeenTimestamp sendRequestedEvents foundAt
       | _ => (true, foundAt)
       end)
    (fun _ value timestamp =>
       exists events e, value = anySendRequested events /\ e ∈ events /\
         HeaderByNumber client (int64 (BlockNumber (sendRaw e))) = Some timestamp /\
         (lastSeenTimestamp < timestamp)%Z)
    (prod_map id anySendRequested
       <$> entriesOfTx _ (SourceCCIPModule.CCIPSendRequestedWatcher sourceCCIP)))
    as Hrange.
  lapply Hrange; clear Hrange.
  - intros Hrange. destruct (Range _ _ None) as [foundAt|].
    + destruct Hrange as (key & value & Hin & events & e & -> & He & Hhdr & Hlt).
      apply list_elem_of_fmap in Hin as ([k es] & [= -> ->] & Hin).
      rewrite entriesOfTx_perm in Hin. apply elem_of_map_to_list in Hin.
      by exists k, es, e.
    + intros timestamp (txHash & events & e & Hl & He & Hhdr & Hlt).
      apply (Hrange txHash (anySendRequested events) timestamp).
      * apply list_elem_of_fmap. exists (txHash, events). split; [done|].
        rewrite entriesOfTx_perm. by apply elem_of_map_to_list.
      * by exists events, e.
  - intros key value s.
    destruct value as [events| | |];
      try (right; split; [intros ? (? & ? & [=] & _)|done]).
    destruct (triggeredAfter_cases client lastSeenTimestamp events s)
      as [(ts & e & Hin & [Hhdr Hlt] & Heq)|[Hnone Heq]].
    + left. exists ts. split; [by exists events, e|done].
    + right. split; [|done]. intros ts (events' & e & [= <-] & Hin & Hhdr & Hlt).
      by apply (Hnone e ts).
Qed.

End Order.

End LookingFacts.

Lemma AssertNoExecutionStateChangedEventReceived_detects_witness :
  let lane := Scenario.after [Delivered (execStateChangedEvent (Scenario.executed 8))]
                (Scenario.lane None None) in
  exists timestamp,
    executedAfter lane (Scenario.second 5) timestamp /\
    AssertNoExecutionStateChangedEventReceived (fun V => map_to_list)
      (Scenario.second 60) (Scenario.second 5) [TickerC (Scenario.second 9)] lane
    = (Returned (Some {| detectedKind := "ExecutionStateChanged";
                         detectedAt := Scenario.second 5;
                         detectedAfter := timestamp |}), tt, lane, []).
Proof.
  intros lane.
  destruct (AssertNoExecutionStateChangedEventReceived_detects
              (fun V => map_to_list) (fun V m => reflexivity _)
              (Scenario.second 60) (Scenario.second 5) [] lane)
    as (Hdetect & _ & _).
  apply (Hdetect (Scenario.second 9)).
  exists (Scenario.second 8), 7%N, (Scenario.executed 8).
  split; [reflexivity|]. split; reflexivity.
Defined.

Lemma IsRequestTriggeredWithinTimeframe_finds_a_late_request_witness :
  let sourceCCIP := Source (Scenario.after [Delivered (sendReqEvent Scenario.sent)]
                              (Scenario.lane None None)) in
  IsRequestTriggeredWithinTimeframe (fun V => map_to_list)
    (Some (Scenario.second 20)) (Scenario.second 10) sourceCCIP
  = Some (Scenario.second 1) /\
  requestedAfter sourceCCIP
    (Scenario.second 10 + negDuration (Scenario.second 20)) (Scenario.second 1).
Proof.
  intros sourceCCIP. split; [reflexivity|].
  pose proof (IsRequestTriggeredWithinTimeframe_finds_a_late_request
                (fun V => map_to_list) (fun V m => reflexivity _)
                (Scenario.second 20) (Scenario.second 10) sourceCCIP)
    as [_ Hfound].
  exact Hfound.
Defined.

Section ResubscriptionFacts.

Lemma ticks_resubscribed startBlock (looks : list look) (s : subscriber) :
  Forall restored looks -> resubscribed s = true ->
  StartEventWatchers_ticks startBlock looks s = (s, []).
Proof.
  induction looks as [|l looks IH]; intros Hall Hs; [done|].
  apply Forall_cons in Hall as [[H1 H2] Hall].
  cbn [StartEventWatchers_ticks]. unfold StartEventWatchers_tick.
  rewrite H1, H2, Hs. destruct s as [held r]. cbn in Hs. subst r.
  cbn [sub]. by rewrite IH.
Qed.

(** X19.  While the connection counts as restored, a subscription
    goroutine that has not resubscribed asks the chain client to watch
    again, from the start block, at every look until its test of [err]
    after the call reads no error, and never after: with [n] looks at
    which the test reads an error before the first at which it reads
    none, it makes [n + 1] calls, whatever looks follow, and ends
    resubscribed, holding what the call of that last look gave.  As
    [err] is shared with the other goroutines and the function, what
    the test reads is the error of the call only if none of them
    assigned [err] in between. *)
Theorem resubscription_retries_until_it_succeeds
    (startBlock : N) (failures : list look) (success : look)
    (later : list look) (s : subscriber) :
  Forall restored (failures ++ success :: later) ->
  Forall (fun l => errTested l = true) failures ->
  errTested success = false ->
  resubscribed s = false ->
  exists calls,
    StartEventWatchers_ticks startBlock (failures ++ success :: later) s
    = ({| sub := (watchGives success).1; resubscribed := true |}, calls) /\
    filter isWatch calls
    = replicate (S (length failures)) (Watch (Some startBlock)).
Proof.
  intros Hall Hfail Hok Hs.
  revert s Hall Hfail Hs.
  induction failures as [|l failures IH]; intros s Hall Hfail Hs.
  - cbn [app] in *. apply Forall_cons in Hall as [[H1 H2] Hall].
    cbn [StartEventWatchers_ticks]. unfold StartEventWatchers_tick.
    rewrite H1, H2, Hs, Hok. cbn [negb].
    rewrite ticks_resubscribed by done.
    eexists. split; [reflexivity|].
    rewrite app_nil_r, filter_app. by destruct (sub s).
  - cbn [app] in *. apply Forall_cons in Hall as [[H1 H2] Hall].
    apply Forall_cons in Hfail as [Hl Hfail].
    cbn [StartEventWatchers_ticks]. unfold StartEventWatchers_tick.
    rewrite H1, H2, Hs, Hl. cbn [negb].
    destruct (IH {| sub := (watchGives l).1; resubscribed := false |}
                Hall Hfail eq_refl) as (calls & -> & Hcalls).
    eexists. split; [reflexivity|].
    rewrite !filter_app, Hcalls. by destruct (sub s).
Qed.

(** Three looks with the connection restored.  The first call fails;
    the second succeeds, but another goroutine's error is in [err] when
    the goroutine tests it, so that it calls a third time. *)
Lemma resubscription_retries_until_it_succeeds_witness :
  let failing := {| firstRead := Some true; secondRead := Some true;
                    watchGives := (None, true); assignedMeanwhile := None |} in
  let disturbed := {| firstRead := Some true; secondRead := Some true;
                      watchGives := (Some 5, false);
                      assignedMeanwhile := Some true |} in
  let working := {| firstRead := Some true; secondRead := Some true;
                    watchGives := (Some 2, false); assignedMeanwhile := None |} in
  StartEventWatchers_ticks 100 ([failing; disturbed] ++ working :: [working])
    {| sub := Some 1; resubscribed := false |}
  = ({| sub := Some 2; resubscribed := true |},
     [Unsubscribe 1; Watch (Some 100%N); Watch (Some 100%N);
      Unsubscribe 5; Watch (Some 100%N)]) /\
  exists calls,
    StartEventWatchers_ticks 100 ([failing; disturbed] ++ working :: [working])
      {| sub := Some 1; resubscribed := false |}
    = ({| sub := Some 2; resubscribed := true |}, calls) /\
    filter isWatch calls = replicate 3 (Watch (Some 100%N)).
Proof.
  intros failing disturbed working. split; [reflexivity|].
  apply (resubscription_retries_until_it_succeeds 100 [failing; disturbed]
           working [working] {| sub := Some 1; resubscribed := false |});
    [repeat constructor | repeat constructor | reflexivity | reflexivity].
Defined.

End ResubscriptionFacts.

Section BookingFacts.
Import Balance Funds.

Context (Hex : Balance.EthAddress -> string).
Context (Mul : BigInt.t -> BigInt.t -> BigInt.t).

Lemma booked_refl b : booked b b 0 0.
Proof. unfold booked. split; [lia|]. split; [lia|done]. Qed.

Lemma booked_trans b1 b2 b3 a1 s1 a2 s2 :
  booked b1 b2 a1 s1 -> booked b2 b3 a2 s2 ->
  booked b1 b3 (a1 + a2) (s1 + s2).
Proof.
  intros (Ha1 & Hs1 & Hp1) (Ha2 & Hs2 & Hp2). unfold booked.
  rewrite Ha2, Hs2, Hp2, Ha1, Hs1, Hp1. split; [lia|]. split; [lia|done].
Qed.

Lemma booked_Update key item b :
  booked b (Update key item b) (amount (AmtToAdd item)) (amount (AmtToSub item)).
Proof.
  destruct (Update_totals key item b) as [Ha Hs].
  split; [done|]. split; [done|]. apply Update_PrevBalance.
Qed.

Lemma tokenFor_funded common i :
  funded common -> is_Some (tokenFor common i).
Proof.
  intros [Hp Ht]. unfold tokenFor.
  destruct (BridgeTokens common) as [|token tokens]; [cbn in Ht; lia|].
  by eexists.
Qed.

Lemma poolFor_funded common i :
  funded common ->
  exists pool index, poolFor common i = Some (pool, index) /\
    is_Some (BridgeTokens common !! index).
Proof.
  intros [Hp Ht]. unfold poolFor.
  destruct (BridgeTokenPools common) as [|pool pools]; [cbn in Hp; lia|].
  cbn [lookup list_lookup mbind option_bind].
  case_decide as Hi; eexists _, _; (split; [reflexivity|]);
    apply lookup_lt_is_Some; cbn [length] in *; lia.
Qed.

Lemma sourceSenderLoop_booked sourceCCIP noOfReq amounts :
  funded (sourceCommon sourceCCIP) ->
  forall i b, exists b',
    sourceSenderLoop Hex Mul sourceCCIP noOfReq i amounts b = Some b' /\
    booked b b' 0 (moved Mul noOfReq amounts).
Proof.
  intros Hf. induction amounts as [|a amounts IH]; intros i b.
  - exists b. split; [done|apply booked_refl].
  - cbn [sourceSenderLoop].
    destruct (tokenFor_funded _ i Hf) as [token ->]. cbn [mbind option_bind].
    edestruct IH as (b' & -> & Hb). exists b'. split; [done|].
    eapply booked_trans in Hb; [|apply booked_Update].
    exact Hb.
Qed.

Lemma sourcePoolLoop_booked sourceCCIP noOfReq amounts :
  funded (sourceCommon sourceCCIP) ->
  forall i b, exists b',
    sourcePoolLoop Mul sourceCCIP noOfReq i amounts b = Some b' /\
    booked b b' (moved Mul noOfReq amounts) 0.
Proof.
  intros Hf. induction amounts as [|a amounts IH]; intros i b.
  - exists b. split; [done|apply booked_refl].
  - cbn [sourcePoolLoop].
    destruct (poolFor_funded _ i Hf) as (pool & index & -> & [token Htoken]).
    cbn [mbind option_bind]. rewrite Htoken. cbn [mbind option_bind].
    edestruct IH as (b' & -> & Hb). exists b'. split; [done|].
    eapply booked_trans in Hb; [|apply booked_Update].
    exact Hb.
Qed.

Lemma destReceiverLoop_booked destCCIP noOfReq amounts :
  funded (destCommon destCCIP) ->
  forall i b, exists b',
    destReceiverLoop Mul destCCIP noOfReq i amounts b = Some b' /\
    booked b b' (moved Mul noOfReq amounts) 0.
Proof.
  intros Hf. induction amounts as [|a amounts IH]; intros i b.
  - exists b. split; [done|apply booked_refl].
  - cbn [destReceiverLoop].
    destruct (tokenFor_funded _ i Hf) as [token ->]. cbn [mbind option_bind].
    edestruct IH as (b' & -> & Hb). exists b'. split; [done|].
    eapply booked_trans in Hb; [|apply booked_Update].
    exact Hb.
Qed.

Lemma destPoolLoop_booked destCCIP noOfReq amounts :
  funded (destCommon destCCIP) ->
  forall i b, exists b',
    destPoolLoop Mul destCCIP noOfReq i amounts b = Some b' /\
    booked b b' 0 (moved Mul noOfReq amounts).
Proof.
  intros Hf. induction amounts as [|a amounts IH]; intros i b.
  - exists b. split; [done|apply booked_refl].
  - cbn [destPoolLoop].
    destruct (poolFor_funded _ i Hf) as (pool & index & -> & [token Htoken]).
    cbn [mbind option_bind]. rewrite Htoken. cbn [mbind option_bind].
    edestruct IH as (b' & -> & Hb). exists b'. split; [done|].
    eapply booked_trans in Hb; [|apply booked_Update].
    exact Hb.
Qed.

Lemma moved_nil noOfReq (amounts : list BigInt.t) :
  ~ 0 < length amounts -> moved Mul noOfReq amounts = 0%Z.
Proof. destruct amounts; [done|cbn [length]; lia]. Qed.

Lemma SourceCCIPModule_UpdateBalance_booked sourceCCIP noOfReq totalFee balances :
  funded (sourceCommon sourceCCIP) ->
  exists b',
    SourceCCIPModule_UpdateBalance Hex Mul sourceCCIP noOfReq totalFee balances
    = Some b' /\
    booked balances b'
      (moved Mul noOfReq (TransferAmount sourceCCIP)
       + feeBooked Hex (sourceCommon sourceCCIP) totalFee)
      (moved Mul noOfReq (TransferAmount sourceCCIP)
       + feeBooked Hex (sourceCommon sourceCCIP) totalFee).
Proof.
  intros Hf. unfold SourceCCIPModule_UpdateBalance, feeBooked.
  destruct (sourceSenderLoop_booked sourceCCIP noOfReq
              (TransferAmount sourceCCIP) Hf 0 balances) as (b0 & Hs0 & Hb0).
  destruct (sourcePoolLoop_booked sourceCCIP noOfReq
              (TransferAmount sourceCCIP) Hf 0 b0) as (b1 & Hs1 & Hb1).
  pose proof (booked_trans _ _ _ _ _ _ _ Hb0 Hb1) as Hb.
  rewrite Z.add_0_l, Z.add_0_r in Hb. clear Hb0 Hb1.
  set (m := moved Mul noOfReq (TransferAmount sourceCCIP)) in *.
  assert (Hloops : exists b2,
            (if decide (0 < length (TransferAmount sourceCCIP))
             then Some b1 else Some balances) = Some b2 /\ booked balances b2 m m).
  { case_decide as Hlen; [by exists b1|]. exists balances. split; [done|].
    subst m. rewrite moved_nil by done. apply booked_refl. }
  destruct Hloops as (b2 & Hb2eq & Hb2).
  assert (Hbind : forall k : BalanceSheet -> option BalanceSheet,
            (if decide (0 < length (TransferAmount sourceCCIP)) then
               sourceSenderLoop Hex Mul sourceCCIP noOfReq 0
                 (TransferAmount sourceCCIP) balances
               ≫= (fun balances =>
                     sourcePoolLoop Mul sourceCCIP noOfReq 0
                       (TransferAmount sourceCCIP) balances)
             else Some balances) ≫= k = k b2).
  { intros k. rewrite Hs0. cbn [mbind option_bind]. rewrite Hs1.
    case_decide; injection Hb2eq as <-; done. }
  rewrite Hbind. clear Hbind Hb2eq.
  case_decide as Hfee.
  - eexists. split; [reflexivity|].
    eapply booked_trans; [exact Hb2|].
    replace (amount totalFee) with (0 + 0 + 0 + amount totalFee)%Z at 1 by lia.
    replace (amount totalFee) with (amount totalFee + 0 + 0 + 0)%Z at 2 by lia.
    eapply booked_trans; [|apply booked_Update].
    eapply booked_trans; [|apply booked_Update].
    eapply booked_trans; [|apply booked_Update].
    apply booked_Update.
  - exists b2. split; [done|]. by rewrite !Z.add_0_r.
Qed.

Lemma DestCCIPModule_UpdateBalance_booked destCCIP transferAmount noOfReq balance :
  funded (destCommon destCCIP) ->
  exists b',
    DestCCIPModule_UpdateBalance Hex Mul destCCIP transferAmount noOfReq balance
    = Some b' /\
    booked balance b' (moved Mul noOfReq transferAmount)
      (moved Mul noOfReq transferAmount).
Proof.
  intros Hf. unfold DestCCIPModule_UpdateBalance.
  destruct (destReceiverLoop_booked destCCIP noOfReq transferAmount Hf 0 balance)
    as (b0 & Hs0 & Hb0).
  destruct (destPoolLoop_booked destCCIP noOfReq transferAmount Hf 0 b0)
    as (b1 & Hs1 & Hb1).
  pose proof (booked_trans _ _ _ _ _ _ _ Hb0 Hb1) as Hb.
  rewrite Z.add_0_l, Z.add_0_r in Hb. clear Hb0 Hb1.
  set (m := moved Mul noOfReq transferAmount) in *.
  assert (Hloops : exists b2,
            (if decide (0 < length transferAmount)
             then Some b1 else Some balance) = Some b2 /\ booked balance b2 m m).
  { case_decide as Hlen; [by exists b1|]. exists balance. split; [done|].
    subst m. rewrite moved_nil by done. apply booked_refl. }
  destruct Hloops as (b2 & Hb2eq & Hb2).
  assert (Hbind : forall k : BalanceSheet -> option BalanceSheet,
            (if decide (0 < length transferAmount) then
               destReceiverLoop Mul destCCIP noOfReq 0 transferAmount balance
               ≫= (fun balance =>
                     destPoolLoop Mul destCCIP noOfReq 0 transferAmount balance)
             else Some balance) ≫= k = k b2).
  { intros k. rewrite Hs0. cbn [mbind option_bind]. rewrite Hs1.
    case_decide; injection Hb2eq as <-; done. }
  rewrite Hbind. clear Hbind Hb2eq.
  case_decide as Hfee.
  - eexists. split; [reflexivity|].
    rewrite <- (Z.add_0_r m).
    eapply booked_trans; [exact Hb2|].
    eapply (booked_trans _ _ _ 0 0 0 0); [|apply booked_Update].
    apply booked_Update.
  - by exists b2.
Qed.

(** X20.  The bookkeeping of a run is balanced.  For modules that have
    a pool, and a token for every pool, [UpdateBalance] of the source
    and then of the destination return, and each of them adds to the
    amounts to add of the sheet, in all, exactly what it adds to the
    amounts to subtract: what the transfers move, and on the source the
    fee; the baselines are untouched. *)
Theorem UpdateBalance_books_every_amount_twice
    (sourceCCIP : SourceCCIPModule) (destCCIP : DestCCIPModule)
    (noOfReq : Z) (totalFee : BigInt.t) (balances : BalanceSheet) :
  funded (sourceCommon sourceCCIP) ->
  funded (destCommon destCCIP) ->
  exists afterSource afterDest,
    SourceCCIPModule_UpdateBalance Hex Mul sourceCCIP noOfReq totalFee balances
    = Some afterSource /\
    DestCCIPModule_UpdateBalance Hex Mul destCCIP (TransferAmount sourceCCIP)
      noOfReq afterSource
    = Some afterDest /\
    (let sent := (moved Mul noOfReq (TransferAmount sourceCCIP)
                  + feeBooked Hex (sourceCommon sourceCCIP) totalFee)%Z in
     booked balances afterSource sent sent) /\
    (let received := moved Mul noOfReq (TransferAmount sourceCCIP) in
     booked afterSource afterDest received received).
Proof.
  intros Hsource Hdest.
  destruct (SourceCCIPModule_UpdateBalance_booked sourceCCIP noOfReq totalFee
              balances Hsource) as (b1 & Hb1eq & Hb1).
  destruct (DestCCIPModule_UpdateBalance_booked destCCIP
              (TransferAmount sourceCCIP) noOfReq b1 Hdest) as (b2 & Hb2eq & Hb2).
  by exists b1, b2.
Qed.

End BookingFacts.

Lemma UpdateBalance_books_every_amount_twice_witness :
  let Hex := fun a : Balance.EthAddress => "0x" +:+ fmtN a in
  let Mul := fun x y : BigInt.t => (x ≫= fun a => y ≫= fun b => Some (a * b)%Z) in
  let token := {| Funds.tokenAddress := "0x10";
                  Funds.BalanceOf := fun _ => (Some 1000%Z, None) |} in
  let link := {| Funds.tokenAddress := "0x20";
                 Funds.BalanceOf := fun _ => (Some 50%Z, None) |} in
  let contract := fun (a : string) (n : N) =>
    {| Funds.contractAddress := a; Funds.EthAddress := n |} in
  let common := {| Funds.BridgeTokens := [token];
                   Funds.BridgeTokenPools := [contract "0x30" 48%N];
                   Funds.FeeToken := link;
                   Funds.Router := contract "0x40" 64%N;
                   Funds.PriceRegistry := contract "0x50" 80%N |} in
  let sourceCCIP := {| Funds.sourceCommon := common; Funds.Sender := 1%N;
                       Funds.TransferAmount := [Some 5%Z; Some 7%Z];
                       Funds.OnRamp := contract "0x60" 96%N |} in
  let destCCIP := {| Funds.destCommon := common;
                     Funds.ReceiverDapp := contract "0x70" 112%N;
                     Funds.OffRamp := contract "0x80" 128%N |} in
  exists afterSource afterDest,
    Funds.SourceCCIPModule_UpdateBalance Hex Mul sourceCCIP 3 (Some 2%Z)
      Balance.NewBalanceSheet = Some afterSource /\
    Funds.DestCCIPModule_UpdateBalance Hex Mul destCCIP
      (Funds.TransferAmount sourceCCIP) 3 afterSource = Some afterDest /\
    booked Balance.NewBalanceSheet afterSource 38 38 /\
    booked afterSource afterDest 36 36.
Proof.
  intros Hex Mul token link contract common sourceCCIP destCCIP.
  apply (UpdateBalance_books_every_amount_twice Hex Mul sourceCCIP destCCIP 3
           (Some 2%Z) Balance.NewBalanceSheet);
    unfold Funds.funded; cbn; lia.
Defined.
